(** * The SQLite state of libpod: a model of [libpod/sqlite_state.go]

    The file follows the Go source top to bottom.  It starts with what the
    source relies on without defining it: the sentinel errors of package
    [define], a relational store standing for the SQLite engine behind
    [database/sql] (the statements are kept as the SQL text the source
    sends), and the handle types.  The methods of [SQLiteState] come next,
    written in a small state-and-error monad, and the properties last. *)

From Stdlib Require Import Bool Arith ZArith Lia List String Ascii Permutation.
From Stdlib Require Import DecimalString.
Import ListNotations.
Open Scope string_scope.
Open Scope list_scope.

Set Implicit Arguments.

(** ** Errors *)

(** Package [define] declares one error variable per failure kind; the
    source only names them, so they are modelled as an enumeration. *)
Module define.
Inductive sentinel : Set :=
| ErrDBClosed | ErrEmptyID
| ErrNoSuchCtr | ErrNoSuchPod | ErrNoSuchVolume
| ErrNoSuchExitCode | ErrNoSuchExecSession
| ErrCtrExists | ErrPodExists | ErrVolumeExists
| ErrCtrRemoved | ErrPodRemoved | ErrVolumeRemoved
| ErrInvalidArg | ErrInternal | ErrNotImplemented
| ErrDBBadConfig | ErrVolumeBeingUsed.

Definition eqb (a b : sentinel) : bool :=
  match a, b with
  | ErrDBClosed, ErrDBClosed | ErrEmptyID, ErrEmptyID
  | ErrNoSuchCtr, ErrNoSuchCtr | ErrNoSuchPod, ErrNoSuchPod
  | ErrNoSuchVolume, ErrNoSuchVolume
  | ErrNoSuchExitCode, ErrNoSuchExitCode
  | ErrNoSuchExecSession, ErrNoSuchExecSession
  | ErrCtrExists, ErrCtrExists | ErrPodExists, ErrPodExists
  | ErrVolumeExists, ErrVolumeExists
  | ErrCtrRemoved, ErrCtrRemoved | ErrPodRemoved, ErrPodRemoved
  | ErrVolumeRemoved, ErrVolumeRemoved
  | ErrInvalidArg, ErrInvalidArg | ErrInternal, ErrInternal
  | ErrNotImplemented, ErrNotImplemented
  | ErrDBBadConfig, ErrDBBadConfig
  | ErrVolumeBeingUsed, ErrVolumeBeingUsed => true
  | _, _ => false
  end.
End define.

(** What the engine and [database/sql] report. *)
Inductive sql_error : Set :=
| ErrNoRows                      (* sql.ErrNoRows *)
| ErrTxDone                      (* sql.ErrTxDone *)
| SyntaxError (near : string)    (* near "...": syntax error *)
| NoSuchTable (name : string)
| NoSuchColumn (name : string)
| ColumnCount (table : string)   (* table has n columns but m values were supplied *)
| UniqueConstraint (table : string)
| BadArgs                        (* wrong number of bound arguments *)
| ScanError                      (* a value Scan cannot convert *)
| Unsupported                    (* SQL outside the fragment modelled here *)
| DriverFault.                   (* the driver call itself failed *)

(** A Go [error]: a sentinel, an engine error, an error of a helper that is
    not part of this file, or [fmt.Errorf(format, args..., err)] wrapping
    one with [%w]. *)
Inductive error : Set :=
| Sentinel (e : define.sentinel)
| SqlError (e : sql_error)
| Other (msg : string)
| Errorf (format : string) (args : list string) (err : error).

Coercion Sentinel : define.sentinel >-> error.

(** [errors.Is(err, target)] for a sentinel target. *)
Fixpoint errors_Is (err : error) (target : define.sentinel) : bool :=
  match err with
  | Sentinel e => define.eqb e target
  | Errorf _ _ e => errors_Is e target
  | _ => false
  end.

(** [errors.Is(err, sql.ErrNoRows)]. *)
Fixpoint is_ErrNoRows (err : error) : bool :=
  match err with
  | SqlError ErrNoRows => true
  | Errorf _ _ e => is_ErrNoRows e
  | _ => false
  end.

(** ** Values and rows *)

Inductive value : Set := VNull | VInt (z : Z) | VText (s : string).

Definition row := list value.

Definition col (i : nat) (r : row) : value := nth i r VNull.

Definition string_of_Z (z : Z) : string :=
  NilZero.string_of_int (Z.to_int z).

(** ** SQL text: characters, LIKE, tokens *)

Definition lower (c : ascii) : ascii :=
  let n := N_of_ascii c in
  if ((65 <=? n) && (n <=? 90))%N then ascii_of_N (n + 32) else c.

Fixpoint lower_string (s : string) : string :=
  match s with
  | EmptyString => EmptyString
  | String c s' => String (lower c) (lower_string s')
  end.

(** Identifiers and keywords of SQL compare without regard to ASCII case. *)
Definition ieq (a b : string) : bool :=
  String.eqb (lower_string a) (lower_string b).

(** SQLite's LIKE with no ESCAPE clause: [%] stands for any run of
    characters, [_] for any one character, every other character for
    itself up to ASCII case.  The reading is byte by byte, which is the
    one of the engine on ASCII texts without NUL: the engine ends an
    operand at its first NUL byte, reads [_] as one UTF-8 character and
    refuses a pattern of more than 50000 bytes.  The properties that say
    what LIKE selects are stated for such texts. *)
Fixpoint like (pat : list ascii) : list ascii -> bool :=
  match pat with
  | [] => fun s => match s with [] => true | _ :: _ => false end
  | p :: pat' =>
      if Ascii.eqb p "%" then
        fix any_run (s : list ascii) : bool :=
          like pat' s || match s with [] => false | _ :: s' => any_run s' end
      else if Ascii.eqb p "_" then
        fun s => match s with [] => false | _ :: s' => like pat' s' end
      else
        fun s =>
          match s with
          | [] => false
          | c :: s' => Ascii.eqb (lower p) (lower c) && like pat' s'
          end
  end.

Definition sqlite_like (pattern text : string) : bool :=
  like (list_ascii_of_string pattern) (list_ascii_of_string text).

Inductive token : Set :=
| TWord (w : string)
| TParam | TComma | TLParen | TRParen | TEq | TLe | TDot | TSemi
| TOther (c : ascii).

Definition is_space (c : ascii) : bool :=
  let n := N_of_ascii c in
  ((n =? 32) || (n =? 9) || (n =? 10) || (n =? 13))%N.

Definition is_word_char (c : ascii) : bool :=
  let n := N_of_ascii c in
  (((65 <=? n) && (n <=? 90)) || ((97 <=? n) && (n <=? 122))
   || ((48 <=? n) && (n <=? 57)) || (n =? 95))%N.

Definition flush (w : list ascii) (ts : list token) : list token :=
  match w with
  | [] => ts
  | _ :: _ => TWord (string_of_list_ascii (rev w)) :: ts
  end.

(** [w] is the word being read, last character first. *)
Fixpoint lex (cs : list ascii) (w : list ascii) : list token :=
  match cs with
  | [] => flush w []
  | c :: cs' =>
      if is_word_char c then lex cs' (c :: w)
      else flush w
        (if is_space c then lex cs' []
         else if Ascii.eqb c "?" then TParam :: lex cs' []
         else if Ascii.eqb c "," then TComma :: lex cs' []
         else if Ascii.eqb c "(" then TLParen :: lex cs' []
         else if Ascii.eqb c ")" then TRParen :: lex cs' []
         else if Ascii.eqb c "=" then TEq :: lex cs' []
         else if Ascii.eqb c "." then TDot :: lex cs' []
         else if Ascii.eqb c ";" then TSemi :: lex cs' []
         else if Ascii.eqb c "<" then
           match cs' with
           | c2 :: cs'' =>
               if Ascii.eqb c2 "=" then TLe :: lex cs'' []
               else TOther c :: lex cs' []
           | [] => [TOther c]
           end
         else TOther c :: lex cs' [])
  end.

Definition token_text (t : token) : string :=
  match t with
  | TWord w => w
  | TParam => "?" | TComma => "," | TLParen => "(" | TRParen => ")"
  | TEq => "=" | TLe => "<=" | TDot => "." | TSemi => ";"
  | TOther c => String c EmptyString
  end.

(** The words SQLite never accepts as a name (its keywords without a
    fallback to identifier). *)
Definition reserved : list string :=
  ["add"; "all"; "alter"; "and"; "as"; "autoincrement"; "between"; "case";
   "check"; "collate"; "commit"; "constraint"; "create"; "default";
   "deferrable"; "delete"; "distinct"; "drop"; "else"; "escape"; "except";
   "exists"; "foreign"; "from"; "group"; "having"; "in"; "index"; "insert";
   "intersect"; "into"; "is"; "isnull"; "join"; "limit"; "not"; "nothing";
   "notnull"; "null"; "on"; "or"; "order"; "primary"; "references";
   "returning"; "select"; "set"; "table"; "then"; "to"; "transaction";
   "union"; "unique"; "update"; "using"; "values"; "when"; "where"].

Definition is_reserved (w : string) : bool :=
  existsb (String.eqb (lower_string w)) reserved.

(** ** SQL text: statements *)

Inductive operand : Set :=
| OCol (tbl : option string) (name : string)
| OParam (n : nat).

Inductive cmp : Set := CEq | CLe | CLike.

Inductive expr : Set :=
| ECmp (op : cmp) (a b : operand)
| EOr (a b : expr).

Inductive stmt : Set :=
| Select (cols : list operand) (tbl : string) (wh : option expr)
| Update (tbl : string) (column : string) (v : operand) (wh : option expr)
| Delete (tbl : string) (wh : option expr)
| Insert (tbl : string) (vals : list operand).

(** A parser reads tokens and numbers the [?] parameters as it meets them. *)
Definition parser (A : Type) : Type :=
  list token -> nat -> sql_error + (A * list token * nat).

Definition p_ret {A} (a : A) : parser A := fun ts n => inr (a, ts, n).

Definition p_bind {A B} (p : parser A) (f : A -> parser B) : parser B :=
  fun ts n =>
    match p ts n with
    | inl e => inl e
    | inr (a, ts', n') => f a ts' n'
    end.

Definition p_fail {A} (e : sql_error) : parser A := fun _ _ => inl e.

(** The error SQLite gives at the token it cannot accept. *)
Definition near (ts : list token) : sql_error :=
  match ts with
  | [] => SyntaxError "incomplete input"
  | t :: _ => SyntaxError (token_text t)
  end.

Definition p_name : parser string :=
  fun ts n =>
    match ts with
    | TWord w :: ts' => if is_reserved w then inl (near ts) else inr (w, ts', n)
    | _ => inl (near ts)
    end.

Definition p_keyword (k : string) : parser unit :=
  fun ts n =>
    match ts with
    | TWord w :: ts' => if ieq w k then inr (tt, ts', n) else inl (near ts)
    | _ => inl (near ts)
    end.

Definition p_token (t : token) : parser unit :=
  fun ts n =>
    match ts, t with
    | TComma :: ts', TComma | TLParen :: ts', TLParen
    | TRParen :: ts', TRParen | TEq :: ts', TEq => inr (tt, ts', n)
    | _, _ => inl (near ts)
    end.

Definition p_operand : parser operand :=
  fun ts n =>
    match ts with
    | TParam :: ts' => inr (OParam n, ts', S n)
    | TWord t :: TDot :: TWord c :: ts' =>
        if is_reserved t || is_reserved c then inl (near ts)
        else inr (OCol (Some t) c, ts', n)
    | TWord c :: ts' =>
        if is_reserved c then inl (near ts) else inr (OCol None c, ts', n)
    | _ => inl (near ts)
    end.

Definition p_cmp : parser cmp :=
  fun ts n =>
    match ts with
    | TEq :: ts' => inr (CEq, ts', n)
    | TLe :: ts' => inr (CLe, ts', n)
    | TWord w :: ts' => if ieq w "like" then inr (CLike, ts', n) else inl Unsupported
    | _ => inl (near ts)
    end.

Definition p_comparison : parser expr :=
  p_bind p_operand (fun a =>
  p_bind p_cmp (fun op =>
  p_bind p_operand (fun b => p_ret (ECmp op a b)))).

(** [a OR b OR ...] once [a] is read. *)
Fixpoint p_ors (fuel : nat) (atom : parser expr) (a : expr) : parser expr :=
  match fuel with
  | O => p_fail Unsupported
  | S f =>
      fun ts n =>
        match ts with
        | TWord w :: ts' =>
            if ieq w "or"
            then p_bind atom (fun b => p_ors f atom (EOr a b)) ts' n
            else inr (a, ts, n)
        | _ => inr (a, ts, n)
        end
  end.

Fixpoint p_expr (fuel : nat) : parser expr :=
  match fuel with
  | O => p_fail Unsupported
  | S f =>
      let atom : parser expr :=
        fun ts n =>
          match ts with
          | TLParen :: ts' =>
              p_bind (p_expr f) (fun e =>
              p_bind (p_token TRParen) (fun _ => p_ret e)) ts' n
          | _ => p_comparison ts n
          end in
      p_bind atom (p_ors f atom)
  end.

(** [item, item, ...], at least one. *)
Fixpoint p_list {A} (fuel : nat) (item : parser A) : parser (list A) :=
  match fuel with
  | O => p_fail Unsupported
  | S f =>
      p_bind item (fun a ts n =>
        match ts with
        | TComma :: ts' => p_bind (p_list f item) (fun l => p_ret (a :: l)) ts' n
        | _ => inr ([a], ts, n)
        end)
  end.

Definition p_where (fuel : nat) : parser (option expr) :=
  fun ts n =>
    match ts with
    | TWord w :: ts' =>
        if ieq w "where"
        then p_bind (p_expr fuel) (fun e => p_ret (Some e)) ts' n
        else inr (None, ts, n)
    | _ => inr (None, ts, n)
    end.

(** A statement ends at its semicolon or at the end of the text. *)
Definition p_end : parser unit :=
  fun ts n =>
    match ts with
    | [] | [TSemi] => inr (tt, [], n)
    | TSemi :: _ => inl Unsupported
    | _ => inl (near ts)
    end.

Definition p_stmt (fuel : nat) : parser stmt :=
  fun ts n =>
    match ts with
    | TWord w :: ts' =>
        if ieq w "select" then
          (p_bind (p_list fuel p_operand) (fun cols =>
           p_bind (p_keyword "from") (fun _ =>
           p_bind p_name (fun t =>
           p_bind (p_where fuel) (fun wh =>
           p_bind p_end (fun _ => p_ret (Select cols t wh))))))) ts' n
        else if ieq w "update" then
          (p_bind p_name (fun t =>
           p_bind (p_keyword "set") (fun _ =>
           p_bind p_name (fun c =>
           p_bind (p_token TEq) (fun _ =>
           p_bind p_operand (fun v =>
           p_bind (p_where fuel) (fun wh =>
           p_bind p_end (fun _ => p_ret (Update t c v wh))))))))) ts' n
        else if ieq w "delete" then
          (p_bind (p_keyword "from") (fun _ =>
           p_bind p_name (fun t =>
           p_bind (p_where fuel) (fun wh =>
           p_bind p_end (fun _ => p_ret (Delete t wh)))))) ts' n
        else if ieq w "insert" then
          (p_bind (p_keyword "into") (fun _ =>
           p_bind p_name (fun t =>
           p_bind (p_keyword "values") (fun _ =>
           p_bind (p_token TLParen) (fun _ =>
           p_bind (p_list fuel p_operand) (fun vals =>
           p_bind (p_token TRParen) (fun _ =>
           p_bind p_end (fun _ => p_ret (Insert t vals))))))))) ts' n
        else inl Unsupported
    | _ => inl (near ts)
    end.

(** Preparing a statement: its syntax tree and how many parameters it binds. *)
Definition sql_prepare (query : string) : sql_error + (stmt * nat) :=
  let ts := lex (list_ascii_of_string query) [] in
  match p_stmt (List.length ts) ts 0 with
  | inl e => inl e
  | inr (st, _, n) => inr (st, n)
  end.

(** ** The store *)

Inductive table : Set :=
| T_DBConfig
| T_ContainerConfig | T_ContainerState
| T_PodConfig | T_PodState
| T_VolumeConfig | T_VolumeState
| T_ContainerDependency | T_ContainerVolume
| T_ContainerExecSession | T_ContainerExitCode.

Definition all_tables : list table :=
  [T_DBConfig; T_ContainerConfig; T_ContainerState; T_PodConfig; T_PodState;
   T_VolumeConfig; T_VolumeState; T_ContainerDependency; T_ContainerVolume;
   T_ContainerExecSession; T_ContainerExitCode].

Definition table_name (t : table) : string :=
  match t with
  | T_DBConfig => "DBConfig"
  | T_ContainerConfig => "ContainerConfig"
  | T_ContainerState => "ContainerState"
  | T_PodConfig => "PodConfig"
  | T_PodState => "PodState"
  | T_VolumeConfig => "VolumeConfig"
  | T_VolumeState => "VolumeState"
  | T_ContainerDependency => "ContainerDependency"
  | T_ContainerVolume => "ContainerVolume"
  | T_ContainerExecSession => "ContainerExecSession"
  | T_ContainerExitCode => "ContainerExitCode"
  end.

(** Modelled from the spec: the tables are created by [sqliteInitTables],
    which is not in this file.  The layout is the persisted layout of the
    spec (section 6); the columns carry the names the queries of this file
    use, and the payload column is the one they call JSON. *)
Definition columns (t : table) : list string :=
  match t with
  | T_DBConfig =>
      ["ID"; "SchemaVersion"; "Os"; "StaticDir"; "TmpDir"; "GraphRoot";
       "RunRoot"; "GraphDriver"; "VolumeDir"]
  | T_ContainerConfig => ["ID"; "Name"; "Pod"; "JSON"]
  | T_ContainerState => ["ID"; "JSON"]
  | T_PodConfig => ["ID"; "Name"; "JSON"]
  | T_PodState => ["ID"; "JSON"]
  | T_VolumeConfig => ["Name"; "StorageID"; "JSON"]
  | T_VolumeState => ["Name"; "JSON"]
  | T_ContainerDependency => ["ID"; "DependencyID"]
  | T_ContainerVolume => ["ContainerID"; "VolumeName"]
  | T_ContainerExecSession => ["ID"; "ContainerID"]
  | T_ContainerExitCode => ["ID"; "Timestamp"; "ExitCode"]
  end.

(** Modelled from the spec: the keys of the data model (section 3) and the
    [pk] and [unique] marks of the persisted layout (section 6), as the
    sets of columns on which no two rows of a table agree. *)
Definition unique_keys (t : table) : list (list nat) :=
  match t with
  | T_DBConfig => [[0]]
  | T_ContainerConfig => [[0]; [1]]
  | T_ContainerState => [[0]]
  | T_PodConfig => [[0]; [1]]
  | T_PodState => [[0]]
  | T_VolumeConfig => [[0]]
  | T_VolumeState => [[0]]
  | T_ContainerDependency => [[0; 1]]
  | T_ContainerVolume => [[0; 1]]
  | T_ContainerExecSession => [[0]]
  | T_ContainerExitCode => [[0]]
  end.

Record DB : Set := mkDB {
  DBConfig_rows : list row;
  ContainerConfig_rows : list row;
  ContainerState_rows : list row;
  PodConfig_rows : list row;
  PodState_rows : list row;
  VolumeConfig_rows : list row;
  VolumeState_rows : list row;
  ContainerDependency_rows : list row;
  ContainerVolume_rows : list row;
  ContainerExecSession_rows : list row;
  ContainerExitCode_rows : list row
}.

Definition empty_DB : DB := mkDB [] [] [] [] [] [] [] [] [] [] [].

Definition rows_of (t : table) (db : DB) : list row :=
  match t with
  | T_DBConfig => DBConfig_rows db
  | T_ContainerConfig => ContainerConfig_rows db
  | T_ContainerState => ContainerState_rows db
  | T_PodConfig => PodConfig_rows db
  | T_PodState => PodState_rows db
  | T_VolumeConfig => VolumeConfig_rows db
  | T_VolumeState => VolumeState_rows db
  | T_ContainerDependency => ContainerDependency_rows db
  | T_ContainerVolume => ContainerVolume_rows db
  | T_ContainerExecSession => ContainerExecSession_rows db
  | T_ContainerExitCode => ContainerExitCode_rows db
  end.

Definition table_index (t : table) : nat :=
  match t with
  | T_DBConfig => 0
  | T_ContainerConfig => 1 | T_ContainerState => 2
  | T_PodConfig => 3 | T_PodState => 4
  | T_VolumeConfig => 5 | T_VolumeState => 6
  | T_ContainerDependency => 7 | T_ContainerVolume => 8
  | T_ContainerExecSession => 9 | T_ContainerExitCode => 10
  end.

(** The store with the rows of table [t] replaced by [rs]. *)
Definition set_rows (t : table) (rs : list row) (db : DB) : DB :=
  let pick (t' : table) : list row :=
    if (table_index t =? table_index t')%nat then rs else rows_of t' db in
  mkDB (pick T_DBConfig)
    (pick T_ContainerConfig) (pick T_ContainerState)
    (pick T_PodConfig) (pick T_PodState)
    (pick T_VolumeConfig) (pick T_VolumeState)
    (pick T_ContainerDependency) (pick T_ContainerVolume)
    (pick T_ContainerExecSession) (pick T_ContainerExitCode).

Definition find_table (name : string) : sql_error + table :=
  match find (fun t => ieq (table_name t) name) all_tables with
  | Some t => inr t
  | None => inl (NoSuchTable name)
  end.

(** ** Running a statement *)

(** An operand once its column is located and its parameter bound. *)
Inductive roperand : Set := RCol (i : nat) | RVal (v : value).

Inductive rexpr : Set :=
| RCmp (op : cmp) (a b : roperand)
| ROr (a b : rexpr).

Fixpoint index_of (name : string) (cols : list string) : option nat :=
  match cols with
  | [] => None
  | c :: cols' =>
      if ieq c name then Some O
      else match index_of name cols' with Some i => Some (S i) | None => None end
  end.

Definition resolve_column (t : table) (q : option string) (name : string)
  : sql_error + nat :=
  let known :=
    match q with Some tn => ieq tn (table_name t) | None => true end in
  match (if known then index_of name (columns t) else None) with
  | Some i => inr i
  | None => inl (NoSuchColumn name)
  end.

Definition resolve_operand (t : table) (args : list value) (o : operand)
  : sql_error + roperand :=
  match o with
  | OCol q name =>
      match resolve_column t q name with
      | inl e => inl e
      | inr i => inr (RCol i)
      end
  | OParam n =>
      match nth_error args n with
      | Some v => inr (RVal v)
      | None => inl BadArgs
      end
  end.

Fixpoint resolve_expr (t : table) (args : list value) (e : expr)
  : sql_error + rexpr :=
  match e with
  | ECmp op a b =>
      match resolve_operand t args a, resolve_operand t args b with
      | inr a', inr b' => inr (RCmp op a' b')
      | inl err, _ => inl err
      | _, inl err => inl err
      end
  | EOr a b =>
      match resolve_expr t args a, resolve_expr t args b with
      | inr a', inr b' => inr (ROr a' b')
      | inl err, _ => inl err
      | _, inl err => inl err
      end
  end.

Definition resolve_where (t : table) (args : list value) (wh : option expr)
  : sql_error + option rexpr :=
  match wh with
  | None => inr None
  | Some e =>
      match resolve_expr t args e with
      | inl err => inl err
      | inr e' => inr (Some e')
      end
  end.

(** Comparisons.  A comparison with NULL is never true; an integer sorts
    before a text; texts compare byte by byte.  No column affinity is
    applied: the statements of this file compare a text column with a text
    argument and an integer column with an integer argument. *)
Definition value_eqb (a b : value) : bool :=
  match a, b with
  | VInt x, VInt y => Z.eqb x y
  | VText x, VText y => String.eqb x y
  | _, _ => false
  end.

Definition value_leb (a b : value) : bool :=
  match a, b with
  | VInt x, VInt y => Z.leb x y
  | VText x, VText y => String.leb x y
  | VInt _, VText _ => true
  | _, _ => false
  end.

Definition value_like (text pattern : value) : bool :=
  match text, pattern with
  | VNull, _ | _, VNull => false
  | VText s, VText p => sqlite_like p s
  | VText s, VInt p => sqlite_like (string_of_Z p) s
  | VInt s, VText p => sqlite_like p (string_of_Z s)
  | VInt s, VInt p => sqlite_like (string_of_Z p) (string_of_Z s)
  end.

Definition operand_value (o : roperand) (r : row) : value :=
  match o with
  | RCol i => col i r
  | RVal v => v
  end.

Fixpoint holds (e : rexpr) (r : row) : bool :=
  match e with
  | RCmp op a b =>
      let x := operand_value a r in
      let y := operand_value b r in
      match op with
      | CEq => value_eqb x y
      | CLe => value_leb x y
      | CLike => value_like x y
      end
  | ROr a b => holds a r || holds b r
  end.

Definition selected (wh : option rexpr) (r : row) : bool :=
  match wh with
  | None => true
  | Some e => holds e r
  end.

Fixpoint sequence {E A} (l : list (E + A)) : E + list A :=
  match l with
  | [] => inr []
  | inl e :: _ => inl e
  | inr a :: l' =>
      match sequence l' with
      | inl e => inl e
      | inr l'' => inr (a :: l'')
      end
  end.

(** The rows of a SELECT, in the order of the table. *)
Definition run_query (db : DB) (st : stmt) (args : list value)
  : sql_error + list row :=
  match st with
  | Select cols tn wh =>
      match find_table tn with
      | inl e => inl e
      | inr t =>
          match sequence (map (resolve_operand t args) cols),
                resolve_where t args wh with
          | inl e, _ => inl e
          | _, inl e => inl e
          | inr cols', inr wh' =>
              inr (map (fun r => map (fun o => operand_value o r) cols')
                       (filter (selected wh') (rows_of t db)))
          end
      end
  | _ => inl Unsupported
  end.

Definition agree_on (key : list nat) (r1 r2 : row) : bool :=
  forallb (fun i => value_eqb (col i r1) (col i r2)) key.

(** Does [r] repeat a key of a row already in the table? *)
Definition breaks_unique (t : table) (rs : list row) (r : row) : bool :=
  existsb (fun key => existsb (agree_on key r) rs) (unique_keys t).

Definition set_col (i : nat) (v : value) (r : row) : row :=
  firstn i r ++ v :: skipn (S i) r.

(** The store after an INSERT, UPDATE or DELETE, and the number of rows it
    affected.  Foreign keys are not modelled: no statement of the modelled
    methods relies on a cascade (RemoveVolume deletes the state row
    itself), and the properties that say that a row referring to another
    is inserted are stated for stores that hold the row referred to. *)
Definition run_exec (db : DB) (st : stmt) (args : list value)
  : sql_error + (DB * Z) :=
  match st with
  | Select _ _ _ => inl Unsupported
  | Insert tn vals =>
      match find_table tn with
      | inl e => inl e
      | inr t =>
          match sequence (map (resolve_operand t args) vals) with
          | inl e => inl e
          | inr vals' =>
              let r := map (fun o => operand_value o []) vals' in
              if negb (List.length r =? List.length (columns t))%nat
              then inl (ColumnCount tn)
              else if existsb (fun o => match o with RCol _ => true | RVal _ => false end) vals'
              then inl Unsupported
              else if breaks_unique t (rows_of t db) r
              then inl (UniqueConstraint (table_name t))
              else inr (set_rows t (rows_of t db ++ [r]) db, 1%Z)
          end
      end
  | Update tn c v wh =>
      match find_table tn with
      | inl e => inl e
      | inr t =>
          match resolve_column t None c, resolve_operand t args v,
                resolve_where t args wh with
          | inl e, _, _ => inl e
          | _, inl e, _ => inl e
          | _, _, inl e => inl e
          | inr i, inr v', inr wh' =>
              if existsb (existsb (Nat.eqb i)) (unique_keys t)
              then inl Unsupported
              else
                let rs := rows_of t db in
                inr (set_rows t
                       (map (fun r => if selected wh' r
                                      then set_col i (operand_value v' r) r
                                      else r) rs) db,
                     Z.of_nat (List.length (filter (selected wh') rs)))
          end
      end
  | Delete tn wh =>
      match find_table tn with
      | inl e => inl e
      | inr t =>
          match resolve_where t args wh with
          | inl e => inl e
          | inr wh' =>
              let rs := rows_of t db in
              inr (set_rows t (filter (fun r => negb (selected wh' r)) rs) db,
                   Z.of_nat (List.length (filter (selected wh') rs)))
          end
      end
  end.

(** ** The connection *)

(** [store] holds the committed rows, the ones every reader of the file
    sees.  [pending] is the working copy of the transaction in progress.
    [faults] says, call by call, whether the next call into the driver
    fails on its own (a full disk, a locked file); once the list is used up
    the driver no longer fails.  [trace] lists the statements sent, the
    latest first. *)
Record Conn : Set := mkConn {
  store : DB;
  pending : option DB;
  faults : list bool;
  trace : list string
}.

Definition step_fault (c : Conn) : bool * Conn :=
  match faults c with
  | [] => (false, c)
  | b :: fs => (b, mkConn (store c) (pending c) fs (trace c))
  end.

Definition sent (q : string) (c : Conn) : Conn :=
  mkConn (store c) (pending c) (faults c) (q :: trace c).

(** [db.Query]: runs on a connection of its own, hence on the committed rows. *)
Definition Conn_Query (q : string) (args : list value) (c : Conn)
  : (sql_error + list row) * Conn :=
  let (bad, c) := step_fault (sent q c) in
  if bad then (inl DriverFault, c)
  else match sql_prepare q with
       | inl e => (inl e, c)
       | inr (st, n) =>
           if negb (n =? List.length args)%nat then (inl BadArgs, c)
           else (run_query (store c) st args, c)
       end.

(** [db.Begin]. *)
Definition Conn_Begin (c : Conn) : (sql_error + unit) * Conn :=
  let (bad, c) := step_fault c in
  if bad then (inl DriverFault, c)
  else (inr tt, mkConn (store c) (Some (store c)) (faults c) (trace c)).

(** [tx.Query]: sees the rows of the transaction. *)
Definition Tx_Query (q : string) (args : list value) (c : Conn)
  : (sql_error + list row) * Conn :=
  match pending c with
  | None => (inl ErrTxDone, c)
  | Some db =>
      let (bad, c) := step_fault (sent q c) in
      if bad then (inl DriverFault, c)
      else match sql_prepare q with
           | inl e => (inl e, c)
           | inr (st, n) =>
               if negb (n =? List.length args)%nat then (inl BadArgs, c)
               else (run_query db st args, c)
           end
  end.

(** [tx.Exec]: changes the rows of the transaction only; the result is
    [RowsAffected]. *)
Definition Tx_Exec (q : string) (args : list value) (c : Conn)
  : (sql_error + Z) * Conn :=
  match pending c with
  | None => (inl ErrTxDone, c)
  | Some db =>
      let (bad, c) := step_fault (sent q c) in
      if bad then (inl DriverFault, c)
      else match sql_prepare q with
           | inl e => (inl e, c)
           | inr (st, n) =>
               if negb (n =? List.length args)%nat then (inl BadArgs, c)
               else match run_exec db st args with
                    | inl e => (inl e, c)
                    | inr (db', k) =>
                        (inr k, mkConn (store c) (Some db') (faults c) (trace c))
                    end
           end
  end.

(** [tx.Commit]: the rows of the transaction become the committed rows.  A
    commit that fails leaves the committed rows alone and ends the
    transaction (the driver rolls it back). *)
Definition Tx_Commit (c : Conn) : (sql_error + unit) * Conn :=
  match pending c with
  | None => (inl ErrTxDone, c)
  | Some db =>
      let (bad, c) := step_fault c in
      if bad then (inl DriverFault, mkConn (store c) None (faults c) (trace c))
      else (inr tt, mkConn db None (faults c) (trace c))
  end.

(** [tx.Rollback]: the rows of the transaction are dropped. *)
Definition Tx_Rollback (c : Conn) : (sql_error + unit) * Conn :=
  match pending c with
  | None => (inl ErrTxDone, c)
  | Some _ => (inr tt, mkConn (store c) None (faults c) (trace c))
  end.

(** ** The runtime and the state object *)

(** [storage.StoreOptions], the fields read here. *)
Record StoreOptions : Set := mkStoreOptions {
  GraphRoot : string;
  RunRoot : string;
  GraphDriverName : string
}.

(** [Runtime]: [config.Engine.StaticDir], [config.Engine.TmpDir],
    [config.Engine.VolumePath] and [StorageConfig()]. *)
Record Runtime : Set := mkRuntime {
  StaticDir : string;
  TmpDir : string;
  VolumePath : string;
  StorageConfig : StoreOptions
}.

Record SQLiteState : Set := mkSQLiteState {
  valid : bool;
  conn : Conn;
  runtime : Runtime
}.

Definition with_conn (c : Conn) (s : SQLiteState) : SQLiteState :=
  mkSQLiteState (valid s) c (runtime s).

(** ** The monad of the methods

    A method runs in a world [W]: the state object and the handles it was
    given, all of which it may change.  It ends with an error or a result;
    the world it leaves is kept in both cases. *)
Definition M (W A : Type) : Type := W -> (error + A) * W.

Class World (W : Type) : Type := {
  the_state : W -> SQLiteState;
  put_state : SQLiteState -> W -> W;
  the_put : forall s w, the_state (put_state s w) = s
}.

#[global] Instance World_state : World SQLiteState :=
  {| the_state := fun s => s;
     put_state := fun s _ => s;
     the_put := fun s _ => eq_refl |}.

#[global] Instance World_handle (H : Type) : World (SQLiteState * H) :=
  {| the_state := fst;
     put_state := fun s w => (s, snd w);
     the_put := fun s _ => eq_refl |}.

Definition ret {W A} (a : A) : M W A := fun w => (inr a, w).

Definition bind {W A B} (m : M W A) (k : A -> M W B) : M W B :=
  fun w =>
    match m w with
    | (inl e, w') => (inl e, w')
    | (inr a, w') => k a w'
    end.

(** [return err]. *)
Definition throw {W A} (e : error) : M W A := fun w => (inl e, w).

Declare Scope go_scope.
Delimit Scope go_scope with go.
Notation "x <- m ;; k" := (bind m (fun x => k))
  (at level 61, m at next level, right associativity) : go_scope.
Notation "' pat <- m ;; k" := (bind m (fun x => let 'pat := x in k))
  (at level 61, pat pattern, m at next level, right associativity) : go_scope.
Notation "m ;; k" := (bind m (fun _ => k))
  (at level 61, right associativity) : go_scope.
Open Scope go_scope.

(** [if err != nil { return fmt.Errorf(format, args..., err) }]. *)
Definition or_wrap {W A} (format : string) (args : list string) (m : M W A)
  : M W A :=
  fun w =>
    match m w with
    | (inl e, w') => (inl (Errorf format args e), w')
    | r => r
    end.

(** A call that cannot touch the world. *)
Definition pure {W A} (r : error + A) : M W A := fun w => (r, w).

(** [if !cond { return err }]. *)
Definition unless {W} (cond : bool) (e : error) : M W unit :=
  if cond then ret tt else throw e.

Definition get_state {W} `{World W} : M W SQLiteState :=
  fun w => (inr (the_state w), w).

(** A driver call made through [s.conn]. *)
Definition driver {W} `{World W} {A}
  (f : Conn -> (sql_error + A) * Conn) : M W A :=
  fun w =>
    let s := the_state w in
    let (r, c) := f (conn s) in
    (match r with inl e => inl (SqlError e) | inr a => inr a end,
     put_state (with_conn c s) w).

Definition conn_Query {W} `{World W} q args : M W (list row) :=
  driver (Conn_Query q args).
Definition conn_Begin {W} `{World W} : M W unit := driver Conn_Begin.
Definition tx_Query {W} `{World W} q args : M W (list row) :=
  driver (Tx_Query q args).
Definition tx_Exec {W} `{World W} q args : M W Z := driver (Tx_Exec q args).
Definition tx_Commit {W} `{World W} : M W unit := driver Tx_Commit.
Definition tx_Rollback {W} `{World W} : M W unit := driver Tx_Rollback.

(** [defer func() { if defErr != nil { tx.Rollback() } }()] around the rest
    of the method: when the rest ends with an error the rollback runs; an
    error of the rollback itself is only logged. *)
Definition defer_rollback {W} `{World W} {A} (rest : M W A) : M W A :=
  fun w =>
    match rest w with
    | (inl e, w') => (inl e, snd (tx_Rollback w'))
    | r => r
    end.

(** [db.QueryRow]: the first row of the answer, or the error that [Scan]
    will report ([sql.ErrNoRows] when there is no row). *)
Definition Row : Set := sql_error + row.

Definition conn_QueryRow {W} `{World W} q args : M W Row :=
  fun w =>
    match conn_Query q args w with
    | (inl (SqlError e), w') => (inr (inl e), w')
    | (inl _, w') => (inr (inl DriverFault), w')
    | (inr [], w') => (inr (inl ErrNoRows), w')
    | (inr (r :: _), w') => (inr (inr r), w')
    end.

(** [Scan] into string variables: a text is copied, an integer is written
    in decimal, NULL is refused. *)
Definition scan_string (v : value) : sql_error + string :=
  match v with
  | VText s => inr s
  | VInt z => inr (string_of_Z z)
  | VNull => inl ScanError
  end.

Definition is_digit (c : ascii) : bool :=
  let n := N_of_ascii c in ((48 <=? n) && (n <=? 57))%N.

Fixpoint digits (s : string) (acc : Z) : option Z :=
  match s with
  | EmptyString => Some acc
  | String c s' =>
      if is_digit c
      then digits s' (10 * acc + Z.of_N (N_of_ascii c) - 48)%Z
      else None
  end.

(** [strconv.ParseInt(s, 10, _)] before the range test. *)
Definition parse_int (s : string) : option Z :=
  match s with
  | EmptyString => None
  | String c s' =>
      if Ascii.eqb c "-" then
        match s' with
        | EmptyString => None
        | _ => option_map Z.opp (digits s' 0%Z)
        end
      else if Ascii.eqb c "+" then
        match s' with
        | EmptyString => None
        | _ => digits s' 0%Z
        end
      else digits s 0%Z
  end.

Definition in_bits (bits : Z) (z : Z) : bool :=
  ((- 2 ^ (bits - 1) <=? z) && (z <? 2 ^ (bits - 1)))%Z.

(** [Scan] into an integer variable of the given width. *)
Definition scan_int (bits : Z) (v : value) : sql_error + Z :=
  match v with
  | VInt z => if in_bits bits z then inr z else inl ScanError
  | VText s =>
      match parse_int s with
      | Some z => if in_bits bits z then inr z else inl ScanError
      | None => inl ScanError
      end
  | VNull => inl ScanError
  end.

Definition as_error {A} (r : sql_error + A) : error + A :=
  match r with
  | inl e => inl (SqlError e)
  | inr a => inr a
  end.

(** [rows.Scan(&a, &b, ...)] with string destinations: as many
    destinations as columns. *)
Definition Scan_strings (n : nat) (r : row) : error + list string :=
  if (List.length r =? n)%nat then as_error (sequence (map scan_string r))
  else inl (SqlError ScanError).

Definition Scan_int (bits : Z) (r : row) : error + Z :=
  match r with
  | [v] => as_error (scan_int bits v)
  | _ => inl (SqlError ScanError)
  end.

(** [row.Scan] after [QueryRow]. *)
Definition Row_Scan {A} (scan : row -> error + A) (r : Row) : error + A :=
  match r with
  | inl e => inl (SqlError e)
  | inr vs => scan vs
  end.

(** ** What the methods use from outside this file *)

(** [json.Marshal] and [json.Unmarshal(data, &v)] at one type. *)
Class JSON (T : Type) : Type := {
  json_Marshal : T -> error + string;
  json_Unmarshal : string -> T -> error + T
}.

(** A Go [map[string]string], kept as the list of its entries. *)
Definition gomap : Set := list (string * string).

Fixpoint map_set (k v : string) (m : gomap) : gomap :=
  match m with
  | [] => [(k, v)]
  | (k', v') :: m' =>
      if String.eqb k k' then (k, v) :: m' else (k', v') :: map_set k v m'
  end.

(** The host: the operating system name, [filepath.Clean], the defaults of
    [containers/storage], the rootless helpers, and the order in which a
    [range] over a map visits the entries, which Go leaves open. *)
Class Host : Type := {
  GOOS : string;
  filepath_Clean : string -> string;
  IsRootless : bool;
  GetRootlessUID : Z;
  DefaultStoreOptions : bool -> Z -> error + StoreOptions;
  range_order : gomap -> gomap;
  range_order_perm : forall m, Permutation (range_order m) m
}.

(** The opaque per-network attachment data, carried as it is stored. *)
Definition PerNetworkOptions : Set := string.

(** [ContainerConfig], [PodConfig], [VolumeConfig]: the fields read here. *)
Record ContainerConfig : Set := mkContainerConfig {
  ID : string;
  Name : string;
  cfg_Pod : string;          (* the field Pod *)
  NetMode_IsBridge : bool;
  Networks : list (string * PerNetworkOptions)
}.

Record PodConfig : Set := mkPodConfig { PodConfig_ID : string }.

Record VolumeConfig : Set := mkVolumeConfig {
  VolumeConfig_Name : string;
  StorageID : string
}.

Record ExecSession : Set := mkExecSession {
  Id : string;
  ContainerId : string
}.

Definition new_ContainerConfig : ContainerConfig :=
  mkContainerConfig "" "" "" false [].
Definition new_PodConfig : PodConfig := mkPodConfig "".
Definition new_VolumeConfig : VolumeConfig := mkVolumeConfig "" "".

(** The rest of package libpod: the mutable state of each kind of entity
    with its zero value, its reset after a reboot and its JSON form, and
    the JSON form of the configurations. *)
Class Libpod : Type := {
  ContainerState : Type;
  podState : Type;
  VolumeState : Type;
  new_ContainerState : ContainerState;
  new_podState : podState;
  new_VolumeState : VolumeState;
  resetContainerState : ContainerState -> ContainerState;
  resetPodState : podState -> podState;
  resetVolumeState : VolumeState -> VolumeState;
  JSON_ContainerState :: JSON ContainerState;
  JSON_podState :: JSON podState;
  JSON_VolumeState :: JSON VolumeState;
  JSON_ContainerConfig :: JSON ContainerConfig;
  JSON_PodConfig :: JSON PodConfig;
  JSON_VolumeConfig :: JSON VolumeConfig
}.

Definition schemaVersion : Z := 1.

Section Handles.
Context {L : Libpod}.

(** An entity handle; [valid] is the Live/Invalidated flag. *)
Record Container : Type := mkContainer {
  config : ContainerConfig;
  state : ContainerState;
  ctr_valid : bool;
  ctr_runtime : option Runtime
}.

Record Pod : Type := mkPod {
  pod_config : PodConfig;
  pod_state : podState;
  pod_valid : bool;
  pod_runtime : option Runtime
}.

(** The state of a volume handle may be nil. *)
Record Volume : Type := mkVolume {
  vol_config : VolumeConfig;
  vol_state : option VolumeState;
  vol_valid : bool;
  vol_runtime : option Runtime
}.

Definition Container_ID (ctr : Container) : string := ID (config ctr).
Definition Pod_ID (pod : Pod) : string := PodConfig_ID (pod_config pod).
Definition Volume_Name (volume : Volume) : string :=
  VolumeConfig_Name (vol_config volume).

Definition set_ctr_valid (b : bool) (ctr : Container) : Container :=
  mkContainer (config ctr) (state ctr) b (ctr_runtime ctr).
Definition set_ctr_state (st : ContainerState) (ctr : Container) : Container :=
  mkContainer (config ctr) st (ctr_valid ctr) (ctr_runtime ctr).
Definition set_vol_valid (b : bool) (volume : Volume) : Volume :=
  mkVolume (vol_config volume) (vol_state volume) b (vol_runtime volume).
Definition set_vol_state (st : option VolumeState) (volume : Volume) : Volume :=
  mkVolume (vol_config volume) st (vol_valid volume) (vol_runtime volume).

(** [json.Marshal] of a state pointer that may be nil. *)
Definition Marshal_vol_state (st : option VolumeState) : error + string :=
  match st with
  | None => inr "null"
  | Some v => json_Marshal v
  end.

(** The unexported methods and helpers that live in another file of the
    package.  Each runs in the world of its caller. *)
Class Internals : Type := {
  getCtrConfig : string -> M SQLiteState ContainerConfig;
  addContainer : M (SQLiteState * Container) unit;
  removeContainer : M (SQLiteState * Container) unit;
  rewriteContainerConfig :
    ContainerConfig -> M (SQLiteState * Container) unit;
  finalizeCtrSqlite : Container -> error + Container
}.

End Handles.

(** ** Moving between worlds *)

Definition get_handle {H} : M (SQLiteState * H) H :=
  fun w => (inr (snd w), w).

Definition set_handle {H} (h : H) : M (SQLiteState * H) unit :=
  fun w => (inr tt, (fst w, h)).

(** A method of the state alone, called where a handle is around. *)
Definition on_state {W} `{World W} {A} (m : M SQLiteState A) : M W A :=
  fun w =>
    let (r, s) := m (the_state w) in (r, put_state s w).

(** A method on the container, called where the pod is around too. *)
Definition on_ctr {P C A} (m : M (SQLiteState * C) A)
  : M (SQLiteState * (P * C)) A :=
  fun w =>
    let '(s, (p, c)) := w in
    let '(r, (s', c')) := m (s, c) in (r, (s', (p, c'))).

(** [for ... { body }] over a list, carrying the variables the body
    updates; a [return] in the body leaves the loop. *)
Fixpoint for_each {W A B} (l : list A) (acc : B) (body : A -> B -> M W B)
  : M W B :=
  match l with
  | [] => ret acc
  | a :: l' => acc' <- body a acc ;; for_each l' acc' body
  end.

Definition Scan_string (r : row) : error + string :=
  match Scan_strings 1 r with
  | inl e => inl e
  | inr l => inr (nth 0 l "")
  end.

(** ** The methods of [SQLiteState] *)

Section Methods.
Context {Hst : Host} {L : Libpod} {I : Internals}.

(** The body of the three loops of [Refresh] that read the state rows:
    scan the key and the JSON, decode, reset, encode, and store the result
    under the key.  [what] is the word that tells the three apart in the
    error texts. *)
Definition reset_row {T} `{JSON T} (what : string) (new : T) (reset : T -> T)
  (r : row) (states : gomap) : M SQLiteState gomap :=
  cols <- or_wrap ("scanning " ++ what ++ " state row: %w")%string []
            (pure (Scan_strings 2 r)) ;;
  let id := nth 0 cols "" in
  let stateJSON := nth 1 cols "" in
  st <- or_wrap ("unmarshalling " ++ what ++ " state json: %w")%string []
          (pure (json_Unmarshal stateJSON new)) ;;
  let st := reset st in
  newJSON <- or_wrap ("marshalling " ++ what ++ " state json: %w")%string []
               (pure (json_Marshal st)) ;;
  ret (map_set id newJSON states).

(** [Refresh] clears container and pod states after a reboot. *)
Definition Refresh : M SQLiteState unit :=
  s <- get_state ;;
  unless (valid s) define.ErrDBClosed ;;
  ctrRows <- or_wrap "querying for container states: %w" []
               (conn_Query "SELECT ID, JSON FROM ContainerState;" []) ;;
  ctrStates <- for_each ctrRows []
                 (reset_row "container" new_ContainerState resetContainerState) ;;
  podRows <- or_wrap "querying for pod states: %w" []
               (conn_Query "SELECT ID, JSON FROM PodState;" []) ;;
  podStates <- for_each podRows []
                 (reset_row "pod" new_podState resetPodState) ;;
  volRows <- or_wrap "querying for volume states: %w" []
               (conn_Query "SELECT Name, JSON FROM VolumeState;" []) ;;
  volumeStates <- for_each volRows []
                    (reset_row "volume" new_VolumeState resetVolumeState) ;;
  or_wrap "beginning refresh transaction: %w" [] conn_Begin ;;
  defer_rollback (
    for_each (range_order ctrStates) tt (fun '(id, json) _ =>
      or_wrap "updating container state: %w" []
        (tx_Exec "UPDATE TABLE ContainerState SET JSON=? WHERE ID=?;"
                 [VText json; VText id]) ;;
      ret tt) ;;
    for_each (range_order podStates) tt (fun '(id, json) _ =>
      or_wrap "updating pod state: %w" []
        (tx_Exec "UPDATE TABLE PodState SET JSON=? WHERE ID=?;"
                 [VText json; VText id]) ;;
      ret tt) ;;
    for_each (range_order volumeStates) tt (fun '(name, json) _ =>
      or_wrap "updating volume state: %w" []
        (tx_Exec "UPDATE TABLE VolumeState SET JSON=? WHERE Name=?;"
                 [VText json; VText name]) ;;
      ret tt) ;;
    or_wrap "removing container exit codes: %w" []
      (tx_Exec "DELETE FROM ContainerExitCode;" []) ;;
    or_wrap "removing container exec sessions: %w" []
      (tx_Exec "DELETE FROM ContainerExecSession;" []) ;;
    or_wrap "committing transaction: %w" [] tx_Commit).

Definition createRow : string := "
        INSERT INTO DBconfig VALUES (
                ?, ?, ?,
                ?, ?, ?,
                ?, ?, ?
        );".

Definition checkField (fieldName dbVal ourVal : string) : error + unit :=
  if negb (String.eqb dbVal ourVal)
  then inl (Errorf "database %s %q does not match our %s %q: %w"
              [fieldName; dbVal; fieldName; ourVal] define.ErrDBBadConfig)
  else inr tt.

(** The values of the running process that [ValidateDBConfig] records and
    compares, in the order of the columns: os, static dir, tmp dir, graph
    root, run root, graph driver, volume path.  An empty graph root, run
    root or graph driver stands for the default of the storage library. *)
Definition runtime_values (s : SQLiteState) (storeOpts : StoreOptions)
  : list string :=
  let runtimeOS := GOOS in
  let runtimeStaticDir := filepath_Clean (StaticDir (runtime s)) in
  let runtimeTmpDir := filepath_Clean (TmpDir (runtime s)) in
  let runtimeGraphRoot :=
    filepath_Clean (GraphRoot (StorageConfig (runtime s))) in
  let runtimeRunRoot := filepath_Clean (RunRoot (StorageConfig (runtime s))) in
  let runtimeGraphDriver := GraphDriverName (StorageConfig (runtime s)) in
  let runtimeVolumePath := filepath_Clean (VolumePath (runtime s)) in
  let runtimeGraphRoot :=
    if String.eqb runtimeGraphRoot "" then GraphRoot storeOpts
    else runtimeGraphRoot in
  let runtimeRunRoot :=
    if String.eqb runtimeRunRoot "" then RunRoot storeOpts
    else runtimeRunRoot in
  let runtimeGraphDriver :=
    if String.eqb runtimeGraphDriver "" then GraphDriverName storeOpts
    else runtimeGraphDriver in
  [runtimeOS; runtimeStaticDir; runtimeTmpDir; runtimeGraphRoot;
   runtimeRunRoot; runtimeGraphDriver; runtimeVolumePath].

(** [ValidateDBConfig] validates paths in the given runtime against the
    database.  The argument is not read: the method uses [s.runtime]. *)
Definition ValidateDBConfig (_ : Runtime) : M SQLiteState unit :=
  s <- get_state ;;
  unless (valid s) define.ErrDBClosed ;;
  storeOpts <- pure (DefaultStoreOptions IsRootless GetRootlessUID) ;;
  let live := runtime_values s storeOpts in
  let runtimeOS := nth 0 live "" in
  let runtimeStaticDir := nth 1 live "" in
  let runtimeTmpDir := nth 2 live "" in
  let runtimeGraphRoot := nth 3 live "" in
  let runtimeRunRoot := nth 4 live "" in
  let runtimeGraphDriver := nth 5 live "" in
  let runtimeVolumePath := nth 6 live "" in
  row <- conn_QueryRow
           "SELECT Os, StaticDir, TmpDir, GraphRoot, RunRoot, GraphDriver, VolumeDir FROM DBConfig;"
           [] ;;
  match Row_Scan (Scan_strings 7) row with
  | inl err =>
      if is_ErrNoRows err then
        or_wrap "beginning DB config transaction: %w" [] conn_Begin ;;
        defer_rollback (
          or_wrap "adding DB config row: %w" []
            (tx_Exec createRow
               [VInt 1; VInt schemaVersion; VText runtimeOS;
                VText runtimeStaticDir; VText runtimeTmpDir;
                VText runtimeGraphRoot; VText runtimeRunRoot;
                VText runtimeGraphDriver; VText runtimeVolumePath]) ;;
          or_wrap "committing DB config transaction: %w" [] tx_Commit)
      else throw (Errorf "retrieving DB config: %w" [] err)
  | inr cols =>
      let os := nth 0 cols "" in
      let staticDir := nth 1 cols "" in
      let tmpDir := nth 2 cols "" in
      let graphRoot := nth 3 cols "" in
      let runRoot := nth 4 cols "" in
      let graphDriver := nth 5 cols "" in
      let volumePath := nth 6 cols "" in
      pure (checkField "os" os runtimeOS) ;;
      pure (checkField "static dir" staticDir runtimeStaticDir) ;;
      pure (checkField "tmp dir" tmpDir runtimeTmpDir) ;;
      pure (checkField "graph root" graphRoot runtimeGraphRoot) ;;
      pure (checkField "run root" runRoot runtimeRunRoot) ;;
      pure (checkField "graph driver" graphDriver runtimeGraphDriver) ;;
      pure (checkField "volume path" volumePath runtimeVolumePath)
  end.

(** The loop shared by the lookups: more than one row is an error, the
    single row is scanned.  [exists_err] is the sentinel of the kind of
    entity, [what] its name in the error texts. *)
Definition one_row (what idOrName : string) (exists_err : define.sentinel)
  (rows : list row) : M SQLiteState (string * bool) :=
  for_each rows ("", false) (fun r '(_, foundResult) =>
    if (foundResult : bool) then
      throw (Errorf ("more than one result for " ++ what ++ " %q: %w")%string
               [idOrName] exists_err)
    else
      v <- or_wrap ("retrieving " ++ what ++ " %q ID from database: %w")%string
             [idOrName] (pure (Scan_string r)) ;;
      ret (v, true)).

(** [LookupContainerID] retrieves a container ID from the state by full or
    unique partial ID or name. *)
Definition LookupContainerID (idOrName : string) : M SQLiteState string :=
  unless (negb (String.eqb idOrName "")) define.ErrEmptyID ;;
  s <- get_state ;;
  unless (valid s) define.ErrDBClosed ;;
  rows <- or_wrap "looking up container %q in database: %w" [idOrName]
            (conn_Query
               "SELECT ID FROM ContainerConfig WHERE ContainerConfig.Name=? OR (ContainerConfig.ID LIKE ?);"
               [VText idOrName; VText idOrName]) ;;
  '(id, foundResult) <- one_row "container" idOrName define.ErrCtrExists rows ;;
  unless foundResult define.ErrNoSuchCtr ;;
  ret id.

(** [LookupContainer] retrieves a container from the state by full or
    unique partial ID or name. *)
Definition LookupContainer (idOrName : string) : M SQLiteState Container :=
  unless (negb (String.eqb idOrName "")) define.ErrEmptyID ;;
  s <- get_state ;;
  unless (valid s) define.ErrDBClosed ;;
  rows <- or_wrap "looking up container %q in database: %w" [idOrName]
            (conn_Query
               "SELECT JSON FROM ContainerConfig WHERE ContainerConfig.Name=? OR (ContainerConfig.ID LIKE ?);"
               [VText idOrName; VText idOrName]) ;;
  '(rawJSON, foundResult) <-
    one_row "container" idOrName define.ErrCtrExists rows ;;
  unless foundResult define.ErrNoSuchCtr ;;
  cfg <- or_wrap "unmarshalling container config JSON: %w" []
           (pure (json_Unmarshal rawJSON new_ContainerConfig)) ;;
  pure (finalizeCtrSqlite
          (mkContainer cfg new_ContainerState false (Some (runtime s)))).

(** Running a call and looking at its error in place ([if err != nil]
    with more than a return in the branch). *)
Definition try {W A} (m : M W A) : M W (error + A) :=
  fun w => let (r, w') := m w in (inr r, w').

(** [AddContainer] adds a container to the state.  The container being
    added cannot belong to a pod. *)
Definition AddContainer : M (SQLiteState * Container) unit :=
  s <- get_state ;;
  unless (valid s) define.ErrDBClosed ;;
  ctr <- get_handle ;;
  unless (ctr_valid ctr) define.ErrCtrRemoved ;;
  if negb (String.eqb (cfg_Pod (config ctr)) "") then
    throw (Errorf "cannot add a container that belongs to a pod with AddContainer - use AddContainerToPod: %w"
             [] define.ErrInvalidArg)
  else addContainer.

(** [RemoveContainer] removes a container from the state.  Only removes
    containers not in pods. *)
Definition RemoveContainer : M (SQLiteState * Container) unit :=
  s <- get_state ;;
  unless (valid s) define.ErrDBClosed ;;
  ctr <- get_handle ;;
  if negb (String.eqb (cfg_Pod (config ctr)) "") then
    throw (Errorf "container %s is part of a pod, use RemoveContainerFromPod instead: %w"
             [Container_ID ctr] define.ErrPodExists)
  else removeContainer.

(** [UpdateContainer] updates a container's state from the database.  A
    Scan error other than [sql.ErrNoRows] is not returned: the JSON read
    stays empty. *)
Definition UpdateContainer : M (SQLiteState * Container) unit :=
  s <- get_state ;;
  unless (valid s) define.ErrDBClosed ;;
  ctr <- get_handle ;;
  unless (ctr_valid ctr) define.ErrCtrRemoved ;;
  row <- conn_QueryRow "SELECT JSON FROM ContainerState WHERE ID=?;"
           [VText (Container_ID ctr)] ;;
  rawJSON <-
    match Row_Scan Scan_string row with
    | inl err =>
        if is_ErrNoRows err then
          set_handle (set_ctr_valid false ctr) ;;
          throw (Errorf "no container with ID %s found in database: %w"
                   [Container_ID ctr] define.ErrNoSuchCtr)
        else ret ""
    | inr rawJSON => ret rawJSON
    end ;;
  newState <- or_wrap "unmarshalling container %s state JSON: %w"
                [Container_ID ctr]
                (pure (json_Unmarshal rawJSON new_ContainerState)) ;;
  set_handle (set_ctr_state newState ctr).

(** [SaveContainer] saves a container's current state in the database. *)
Definition SaveContainer : M (SQLiteState * Container) unit :=
  s <- get_state ;;
  unless (valid s) define.ErrDBClosed ;;
  ctr <- get_handle ;;
  unless (ctr_valid ctr) define.ErrCtrRemoved ;;
  stateJSON <- or_wrap "marshalling container %s state JSON: %w"
                 [Container_ID ctr] (pure (json_Marshal (state ctr))) ;;
  or_wrap "beginning container %s save transaction: %w" [Container_ID ctr]
    conn_Begin ;;
  defer_rollback (
    rows <- or_wrap "writing container %s state: %w" [Container_ID ctr]
              (tx_Exec "UPDATE ContainerState SET JSON=? WHERE ID=?;"
                       [VText stateJSON; VText (Container_ID ctr)]) ;;
    if (rows =? 0)%Z then
      set_handle (set_ctr_valid false ctr) ;;
      throw define.ErrNoSuchCtr
    else
      or_wrap "committing container %s state: %w" [Container_ID ctr]
        tx_Commit).

(** The loop that gathers one text column of the answer. *)
Definition gather {W} (format : string) (args : list string)
  (rows : list row) : M W (list string) :=
  for_each rows [] (fun r acc =>
    v <- or_wrap format args (pure (Scan_string r)) ;;
    ret (acc ++ [v])).

(** [ContainerInUse] returns the IDs of the containers depending on the
    given container. *)
Definition ContainerInUse : M (SQLiteState * Container) (list string) :=
  s <- get_state ;;
  unless (valid s) define.ErrDBClosed ;;
  ctr <- get_handle ;;
  unless (ctr_valid ctr) define.ErrCtrRemoved ;;
  rows <- or_wrap "retrieving containers that depend on container %s: %w"
            [Container_ID ctr]
            (conn_Query "SELECT ID FROM ContainerDependency WHERE DependencyID=?;"
                        [VText (Container_ID ctr)]) ;;
  gather "reading containers that depend on %s: %w" [Container_ID ctr] rows.

(** [GetNetworks] returns the networks this container is a part of. *)
Definition GetNetworks
  : M (SQLiteState * Container) (list (string * PerNetworkOptions)) :=
  s <- get_state ;;
  unless (valid s) define.ErrDBClosed ;;
  ctr <- get_handle ;;
  unless (ctr_valid ctr) define.ErrCtrRemoved ;;
  if negb (NetMode_IsBridge (config ctr)) then ret []
  else
    r <- try (on_state (getCtrConfig (Container_ID ctr))) ;;
    match r with
    | inl err =>
        (if errors_Is err define.ErrNoSuchCtr
         then set_handle (set_ctr_valid false ctr) else ret tt) ;;
        throw err
    | inr cfg => ret (Networks cfg)
    end.

(** [AddContainerExitCode] adds the exit code for the specified container
    to the database.  [now] is [time.Now().Unix()] at the call. *)
Definition AddContainerExitCode (now : Z) (id : string) (exitCode : Z)
  : M SQLiteState unit :=
  unless (negb (String.length id =? 0)%nat) define.ErrEmptyID ;;
  s <- get_state ;;
  unless (valid s) define.ErrDBClosed ;;
  or_wrap "beginning transaction to add exit code: %w" [] conn_Begin ;;
  defer_rollback (
    or_wrap "adding container %s exit code: %w" [id]
      (tx_Exec "INSERT INTO ContainerExitCode VALUES (?, ?, ?);"
               [VText id; VInt now; VInt exitCode]) ;;
    or_wrap "committing transaction to add exit code: %w" [] tx_Commit).

(** [GetContainerExitCode] returns the exit code for the specified
    container. *)
Definition GetContainerExitCode (id : string) : M SQLiteState Z :=
  unless (negb (String.length id =? 0)%nat) define.ErrEmptyID ;;
  s <- get_state ;;
  unless (valid s) define.ErrDBClosed ;;
  row <- conn_QueryRow "SELECT ExitCode FROM ContainerExitCode WHERE ID=?;"
           [VText id] ;;
  match Row_Scan (Scan_int 32) row with
  | inl err =>
      if is_ErrNoRows err then
        throw (Errorf "getting exit code of container %s from DB: %w" [id]
                 define.ErrNoSuchExitCode)
      else throw (Errorf "scanning exit code of container %s: %w" [id] err)
  | inr exitCode => ret exitCode
  end.

(** [GetContainerExitCodeTimeStamp] returns the time stamp when the exit
    code of the specified container was added to the database, as the
    seconds given to [time.Unix]. *)
Definition GetContainerExitCodeTimeStamp (id : string) : M SQLiteState Z :=
  unless (negb (String.length id =? 0)%nat) define.ErrEmptyID ;;
  s <- get_state ;;
  unless (valid s) define.ErrDBClosed ;;
  row <- conn_QueryRow "SELECT Timestamp FROM ContainerExitCode WHERE ID=?;"
           [VText id] ;;
  match Row_Scan (Scan_int 64) row with
  | inl err =>
      if is_ErrNoRows err then
        throw (Errorf "getting timestamp for exit code of container %s from DB: %w"
                 [id] define.ErrNoSuchExitCode)
      else throw (Errorf "scanning exit timestamp of container %s: %w" [id] err)
  | inr timestamp => ret timestamp
  end.

(** [PruneContainerExitCodes] removes exit codes older than 5 minutes.
    [now] is [time.Now().Unix()] at the call. *)
Definition PruneContainerExitCodes (now : Z) : M SQLiteState unit :=
  s <- get_state ;;
  unless (valid s) define.ErrDBClosed ;;
  let fiveMinsAgo := (now - 5 * 60)%Z in
  or_wrap "beginning transaction to remove old timestamps: %w" [] conn_Begin ;;
  defer_rollback (
    or_wrap "removing exit codes with timestamps older than 5 minutes: %w" []
      (tx_Exec "DELETE FROM ContainerExitCode WHERE (Timestamp <= ?);"
               [VInt fiveMinsAgo]) ;;
    or_wrap "committing transaction to remove old timestamps: %w" []
      tx_Commit).

(** [AddExecSession] adds an exec session to the state. *)
Definition AddExecSession (session : ExecSession)
  : M (SQLiteState * Container) unit :=
  s <- get_state ;;
  unless (valid s) define.ErrDBClosed ;;
  ctr <- get_handle ;;
  unless (ctr_valid ctr) define.ErrCtrRemoved ;;
  or_wrap "beginning container %s exec session %s add transaction: %w"
    [Container_ID ctr; Id session] conn_Begin ;;
  defer_rollback (
    or_wrap "adding container %s exec session %s to database: %w"
      [Container_ID ctr; Id session]
      (tx_Exec "INSERT INTO ContainerExecSession VALUES (?, ?);"
               [VText (Id session); VText (Container_ID ctr)]) ;;
    or_wrap "committing container %s exec session %s addition: %w"
      [Container_ID ctr; Id session] tx_Commit).

(** [GetContainerExecSessions] retrieves the IDs of all exec sessions
    running in a container that the database is aware of. *)
Definition GetContainerExecSessions
  : M (SQLiteState * Container) (list string) :=
  s <- get_state ;;
  unless (valid s) define.ErrDBClosed ;;
  ctr <- get_handle ;;
  unless (ctr_valid ctr) define.ErrCtrRemoved ;;
  rows <- or_wrap "querying container %s exec sessions: %w" [Container_ID ctr]
            (conn_Query "SELECT ID FROM ContainerExecSession WHERE ContainerID=?;"
                        [VText (Container_ID ctr)]) ;;
  gather "scanning container %s exec sessions row: %w" [Container_ID ctr] rows.

(** [RemoveContainerExecSessions] removes all exec sessions attached to a
    given container. *)
Definition RemoveContainerExecSessions : M (SQLiteState * Container) unit :=
  s <- get_state ;;
  unless (valid s) define.ErrDBClosed ;;
  ctr <- get_handle ;;
  unless (ctr_valid ctr) define.ErrCtrRemoved ;;
  or_wrap "beginning container %s exec session removal transaction: %w"
    [Container_ID ctr] conn_Begin ;;
  defer_rollback (
    or_wrap "removing container %s exec sessions from database: %w"
      [Container_ID ctr]
      (tx_Exec "DELETE FROM ContainerExecSessions WHERE ContainerID=?;"
               [VText (Container_ID ctr)]) ;;
    or_wrap "committing container %s exec session removal: %w"
      [Container_ID ctr] tx_Commit).

(** [RewriteContainerConfig] rewrites a container's configuration. *)
Definition RewriteContainerConfig (newCfg : ContainerConfig)
  : M (SQLiteState * Container) unit :=
  s <- get_state ;;
  unless (valid s) define.ErrDBClosed ;;
  ctr <- get_handle ;;
  unless (ctr_valid ctr) define.ErrCtrRemoved ;;
  rewriteContainerConfig newCfg.

(** [SafeRewriteContainerConfig] rewrites a container's configuration in a
    more limited fashion than [RewriteContainerConfig]. *)
Definition SafeRewriteContainerConfig (oldName newName : string)
  (newCfg : ContainerConfig) : M (SQLiteState * Container) unit :=
  s <- get_state ;;
  unless (valid s) define.ErrDBClosed ;;
  ctr <- get_handle ;;
  unless (ctr_valid ctr) define.ErrCtrRemoved ;;
  if negb (String.eqb newName "") && negb (String.eqb (Name newCfg) newName)
  then throw (Errorf "new name %s for container %s must match name in given container config: %w"
                [newName; Container_ID ctr] define.ErrInvalidArg)
  else if negb (String.eqb newName "") && String.eqb oldName ""
  then throw (Errorf "must provide old name for container if a new name is given: %w"
                [] define.ErrInvalidArg)
  else rewriteContainerConfig newCfg.

(** The pod methods that are not written yet: after the two tests they
    return [define.ErrNotImplemented]. *)
Definition pod_stub {A} : M (SQLiteState * Pod) A :=
  s <- get_state ;;
  unless (valid s) define.ErrDBClosed ;;
  pod <- get_handle ;;
  unless (pod_valid pod) define.ErrPodRemoved ;;
  throw define.ErrNotImplemented.

Definition RewritePodConfig (newCfg : PodConfig) : M (SQLiteState * Pod) unit :=
  pod_stub.

(** [RewriteVolumeConfig] rewrites a volume's configuration. *)
Definition RewriteVolumeConfig (newCfg : VolumeConfig)
  : M (SQLiteState * Volume) unit :=
  s <- get_state ;;
  unless (valid s) define.ErrDBClosed ;;
  volume <- get_handle ;;
  unless (vol_valid volume) define.ErrVolumeRemoved ;;
  throw define.ErrNotImplemented.

(** [PodHasContainer] checks if the given pod has a container with the
    given ID. *)
Definition PodHasContainer (id : string) : M (SQLiteState * Pod) bool :=
  unless (negb (String.eqb id "")) define.ErrEmptyID ;;
  pod_stub.

Definition PodContainersByID : M (SQLiteState * Pod) (list string) := pod_stub.
Definition PodContainers : M (SQLiteState * Pod) (list Container) := pod_stub.
Definition AddPod : M (SQLiteState * Pod) unit := pod_stub.
Definition RemovePod : M (SQLiteState * Pod) unit := pod_stub.
Definition RemovePodContainers : M (SQLiteState * Pod) unit := pod_stub.
Definition UpdatePod : M (SQLiteState * Pod) unit := pod_stub.
Definition SavePod : M (SQLiteState * Pod) unit := pod_stub.

(** [AddContainerToPod] adds the given container to an existing pod. *)
Definition AddContainerToPod : M (SQLiteState * (Pod * Container)) unit :=
  s <- get_state ;;
  unless (valid s) define.ErrDBClosed ;;
  '(pod, ctr) <- get_handle ;;
  unless (pod_valid pod) define.ErrPodRemoved ;;
  unless (ctr_valid ctr) define.ErrCtrRemoved ;;
  if negb (String.eqb (cfg_Pod (config ctr)) (Pod_ID pod)) then
    throw (Errorf "container %s is not part of pod %s: %w"
             [Container_ID ctr; Pod_ID pod] define.ErrNoSuchCtr)
  else on_ctr addContainer.

(** [RemoveContainerFromPod] removes a container from an existing pod. *)
Definition RemoveContainerFromPod : M (SQLiteState * (Pod * Container)) unit :=
  s <- get_state ;;
  unless (valid s) define.ErrDBClosed ;;
  '(pod, ctr) <- get_handle ;;
  unless (pod_valid pod) define.ErrPodRemoved ;;
  if String.eqb (cfg_Pod (config ctr)) "" then
    throw (Errorf "container %s is not part of a pod, use RemoveContainer instead: %w"
             [Container_ID ctr] define.ErrNoSuchPod)
  else if negb (String.eqb (cfg_Pod (config ctr)) (Pod_ID pod)) then
    throw (Errorf "container %s is not part of pod %s: %w"
             [Container_ID ctr; Pod_ID pod] define.ErrInvalidArg)
  else on_ctr removeContainer.

(** [AddVolume] adds the given volume to the state. *)
Definition AddVolume : M (SQLiteState * Volume) unit :=
  s <- get_state ;;
  unless (valid s) define.ErrDBClosed ;;
  volume <- get_handle ;;
  unless (vol_valid volume) define.ErrVolumeRemoved ;;
  cfgJSON <- or_wrap "marshalling volume %s configuration json: %w"
               [Volume_Name volume] (pure (json_Marshal (vol_config volume))) ;;
  let volState :=
    match vol_state volume with
    | None => new_VolumeState
    | Some st => st
    end in
  stateJSON <- or_wrap "marshalling volume %s state json: %w"
                 [Volume_Name volume] (pure (json_Marshal volState)) ;;
  let storageID :=
    if negb (String.eqb (StorageID (vol_config volume)) "")
    then VText (StorageID (vol_config volume)) else VNull in
  or_wrap "beginning volume create transaction: %w" [] conn_Begin ;;
  defer_rollback (
    or_wrap "adding volume %s config to database: %w" [Volume_Name volume]
      (tx_Exec "INSERT INTO VolumeConfig VALUES (?, ?, ?);"
               [VText (Volume_Name volume); storageID; VText cfgJSON]) ;;
    or_wrap "adding volume %s state to database: %w" [Volume_Name volume]
      (tx_Exec "INSERT INTO VolumeState VALUES (?, ?);"
               [VText (Volume_Name volume); VText stateJSON]) ;;
    or_wrap "committing transaction: %w" [] tx_Commit).

(** [RemoveVolume] removes the given volume from the state. *)
Definition RemoveVolume : M (SQLiteState * Volume) unit :=
  s <- get_state ;;
  unless (valid s) define.ErrDBClosed ;;
  volume <- get_handle ;;
  or_wrap "beginning volume %s removal transaction: %w" [Volume_Name volume]
    conn_Begin ;;
  defer_rollback (
    rows <- or_wrap "querying for containers using volume %s: %w"
              [Volume_Name volume]
              (tx_Query "SELECT ContainerID FROM ContainerVolume WHERE VolumeName=?;"
                        [VText (Volume_Name volume)]) ;;
    ctrs <- gather "error scanning row for containers using volume %s: %w"
              [Volume_Name volume] rows ;;
    if (0 <? List.length ctrs)%nat then
      throw (Errorf "volume %s is in use by containers %s: %w"
               [Volume_Name volume; String.concat "," ctrs]
               define.ErrVolumeBeingUsed)
    else
      or_wrap "removing volume %s config from DB: %w" [Volume_Name volume]
        (tx_Exec "DELETE FROM VolumeConfig WHERE Name=?;"
                 [VText (Volume_Name volume)]) ;;
      or_wrap "removing volume %s state from DB: %w" [Volume_Name volume]
        (tx_Exec "DELETE FROM VolumeState WHERE Name=?;"
                 [VText (Volume_Name volume)]) ;;
      or_wrap "committing transaction to remove volume %s: %w"
        [Volume_Name volume] tx_Commit).

(** [UpdateVolume] updates the volume's state from the database. *)
Definition UpdateVolume : M (SQLiteState * Volume) unit :=
  s <- get_state ;;
  unless (valid s) define.ErrDBClosed ;;
  volume <- get_handle ;;
  unless (vol_valid volume) define.ErrVolumeRemoved ;;
  row <- conn_QueryRow "SELECT JSON FROM VolumeState WHERE Name=?;"
           [VText (Volume_Name volume)] ;;
  match Row_Scan Scan_string row with
  | inl err =>
      if is_ErrNoRows err then
        set_handle (set_vol_valid false volume) ;;
        throw define.ErrNoSuchVolume
      else throw (Errorf "scanning volume %s state JSON: %w"
                    [Volume_Name volume] err)
  | inr stateJSON =>
      newState <- or_wrap "unmarshalling volume %s state: %w"
                    [Volume_Name volume]
                    (pure (json_Unmarshal stateJSON new_VolumeState)) ;;
      set_handle (set_vol_state (Some newState) volume)
  end.

(** [SaveVolume] saves the volume's state to the database. *)
Definition SaveVolume : M (SQLiteState * Volume) unit :=
  s <- get_state ;;
  unless (valid s) define.ErrDBClosed ;;
  volume <- get_handle ;;
  unless (vol_valid volume) define.ErrVolumeRemoved ;;
  stateJSON <- or_wrap "marshalling volume %s state JSON: %w"
                 [Volume_Name volume]
                 (pure (Marshal_vol_state (vol_state volume))) ;;
  or_wrap "beginning transaction to rewrite volume %s state: %w"
    [Volume_Name volume] conn_Begin ;;
  defer_rollback (
    rows <- or_wrap "updating volume %s state in DB: %w" [Volume_Name volume]
              (tx_Exec "UPDATE TABLE VolumeState SET JSON=? WHERE Name=?;"
                       [VText stateJSON; VText (Volume_Name volume)]) ;;
    if (rows =? 0)%Z then
      set_handle (set_vol_valid false volume) ;;
      throw define.ErrNoSuchVolume
    else
      or_wrap "committing transaction to rewrite volume %s state: %w"
        [Volume_Name volume] tx_Commit).

(** [VolumeInUse] returns the IDs of the containers using the given
    volume. *)
Definition VolumeInUse : M (SQLiteState * Volume) (list string) :=
  s <- get_state ;;
  unless (valid s) define.ErrDBClosed ;;
  volume <- get_handle ;;
  unless (vol_valid volume) define.ErrVolumeRemoved ;;
  rows <- or_wrap "querying database for containers using volume %s: %w"
            [Volume_Name volume]
            (conn_Query "SELECT ContainerID FROM ContainerVolume WHERE VolumeName=?;"
                        [VText (Volume_Name volume)]) ;;
  gather "scanning container ID for container using volume %s: %w"
    [Volume_Name volume] rows.

End Methods.

(** ** The methods that read one entity or one table, and [Close] *)

(** [sql.DB.Close]. *)
Definition Conn_Close (c : Conn) : (sql_error + unit) * Conn :=
  let (bad, c) := step_fault c in
  if bad then (inl DriverFault, c) else (inr tt, c).

(** [s.valid = b]. *)
Definition set_valid (b : bool) : M SQLiteState unit :=
  fun s => (inr tt, mkSQLiteState b (conn s) (runtime s)).

(** [Close] closes the state and prevents further use. *)
Definition Close : M SQLiteState unit :=
  driver Conn_Close ;;
  set_valid false.

(** [DBConfig]: the runtime configuration kept in the database. *)
Record DBConfig : Set := mkDBConfig {
  LibpodRoot : string;
  LibpodTmp : string;
  StorageRoot : string;
  StorageTmp : string;
  GraphDriver : string;
  cfg_VolumePath : string      (* the field VolumePath *)
}.

Definition new_DBConfig : DBConfig := mkDBConfig "" "" "" "" "" "".

Section Finalizing.
Context {L : Libpod}.

(** The helpers of another file that complete a pod or a volume read from
    the database. *)
Class Finalizers : Type := {
  finalizePodSqlite : Pod -> error + Pod;
  finalizeVolumeSqlite : Volume -> error + Volume
}.

End Finalizing.

Section Readers.
Context {Hst : Host} {L : Libpod} {I : Internals} {F : Finalizers}.

(** [GetDBConfig] retrieves runtime configuration fields that were created
    when the database was first initialized. *)
Definition GetDBConfig : M SQLiteState DBConfig :=
  s <- get_state ;;
  unless (valid s) define.ErrDBClosed ;;
  let cfg := new_DBConfig in
  row <- conn_QueryRow
           "SELECT StaticDir, TmpDir, GraphRoot, RunRoot, GraphDriver, VolumeDir FROM DBConfig;"
           [] ;;
  match Row_Scan (Scan_strings 6) row with
  | inl err =>
      if is_ErrNoRows err then ret cfg
      else throw (Errorf "retrieving DB config: %w" [] err)
  | inr cols =>
      let staticDir := nth 0 cols "" in
      let tmpDir := nth 1 cols "" in
      let graphRoot := nth 2 cols "" in
      let runRoot := nth 3 cols "" in
      let graphDriver := nth 4 cols "" in
      let volumeDir := nth 5 cols "" in
      ret (mkDBConfig staticDir tmpDir graphRoot runRoot graphDriver volumeDir)
  end.

(** [GetContainerName] returns the name of the container associated with a
    given ID. *)
Definition GetContainerName (id : string) : M SQLiteState string :=
  unless (negb (String.eqb id "")) define.ErrEmptyID ;;
  s <- get_state ;;
  unless (valid s) define.ErrDBClosed ;;
  row <- conn_QueryRow "SELECT Name FROM ContainerConfig WHERE ID=?;"
           [VText id] ;;
  match Row_Scan Scan_string row with
  | inl err =>
      if is_ErrNoRows err then throw define.ErrNoSuchCtr
      else throw (Errorf "looking up container %s name: %w" [id] err)
  | inr name => ret name
  end.

(** [GetPodName] returns the name of the pod associated with a given ID. *)
Definition GetPodName (id : string) : M SQLiteState string :=
  unless (negb (String.eqb id "")) define.ErrEmptyID ;;
  s <- get_state ;;
  unless (valid s) define.ErrDBClosed ;;
  row <- conn_QueryRow "SELECT Name FROM PodConfig WHERE ID=?;" [VText id] ;;
  match Row_Scan Scan_string row with
  | inl err =>
      if is_ErrNoRows err then throw define.ErrNoSuchPod
      else throw (Errorf "looking up pod %s name: %w" [id] err)
  | inr name => ret name
  end.

(** [Container] retrieves a single container from the state by its full
    ID. *)
Definition SQLiteState_Container (id : string) : M SQLiteState Container :=
  unless (negb (String.eqb id "")) define.ErrEmptyID ;;
  s <- get_state ;;
  unless (valid s) define.ErrDBClosed ;;
  ctrConfig <- getCtrConfig id ;;
  s <- get_state ;;
  pure (finalizeCtrSqlite
          (mkContainer ctrConfig new_ContainerState false (Some (runtime s)))).

(** [GetContainerConfig] returns a container config from the database by
    full ID. *)
Definition GetContainerConfig (id : string) : M SQLiteState ContainerConfig :=
  unless (negb (String.length id =? 0)%nat) define.ErrEmptyID ;;
  s <- get_state ;;
  unless (valid s) define.ErrDBClosed ;;
  getCtrConfig id.

(** [GetExecSession] returns the ID of the container an exec session is
    associated with.  The state is tested before the ID. *)
Definition GetExecSession (id : string) : M SQLiteState string :=
  s <- get_state ;;
  unless (valid s) define.ErrDBClosed ;;
  unless (negb (String.eqb id "")) define.ErrEmptyID ;;
  row <- conn_QueryRow "SELECT ContainerID FROM ContainerExecSession WHERE ID=?;"
           [VText id] ;;
  match Row_Scan Scan_string row with
  | inl err =>
      if is_ErrNoRows err then
        throw (Errorf "no exec session with ID %s found: %w" [id]
                 define.ErrNoSuchExecSession)
      else throw (Errorf "retrieving exec session %s from database: %w" [id] err)
  | inr ctrID => ret ctrID
  end.

(** [RemoveExecSession] removes references to the given exec session in
    the database.  As in [SaveContainer], the result of [tx.Exec] is read
    as the number of rows affected. *)
Definition RemoveExecSession (session : ExecSession) : M SQLiteState unit :=
  s <- get_state ;;
  unless (valid s) define.ErrDBClosed ;;
  or_wrap "beginning container %s exec session %s remove transaction: %w"
    [ContainerId session; Id session] conn_Begin ;;
  defer_rollback (
    rows <- or_wrap "removing container %s exec session %s from database: %w"
              [ContainerId session; Id session]
              (tx_Exec "DELETE FROM ContainerExecSession WHERE ID=?;"
                       [VText (Id session)]) ;;
    if (rows =? 0)%Z then throw define.ErrNoSuchExecSession
    else
      or_wrap "committing container %s exec session %s removal: %w"
        [ContainerId session; Id session] tx_Commit).

(** [Pod] retrieves a pod given its full ID; not written yet. *)
Definition SQLiteState_Pod (id : string) : M SQLiteState Pod :=
  unless (negb (String.eqb id "")) define.ErrEmptyID ;;
  s <- get_state ;;
  unless (valid s) define.ErrDBClosed ;;
  throw define.ErrNotImplemented.

(** [LookupPod] retrieves a pod from a full or unique partial ID, or a
    name.  More than one row gives [define.ErrCtrExists], as in the
    lookup of a container. *)
Definition LookupPod (idOrName : string) : M SQLiteState Pod :=
  unless (negb (String.eqb idOrName "")) define.ErrEmptyID ;;
  s <- get_state ;;
  unless (valid s) define.ErrDBClosed ;;
  rows <- or_wrap "looking up pod %q in database: %w" [idOrName]
            (conn_Query
               "SELECT JSON FROM PodConfig WHERE PodConfig.Name=? OR (PodConfig.ID LIKE ?);"
               [VText idOrName; VText idOrName]) ;;
  '(rawJSON, foundResult) <-
    for_each rows ("", false) (fun r '(_, foundResult) =>
      if (foundResult : bool) then
        throw (Errorf "more than one result for pod %q: %w" [idOrName]
                 define.ErrCtrExists)
      else
        v <- or_wrap "error retrieving pod %q ID from database: %w" [idOrName]
               (pure (Scan_string r)) ;;
        ret (v, true)) ;;
  unless foundResult define.ErrNoSuchPod ;;
  cfg <- or_wrap "unmarshalling pod JSON: %w" []
           (pure (json_Unmarshal rawJSON new_PodConfig)) ;;
  pure (finalizePodSqlite (mkPod cfg new_podState false (Some (runtime s)))).

(** [HasPod] checks if a pod with the given ID exists; not written yet. *)
Definition HasPod (id : string) : M SQLiteState bool :=
  unless (negb (String.eqb id "")) define.ErrEmptyID ;;
  s <- get_state ;;
  unless (valid s) define.ErrDBClosed ;;
  throw define.ErrNotImplemented.

(** [AllPods] returns all pods present in the state; not written yet. *)
Definition AllPods : M SQLiteState (list Pod) :=
  s <- get_state ;;
  unless (valid s) define.ErrDBClosed ;;
  throw define.ErrNotImplemented.

(** The volume handle that the readers build around a decoded config. *)
Definition read_volume (s : SQLiteState) (cfg : VolumeConfig) : Volume :=
  mkVolume cfg (Some new_VolumeState) false (Some (runtime s)).

(** [AllVolumes] returns all volumes present in the state. *)
Definition AllVolumes : M SQLiteState (list Volume) :=
  s <- get_state ;;
  unless (valid s) define.ErrDBClosed ;;
  rows <- or_wrap "querying database for all volumes: %w" []
            (conn_Query "SELECT JSON FROM VolumeConfig;" []) ;;
  for_each rows [] (fun r volumes =>
    configJSON <- or_wrap "scanning volume config from database: %w" []
                    (pure (Scan_string r)) ;;
    cfg <- or_wrap "unmarshalling volume config: %w" []
             (pure (json_Unmarshal configJSON new_VolumeConfig)) ;;
    vol <- pure (finalizeVolumeSqlite (read_volume s cfg)) ;;
    ret (volumes ++ [vol])).

(** [Volume] retrieves a volume from full name.  A Scan error other than
    [sql.ErrNoRows] is not returned: the JSON read stays empty. *)
Definition SQLiteState_Volume (name : string) : M SQLiteState Volume :=
  unless (negb (String.eqb name "")) define.ErrEmptyID ;;
  s <- get_state ;;
  unless (valid s) define.ErrDBClosed ;;
  row <- conn_QueryRow "SELECT JSON FROM VolumeConfig WHERE Name=?;"
           [VText name] ;;
  configJSON <-
    match Row_Scan Scan_string row with
    | inl err =>
        if is_ErrNoRows err then throw define.ErrNoSuchVolume else ret ""
    | inr configJSON => ret configJSON
    end ;;
  cfg <- or_wrap "unmarshalling volume %s config JSON: %w" [name]
           (pure (json_Unmarshal configJSON new_VolumeConfig)) ;;
  pure (finalizeVolumeSqlite (read_volume s cfg)).

(** [LookupVolume] locates a volume from a unique partial name. *)
Definition LookupVolume (name : string) : M SQLiteState Volume :=
  unless (negb (String.eqb name "")) define.ErrEmptyID ;;
  s <- get_state ;;
  unless (valid s) define.ErrDBClosed ;;
  rows <- or_wrap "querying database for volume %s: %w" [name]
            (conn_Query "SELECT JSON FROM VolumeConfig WHERE Name LIKE ?;"
                        [VText name]) ;;
  '(configJSON, foundResult) <-
    for_each rows ("", false) (fun r '(_, foundResult) =>
      if (foundResult : bool) then
        throw (Errorf "more than one result for volume name %s: %w" [name]
                 define.ErrVolumeExists)
      else
        v <- or_wrap "retrieving volume %s config from database: %w" [name]
               (pure (Scan_string r)) ;;
        ret (v, true)) ;;
  unless foundResult define.ErrNoSuchVolume ;;
  cfg <- or_wrap "unmarshalling volume %s config JSON: %w" [name]
           (pure (json_Unmarshal configJSON new_VolumeConfig)) ;;
  pure (finalizeVolumeSqlite (read_volume s cfg)).

End Readers.

(** ** Reading the rows

    The words used to state what the methods do to the rows. *)

(** The text [Scan] gives for a value that is not NULL. *)
Definition text_of (v : value) : string :=
  match v with
  | VText s => s
  | VInt z => string_of_Z z
  | VNull => ""
  end.

(** Column [i] of the row holds the text [name]. *)
Definition named (i : nat) (name : string) (r : row) : bool :=
  value_eqb (col i r) (VText name).

Definition not_null (i : nat) (r : row) : bool :=
  match col i r with
  | VNull => false
  | _ => true
  end.

(** The containers that use the volume [name]: the ContainerID of the
    usage edges whose VolumeName is [name], in the order of the table. *)
Definition volume_users (db : DB) (name : string) : list string :=
  map (fun r => text_of (col 0 r))
      (filter (named 1 name) (ContainerVolume_rows db)).

(** The rows of a table without those whose column 0 is [name]. *)
Definition without (name : string) (rs : list row) : list row :=
  filter (fun r => negb (named 0 name r)) rs.

(** The rows the lookups of a container select: the Name is the term, or
    the ID is LIKE the term taken as the pattern. *)
Definition looked_up (term : string) (r : row) : bool :=
  value_eqb (col 1 r) (VText term) || value_like (col 0 r) (VText term).

(** The state rows with the JSON of the rows of key [id] replaced. *)
Definition with_json (id json : string) (rs : list row) : list row :=
  map (fun r => if named 0 id r then set_col 1 (VText json) r else r) rs.

(** The names [ValidateDBConfig] gives the fields it compares, in order. *)
Definition field_names : list string :=
  ["os"; "static dir"; "tmp dir"; "graph root"; "run root"; "graph driver";
   "volume path"].

(** An exit code row that [PruneContainerExitCodes] removes at time [now]:
    its timestamp is five minutes old or older. *)
Definition expired (now : Z) (r : row) : bool :=
  value_leb (col 1 r) (VInt (now - 5 * 60)).

(** A term that holds neither wildcard of LIKE. *)
Definition plain (term : string) : bool :=
  forallb (fun c => negb (Ascii.eqb c "%") && negb (Ascii.eqb c "_"))
          (list_ascii_of_string term).

(** A text of ASCII characters other than NUL, and a value that is not a
    text or is such a text.  On these texts the byte-wise [like] above is
    the LIKE of the engine. *)
Definition ascii_text (t : string) : bool :=
  forallb (fun c => let n := N_of_ascii c in ((0 <? n) && (n <? 128))%N)
          (list_ascii_of_string t).

Definition ascii_value (v : value) : bool :=
  match v with
  | VText t => ascii_text t
  | _ => true
  end.

(** The longest pattern the engine accepts in a LIKE, in bytes. *)
Definition max_like_pattern : N := 50000.

(** A row whose column 0 is not NULL and reads as [name] up to ASCII
    case. *)
Definition same_name (name : string) (r : row) : bool :=
  match col 0 r with
  | VNull => false
  | v => ieq name (text_of v)
  end.

(** What [AllVolumes] makes of one config row. *)
Definition loaded {L : Libpod} {F : Finalizers} (s : SQLiteState) (r : row)
  : error + Volume :=
  match scan_string (col 2 r) with
  | inl e =>
      inl (Errorf "scanning volume config from database: %w" [] (SqlError e))
  | inr configJSON =>
      match json_Unmarshal configJSON new_VolumeConfig with
      | inl e => inl (Errorf "unmarshalling volume config: %w" [] e)
      | inr cfg => finalizeVolumeSqlite (read_volume s cfg)
      end
  end.

(** ** What a call leaves alone

    The words used to state what a method does to the connection. *)

Section Outcomes.
Context {W : Type} {World_W : World W}.

(** A component of the connection that the call never changes. *)
Definition stable {X A} (f : Conn -> X) (m : M W A) : Prop :=
  forall w, f (conn (the_state (snd (m w)))) = f (conn (the_state w)).

(** A call that, when it ends with an error, has left the committed rows
    as they were. *)
Definition fails_clean {A} (m : M W A) : Prop :=
  forall w e w', m w = (inl e, w') ->
    store (conn (the_state w')) = store (conn (the_state w)).

(** A call that, when it ends without error, has closed the transaction. *)
Definition succeeds_closed {A} (m : M W A) : Prop :=
  forall w a w', m w = (inr a, w') -> pending (conn (the_state w')) = None.

(** A call that, started with no transaction open, ends with none open. *)
Definition ends_closed {A} (m : M W A) : Prop :=
  forall w, pending (conn (the_state w)) = None ->
    pending (conn (the_state (snd (m w)))) = None.

End Outcomes.

(** ** A small instance

    One host, one reading of the rest of the package and a few stores on
    which the methods can be run.  A state is kept as its JSON text; the
    reset of a state gives the empty object. *)
Module Example.

Definition json_text : JSON string :=
  {| json_Marshal := fun s => inr s;
     json_Unmarshal := fun data _ => inr data |}.

Definition json_ContainerConfig : JSON ContainerConfig :=
  {| json_Marshal := fun c => inr (ID c);
     json_Unmarshal := fun data c =>
       inr (mkContainerConfig data (Name c) (cfg_Pod c)
              (NetMode_IsBridge c) (Networks c)) |}.

Definition json_PodConfig : JSON PodConfig :=
  {| json_Marshal := fun c => inr (PodConfig_ID c);
     json_Unmarshal := fun data _ => inr (mkPodConfig data) |}.

Definition json_VolumeConfig : JSON VolumeConfig :=
  {| json_Marshal := fun c => inr (VolumeConfig_Name c);
     json_Unmarshal := fun data c => inr (mkVolumeConfig data (StorageID c)) |}.

#[export] Instance host : Host :=
  {| GOOS := "linux";
     filepath_Clean := fun p => if String.eqb p "" then "." else p;
     IsRootless := false;
     GetRootlessUID := 0%Z;
     DefaultStoreOptions := fun _ _ =>
       inr (mkStoreOptions "/var/lib/containers/storage"
              "/run/containers/storage" "overlay");
     range_order := fun m => m;
     range_order_perm := fun m => Permutation_refl m |}.

#[export] Instance libpod : Libpod :=
  {| ContainerState := string;
     podState := string;
     VolumeState := string;
     new_ContainerState := "";
     new_podState := "";
     new_VolumeState := "";
     resetContainerState := fun _ => "{}";
     resetPodState := fun _ => "{}";
     resetVolumeState := fun _ => "{}";
     JSON_ContainerState := json_text;
     JSON_podState := json_text;
     JSON_VolumeState := json_text;
     JSON_ContainerConfig := json_ContainerConfig;
     JSON_PodConfig := json_PodConfig;
     JSON_VolumeConfig := json_VolumeConfig |}.

(** The helpers of the other file are given no effect here. *)
#[export] Instance internals : Internals :=
  {| getCtrConfig := fun _ => throw (Sentinel define.ErrNoSuchCtr);
     addContainer := ret tt;
     removeContainer := ret tt;
     rewriteContainerConfig := fun _ => ret tt;
     finalizeCtrSqlite := fun ctr =>
       inr (mkContainer (config ctr) (state ctr) true (ctr_runtime ctr)) |}.

Definition rt : Runtime :=
  mkRuntime "/var/lib/containers/storage/libpod" "/run/libpod"
    "/var/lib/containers/storage/volumes"
    (mkStoreOptions "/var/lib/containers/storage" "/run/containers/storage"
       "overlay").

(** An open state object over the rows [db]; the driver never fails. *)
Definition open (db : DB) : SQLiteState :=
  mkSQLiteState true (mkConn db None [] []) rt.

(** The same, with the driver failing at the calls marked [true]. *)
Definition open_failing (db : DB) (fs : list bool) : SQLiteState :=
  mkSQLiteState true (mkConn db None fs []) rt.

Definition ctr_row (id name : string) : row :=
  [VText id; VText name; VNull; VText id].

(** Two containers whose IDs share the prefix abc. *)
Definition two_containers : DB :=
  set_rows T_ContainerConfig
    [ctr_row "abc123" "first"; ctr_row "abc456" "second"]
    (set_rows T_ContainerState
       [[VText "abc123"; VText "running"];
        [VText "abc456"; VText "{}"]] empty_DB).

(** One container with a state row, an exec session and an exit code. *)
Definition after_reboot : DB :=
  set_rows T_ContainerConfig [ctr_row "c1" "web"]
    (set_rows T_ContainerState [[VText "c1"; VText "running"]]
       (set_rows T_ContainerExecSession [[VText "e1"; VText "c1"]]
          (set_rows T_ContainerExitCode [[VText "c1"; VInt 1000; VInt 137]]
             empty_DB))).

(** Only ephemeral rows: no entity has a state row. *)
Definition only_ephemeral : DB :=
  set_rows T_ContainerExecSession [[VText "e1"; VText "c1"]]
    (set_rows T_ContainerExitCode [[VText "c1"; VInt 1000; VInt 137]]
       empty_DB).

(** A volume used by one container, and one that nothing uses. *)
Definition volumes : DB :=
  set_rows T_VolumeConfig
    [[VText "data"; VNull; VText "data"]; [VText "logs"; VNull; VText "logs"]]
    (set_rows T_VolumeState
       [[VText "data"; VText "{}"]; [VText "logs"; VText "{}"]]
       (set_rows T_ContainerVolume [[VText "c1"; VText "data"]] empty_DB)).

Definition container (id pod : string) (live : bool) : Container :=
  mkContainer (mkContainerConfig id id pod false []) "{}" live (Some rt).

Definition volume (name : string) (live : bool) : Volume :=
  mkVolume (mkVolumeConfig name "") (Some "{}") live (Some rt).

Definition pod (id : string) (live : bool) : Pod :=
  mkPod (mkPodConfig id) "{}" live (Some rt).

(** The row [ValidateDBConfig] writes for [rt] on [host]. *)
Definition config_row (graphRoot : string) : row :=
  [VInt 1; VInt 1; VText "linux";
   VText "/var/lib/containers/storage/libpod"; VText "/run/libpod";
   VText graphRoot; VText "/run/containers/storage"; VText "overlay";
   VText "/var/lib/containers/storage/volumes"].

End Example.

(** ** More of the small instance

    The two finalizing helpers, given the one effect of marking the handle
    valid, and stores for the pods, the dependencies and the exec
    sessions. *)
Module Cases.

#[export] Instance finalizers : Finalizers (L := Example.libpod) :=
  {| finalizePodSqlite := fun pod =>
       inr (mkPod (pod_config pod) (pod_state pod) true (pod_runtime pod));
     finalizeVolumeSqlite := fun volume =>
       inr (mkVolume (vol_config volume) (vol_state volume) true
              (vol_runtime volume)) |}.

(** Two pods whose IDs share the prefix p. *)
Definition pods : DB :=
  set_rows T_PodConfig
    [[VText "p100"; VText "web"; VText "p100"];
     [VText "p200"; VText "db"; VText "p200"]] empty_DB.

(** Three containers, the second and the third depending on the first;
    the first has two exec sessions, the second one. *)
Definition dependencies : DB :=
  set_rows T_ContainerConfig
    [Example.ctr_row "c1" "base"; Example.ctr_row "c2" "app";
     Example.ctr_row "c3" "cache"]
    (set_rows T_ContainerState
       [[VText "c1"; VText "running"]; [VText "c2"; VText "exited"];
        [VText "c3"; VNull]]
       (set_rows T_ContainerDependency
          [[VText "c2"; VText "c1"]; [VText "c3"; VText "c1"]]
          (set_rows T_ContainerExecSession
             [[VText "e1"; VText "c1"]; [VText "e2"; VText "c2"];
              [VText "e3"; VText "c1"]] empty_DB))).

(** A container on the bridge network. *)
Definition bridged (id : string) : Container :=
  mkContainer (L := Example.libpod) (mkContainerConfig id id "" true []) "{}"
    true (Some Example.rt).

(** A volume backed by a storage container, with no state yet. *)
Definition backed (name storageID : string) : Volume :=
  mkVolume (L := Example.libpod) (mkVolumeConfig name storageID) None true
    (Some Example.rt).

End Cases.

(** * Properties *)

(** ** What a call leaves alone *)

Section Stability.
Context {W : Type} {World_W : World W}.

Lemma stable_ret {X A} (f : Conn -> X) (a : A) : stable f (ret a).
Proof. intro w. reflexivity. Qed.

Lemma stable_throw {X A} (f : Conn -> X) (e : error) :
  stable f (throw e : M W A).
Proof. intro w. reflexivity. Qed.

Lemma stable_pure {X A} (f : Conn -> X) (r : error + A) : stable f (pure r).
Proof. intro w. reflexivity. Qed.

Lemma stable_unless {X} (f : Conn -> X) (b : bool) (e : error) :
  stable f (unless b e).
Proof. intro w. destruct b; reflexivity. Qed.

Lemma stable_get_state {X} (f : Conn -> X) : stable f get_state.
Proof. intro w. reflexivity. Qed.

Lemma stable_bind {X A B} (f : Conn -> X) (m : M W A) (k : A -> M W B) :
  stable f m -> (forall a, stable f (k a)) -> stable f (bind m k).
Proof.
  intros Hm Hk w. unfold bind. specialize (Hm w).
  destruct (m w) as [[e | a] w1]; simpl in *.
  - exact Hm.
  - rewrite (Hk a w1). exact Hm.
Qed.

Lemma stable_or_wrap {X A} (f : Conn -> X) fmt args (m : M W A) :
  stable f m -> stable f (or_wrap fmt args m).
Proof.
  intros Hm w. unfold or_wrap. specialize (Hm w).
  destruct (m w) as [[e | a] w1]; exact Hm.
Qed.

Lemma stable_for_each {X A B} (f : Conn -> X) (body : A -> B -> M W B) :
  (forall a b, stable f (body a b)) ->
  forall l acc, stable f (for_each l acc body).
Proof.
  intros Hb l. induction l as [| a l IH]; intro acc; simpl.
  - apply stable_ret.
  - apply stable_bind; [apply Hb | intro b; apply IH].
Qed.

Lemma stable_driver {X A} (f : Conn -> X)
  (call : Conn -> (sql_error + A) * Conn) :
  (forall c, f (snd (call c)) = f c) -> stable f (driver call).
Proof.
  intros Hc w. unfold driver. specialize (Hc (conn (the_state w))).
  destruct (call (conn (the_state w))) as [r c]. simpl in *.
  rewrite the_put. exact Hc.
Qed.

Lemma fails_clean_stable {A} (m : M W A) : stable store m -> fails_clean m.
Proof. intros Hm w e w' E. specialize (Hm w). rewrite E in Hm. exact Hm. Qed.

Lemma fails_clean_bind {A B} (m : M W A) (k : A -> M W B) :
  stable store m -> (forall a, fails_clean (k a)) -> fails_clean (bind m k).
Proof.
  intros Hm Hk w e w' E. unfold bind in E. specialize (Hm w).
  destruct (m w) as [[e1 | a] w1]; simpl in *.
  - inversion E; subst. exact Hm.
  - rewrite (Hk a w1 e w' E). exact Hm.
Qed.

Lemma fails_clean_or_wrap {A} fmt args (m : M W A) :
  fails_clean m -> fails_clean (or_wrap fmt args m).
Proof.
  intros Hm w e w' E. unfold or_wrap in E.
  destruct (m w) as [[e1 | a] w1] eqn:Em.
  - inversion E; subst. exact (Hm w e1 w' Em).
  - discriminate E.
Qed.

Lemma succeeds_closed_bind {A B} (m : M W A) (k : A -> M W B) :
  (forall a, succeeds_closed (k a)) -> succeeds_closed (bind m k).
Proof.
  intros Hk w b w' E. unfold bind in E.
  destruct (m w) as [[e1 | a] w1]; [discriminate E | exact (Hk a w1 b w' E)].
Qed.

Lemma succeeds_closed_or_wrap {A} fmt args (m : M W A) :
  succeeds_closed m -> succeeds_closed (or_wrap fmt args m).
Proof.
  intros Hm w a w' E. unfold or_wrap in E.
  destruct (m w) as [[e1 | a1] w1] eqn:Em; [discriminate E |].
  inversion E; subst. exact (Hm w a w' Em).
Qed.

(** The calls into the driver. *)

Lemma step_fault_store c : store (snd (step_fault c)) = store c.
Proof. unfold step_fault. destruct (faults c); reflexivity. Qed.

Lemma step_fault_pending c : pending (snd (step_fault c)) = pending c.
Proof. unfold step_fault. destruct (faults c); reflexivity. Qed.

Lemma Conn_Query_store q args c : store (snd (Conn_Query q args c)) = store c.
Proof.
  unfold Conn_Query. pose proof (step_fault_store (sent q c)) as Hs.
  destruct (step_fault (sent q c)) as [bad c1]. simpl in Hs.
  destruct bad; [exact Hs |].
  destruct (sql_prepare q) as [e | [st n]]; [exact Hs |].
  destruct (negb (n =? List.length args)%nat); exact Hs.
Qed.

Lemma Conn_Query_pending q args c :
  pending (snd (Conn_Query q args c)) = pending c.
Proof.
  unfold Conn_Query. pose proof (step_fault_pending (sent q c)) as Hs.
  destruct (step_fault (sent q c)) as [bad c1]. simpl in Hs.
  destruct bad; [exact Hs |].
  destruct (sql_prepare q) as [e | [st n]]; [exact Hs |].
  destruct (negb (n =? List.length args)%nat); exact Hs.
Qed.

Lemma Conn_Begin_store c : store (snd (Conn_Begin c)) = store c.
Proof.
  unfold Conn_Begin. pose proof (step_fault_store c) as Hs.
  destruct (step_fault c) as [bad c1]. simpl in Hs.
  destruct bad; exact Hs.
Qed.

Lemma Tx_Query_store q args c : store (snd (Tx_Query q args c)) = store c.
Proof.
  unfold Tx_Query. destruct (pending c) as [db |]; [| reflexivity].
  pose proof (step_fault_store (sent q c)) as Hs.
  destruct (step_fault (sent q c)) as [bad c1]. simpl in Hs.
  destruct bad; [exact Hs |].
  destruct (sql_prepare q) as [e | [st n]]; [exact Hs |].
  destruct (negb (n =? List.length args)%nat); exact Hs.
Qed.

Lemma Tx_Exec_store q args c : store (snd (Tx_Exec q args c)) = store c.
Proof.
  unfold Tx_Exec. destruct (pending c) as [db |]; [| reflexivity].
  pose proof (step_fault_store (sent q c)) as Hs.
  destruct (step_fault (sent q c)) as [bad c1]. simpl in Hs.
  destruct bad; [exact Hs |].
  destruct (sql_prepare q) as [e | [st n]]; [exact Hs |].
  destruct (negb (n =? List.length args)%nat); [exact Hs |].
  destruct (run_exec db st args) as [e | [db' k]]; exact Hs.
Qed.

Lemma Tx_Rollback_store c : store (snd (Tx_Rollback c)) = store c.
Proof. unfold Tx_Rollback. destruct (pending c); reflexivity. Qed.

Lemma Tx_Rollback_pending c : pending (snd (Tx_Rollback c)) = None.
Proof. unfold Tx_Rollback. destruct (pending c) eqn:E; [reflexivity | exact E]. Qed.

Lemma stable_conn_Query {X} (f : Conn -> X) q args :
  (forall c, f (snd (Conn_Query q args c)) = f c) ->
  stable f (conn_Query q args).
Proof. intro Hc. apply stable_driver. exact Hc. Qed.

Lemma stable_store_tx_Exec q args : stable store (tx_Exec q args).
Proof. apply stable_driver. apply Tx_Exec_store. Qed.

Lemma stable_store_tx_Query q args : stable store (tx_Query q args).
Proof. apply stable_driver. apply Tx_Query_store. Qed.

Lemma stable_store_conn_Begin : stable store conn_Begin.
Proof. apply stable_driver. apply Conn_Begin_store. Qed.

(** A commit that fails leaves the committed rows alone. *)
Lemma fails_clean_tx_Commit : fails_clean tx_Commit.
Proof.
  intros w e w' E. unfold tx_Commit, driver, Tx_Commit in E.
  destruct (pending (conn (the_state w))) as [db |].
  - pose proof (step_fault_store (conn (the_state w))) as Hs.
    destruct (step_fault (conn (the_state w))) as [bad c1]. simpl in Hs.
    destruct bad; inversion E; subst.
    rewrite the_put. exact Hs.
  - inversion E; subst. rewrite the_put. reflexivity.
Qed.

(** A commit that succeeds closes the transaction. *)
Lemma succeeds_closed_tx_Commit : succeeds_closed tx_Commit.
Proof.
  intros w a w' E. unfold tx_Commit, driver, Tx_Commit in E.
  destruct (pending (conn (the_state w))) as [db |].
  - destruct (step_fault (conn (the_state w))) as [bad c1].
    destruct bad; inversion E; subst.
    rewrite the_put. reflexivity.
  - inversion E.
Qed.

(** The deferred rollback keeps a failing method clean and closes the
    transaction it leaves. *)
Lemma fails_clean_defer_rollback {A} (rest : M W A) :
  fails_clean rest -> fails_clean (defer_rollback rest).
Proof.
  intros Hr w e w' E. unfold defer_rollback in E.
  destruct (rest w) as [[e1 | a] w1] eqn:Er; [| discriminate E].
  inversion E; subst.
  pose proof (stable_driver store Tx_Rollback Tx_Rollback_store w1) as Hs.
  unfold tx_Rollback. rewrite Hs. exact (Hr w e w1 Er).
Qed.

Lemma defer_rollback_closed {A} (rest : M W A) :
  succeeds_closed rest ->
  forall w, pending (conn (the_state (snd (defer_rollback rest w)))) = None.
Proof.
  intros Hr w. unfold defer_rollback.
  destruct (rest w) as [[e1 | a] w1] eqn:Er.
  - simpl. unfold tx_Rollback, driver.
    pose proof (Tx_Rollback_pending (conn (the_state w1))) as Hp.
    destruct (Tx_Rollback (conn (the_state w1))) as [r c]. simpl in *.
    rewrite the_put. exact Hp.
  - simpl. exact (Hr w a w1 Er).
Qed.

End Stability.

Section Closing.
Context {W : Type} {World_W : World W}.

Lemma ends_closed_stable {A} (m : M W A) : stable pending m -> ends_closed m.
Proof. intros Hm w Hw. rewrite (Hm w). exact Hw. Qed.

Lemma ends_closed_bind {A B} (m : M W A) (k : A -> M W B) :
  stable pending m -> (forall a, ends_closed (k a)) -> ends_closed (bind m k).
Proof.
  intros Hm Hk w Hw. unfold bind. specialize (Hm w).
  destruct (m w) as [[e | a] w1]; simpl in *.
  - rewrite Hm. exact Hw.
  - apply Hk. rewrite Hm. exact Hw.
Qed.

Lemma Conn_Begin_fails_pending c e c' :
  Conn_Begin c = (inl e, c') -> pending c' = pending c.
Proof.
  unfold Conn_Begin. pose proof (step_fault_pending c) as Hs.
  destruct (step_fault c) as [bad c1]. simpl in Hs.
  destruct bad; intro E; inversion E; subst. exact Hs.
Qed.

(** The shape of every writing method: begin, then the rest under the
    deferred rollback, the rest ending with the commit. *)
Lemma ends_closed_transaction {A} fmt args (rest : M W A) :
  succeeds_closed rest ->
  ends_closed (bind (or_wrap fmt args conn_Begin) (fun _ => defer_rollback rest)).
Proof.
  intros Hr w Hw. unfold bind, or_wrap, conn_Begin, driver.
  destruct (Conn_Begin (conn (the_state w))) as [[e | []] c] eqn:Eb; simpl.
  - rewrite the_put. simpl.
    rewrite (Conn_Begin_fails_pending _ Eb). exact Hw.
  - apply defer_rollback_closed. exact Hr.
Qed.

End Closing.

Ltac stable_step :=
  first
    [ apply stable_ret | apply stable_throw | apply stable_pure
    | apply stable_unless | apply stable_get_state
    | apply stable_store_tx_Exec | apply stable_store_tx_Query
    | apply stable_store_conn_Begin
    | apply stable_conn_Query; first [apply Conn_Query_store | apply Conn_Query_pending]
    | apply stable_or_wrap
    | apply stable_for_each; intros; cbv beta
    | apply stable_bind; [| intro]
    | match goal with
      | |- context [let '(_, _) := ?x in _] => is_var x; destruct x; cbv beta iota
      | |- stable _ (if ?b then _ else _) => destruct b
      end ].

Ltac stable_all := repeat stable_step.

Section MoreStability.
Context {H : Type}.

Lemma stable_get_handle {X} (f : Conn -> X) :
  stable f (get_handle : M (SQLiteState * H) H).
Proof. intro w. reflexivity. Qed.

Lemma stable_set_handle {X} (f : Conn -> X) (h : H) :
  stable f (set_handle h : M (SQLiteState * H) unit).
Proof. intro w. reflexivity. Qed.

End MoreStability.

Lemma stable_conn_QueryRow {W} `{World W} {X} (f : Conn -> X) q args :
  (forall c, f (snd (Conn_Query q args c)) = f c) ->
  stable f (conn_QueryRow q args).
Proof.
  intros Hc w. unfold conn_QueryRow.
  pose proof (stable_conn_Query f q args Hc w) as Hq.
  destruct (conn_Query q args w) as [[[e | e | m | fmt a e] | [| r rs]] w1];
    exact Hq.
Qed.

Ltac stable_more :=
  repeat first
    [ stable_step
    | apply stable_get_handle | apply stable_set_handle
    | apply stable_conn_QueryRow;
        first [apply Conn_Query_store | apply Conn_Query_pending]
    | match goal with
      | |- stable _ (match ?x with _ => _ end) => destruct x
      end ].

(** A writing method is the opening of a transaction followed by its body
    under the deferred rollback: it fails clean when its body does. *)
Ltac clean_prelude :=
  repeat (apply fails_clean_bind; [ solve [stable_more] | intro ]).

Ltac clean_body :=
  repeat first
    [ apply fails_clean_defer_rollback
    | apply fails_clean_or_wrap; apply fails_clean_tx_Commit
    | apply fails_clean_bind; [ solve [stable_more] | intro ]
    | apply fails_clean_stable; solve [stable_more]
    | match goal with
      | |- fails_clean (if ?b then _ else _) => destruct b
      | |- fails_clean (match ?x with _ => _ end) => destruct x
      end ].

Ltac closed_body :=
  repeat first
    [ apply succeeds_closed_or_wrap; apply succeeds_closed_tx_Commit
    | apply succeeds_closed_bind; intro
    | match goal with
      | |- succeeds_closed (if ?b then _ else _) => destruct b
      | |- succeeds_closed (throw _) =>
          let E := fresh in intros ? ? ? E; discriminate E
      end ].

Ltac closed_prelude :=
  repeat first
    [ apply ends_closed_transaction
    | apply ends_closed_bind; [ solve [stable_more] | intro ]
    | apply ends_closed_stable; solve [stable_more]
    | match goal with
      | |- ends_closed (if ?b then _ else _) => destruct b
      | |- ends_closed (match ?x with _ => _ end) => destruct x
      end ].

Section RefreshProperties.
Context {Hst : Host} {L : Libpod}.

Lemma stable_reset_row {X T} `{JSON T} (f : Conn -> X) what (new : T) reset r states :
  stable f (reset_row what new reset r states).
Proof. unfold reset_row. stable_all. Qed.

Lemma Refresh_fails_clean : fails_clean Refresh.
Proof.
  unfold Refresh.
  repeat (apply fails_clean_bind;
          [ solve [stable_all; apply stable_reset_row] | intro ]).
  apply fails_clean_defer_rollback.
  repeat (apply fails_clean_bind;
          [ solve [stable_all] | intro ]).
  apply fails_clean_or_wrap. apply fails_clean_tx_Commit.
Qed.

Lemma Refresh_ends_closed : ends_closed Refresh.
Proof.
  unfold Refresh.
  repeat (apply ends_closed_bind;
          [ solve [stable_all; apply stable_reset_row] | intro ]).
  apply ends_closed_transaction.
  repeat (apply succeeds_closed_bind; intro).
  apply succeeds_closed_or_wrap. apply succeeds_closed_tx_Commit.
Qed.

(** C3.  A Refresh that ends with an error, whatever the step that failed
    (a query, the decoding or encoding of a state, the opening of the
    transaction, an update, one of the two deletions or the commit), leaves
    the committed rows of every table exactly as they were, and leaves no
    transaction open. *)
Theorem Refresh_failure_rolls_back (s : SQLiteState) (e : error) (s' : SQLiteState) :
  Refresh s = (inl e, s') ->
  store (conn s') = store (conn s)
  /\ (pending (conn s) = None -> pending (conn s') = None).
Proof.
  intro E. split.
  - exact (Refresh_fails_clean s E).
  - intro Hp. pose proof (Refresh_ends_closed s Hp) as Hc.
    rewrite E in Hc. exact Hc.
Qed.

End RefreshProperties.

(** ** The statements, one by one

    What each statement of the modelled methods does when the driver does
    not fail.  Each lemma prepares the SQL text of the source and runs it
    on arbitrary rows. *)

Lemma Tx_Query_volume_users st db tr name :
  Tx_Query "SELECT ContainerID FROM ContainerVolume WHERE VolumeName=?;"
    [VText name] (mkConn st (Some db) [] tr)
  = (inr (map (fun r => [col 0 r])
              (filter (named 1 name) (ContainerVolume_rows db))),
     mkConn st (Some db) []
       ("SELECT ContainerID FROM ContainerVolume WHERE VolumeName=?;" :: tr)).
Proof. reflexivity. Qed.

Lemma Conn_Query_volume_users st pd tr name :
  Conn_Query "SELECT ContainerID FROM ContainerVolume WHERE VolumeName=?;"
    [VText name] (mkConn st pd [] tr)
  = (inr (map (fun r => [col 0 r])
              (filter (named 1 name) (ContainerVolume_rows st))),
     mkConn st pd []
       ("SELECT ContainerID FROM ContainerVolume WHERE VolumeName=?;" :: tr)).
Proof. reflexivity. Qed.

Lemma Tx_Exec_delete_VolumeConfig st db tr name :
  Tx_Exec "DELETE FROM VolumeConfig WHERE Name=?;" [VText name]
    (mkConn st (Some db) [] tr)
  = (inr (Z.of_nat (List.length (filter (named 0 name) (VolumeConfig_rows db)))),
     mkConn st
       (Some (set_rows T_VolumeConfig (without name (VolumeConfig_rows db)) db))
       [] ("DELETE FROM VolumeConfig WHERE Name=?;" :: tr)).
Proof. reflexivity. Qed.

Lemma Tx_Exec_delete_VolumeState st db tr name :
  Tx_Exec "DELETE FROM VolumeState WHERE Name=?;" [VText name]
    (mkConn st (Some db) [] tr)
  = (inr (Z.of_nat (List.length (filter (named 0 name) (VolumeState_rows db)))),
     mkConn st
       (Some (set_rows T_VolumeState (without name (VolumeState_rows db)) db))
       [] ("DELETE FROM VolumeState WHERE Name=?;" :: tr)).
Proof. reflexivity. Qed.

Lemma filter_all {A} (l : list A) : filter (fun _ => true) l = l.
Proof. induction l as [| a l IH]; simpl; [| rewrite IH]; reflexivity. Qed.

Lemma filter_none {A} (l : list A) : filter (fun _ => false) l = [].
Proof. induction l as [| a l IH]; simpl; [reflexivity | exact IH]. Qed.

Lemma Tx_Exec_update_ContainerState st db tr json id :
  Tx_Exec "UPDATE ContainerState SET JSON=? WHERE ID=?;" [VText json; VText id]
    (mkConn st (Some db) [] tr)
  = (inr (Z.of_nat (List.length (filter (named 0 id) (ContainerState_rows db)))),
     mkConn st
       (Some (set_rows T_ContainerState
                (with_json id json (ContainerState_rows db)) db))
       [] ("UPDATE ContainerState SET JSON=? WHERE ID=?;" :: tr)).
Proof. reflexivity. Qed.

(** The statement of Refresh and SaveVolume that starts with UPDATE TABLE
    is refused when it is prepared, whatever the connection. *)
Lemma Tx_Exec_update_table_refused q args c :
  sql_prepare q = inl (SyntaxError "TABLE") ->
  exists e, fst (Tx_Exec q args c) = inl e.
Proof.
  intro Hq. unfold Tx_Exec.
  destruct (pending c) as [db |]; [| eexists; reflexivity].
  destruct (step_fault (sent q c)) as [bad c1].
  destruct bad; [eexists; reflexivity |].
  rewrite Hq. eexists. reflexivity.
Qed.

Lemma prepare_update_table_ContainerState :
  sql_prepare "UPDATE TABLE ContainerState SET JSON=? WHERE ID=?;"
  = inl (SyntaxError "TABLE").
Proof. vm_compute. reflexivity. Qed.

Lemma prepare_update_table_PodState :
  sql_prepare "UPDATE TABLE PodState SET JSON=? WHERE ID=?;"
  = inl (SyntaxError "TABLE").
Proof. vm_compute. reflexivity. Qed.

Lemma prepare_update_table_VolumeState :
  sql_prepare "UPDATE TABLE VolumeState SET JSON=? WHERE Name=?;"
  = inl (SyntaxError "TABLE").
Proof. vm_compute. reflexivity. Qed.

Lemma Conn_Query_DBConfig st pd tr :
  Conn_Query
    "SELECT Os, StaticDir, TmpDir, GraphRoot, RunRoot, GraphDriver, VolumeDir FROM DBConfig;"
    [] (mkConn st pd [] tr)
  = (inr (map (fun r => [col 2 r; col 3 r; col 4 r; col 5 r; col 6 r;
                         col 7 r; col 8 r]) (DBConfig_rows st)),
     mkConn st pd []
       ("SELECT Os, StaticDir, TmpDir, GraphRoot, RunRoot, GraphDriver, VolumeDir FROM DBConfig;"
        :: tr)).
Proof.
  rewrite <- (filter_all (DBConfig_rows st)) at 1. reflexivity.
Qed.

Lemma Tx_Exec_createRow st db tr (v0 v1 v2 v3 v4 v5 v6 v7 v8 : value) :
  DBConfig_rows db = [] ->
  Tx_Exec createRow [v0; v1; v2; v3; v4; v5; v6; v7; v8]
    (mkConn st (Some db) [] tr)
  = (inr 1%Z,
     mkConn st
       (Some (set_rows T_DBConfig [[v0; v1; v2; v3; v4; v5; v6; v7; v8]] db))
       [] (createRow :: tr)).
Proof.
  intro H.
  change (Tx_Exec createRow [v0; v1; v2; v3; v4; v5; v6; v7; v8]
            (mkConn st (Some db) [] tr))
    with (match
             (if breaks_unique T_DBConfig (DBConfig_rows db)
                   [v0; v1; v2; v3; v4; v5; v6; v7; v8]
              then inl (UniqueConstraint "DBConfig")
              else inr (set_rows T_DBConfig
                          (DBConfig_rows db ++ [[v0; v1; v2; v3; v4; v5; v6; v7; v8]])
                          db, 1%Z))
           with
           | inl e => (inl e, mkConn st (Some db) [] (createRow :: tr))
           | inr (db', k) => (inr k, mkConn st (Some db') [] (createRow :: tr))
           end).
  rewrite H. reflexivity.
Qed.

Lemma Tx_Exec_insert_ContainerExitCode st db tr id now code :
  Tx_Exec "INSERT INTO ContainerExitCode VALUES (?, ?, ?);"
    [VText id; VInt now; VInt code] (mkConn st (Some db) [] tr)
  = (if existsb (named 0 id) (ContainerExitCode_rows db)
     then (inl (UniqueConstraint "ContainerExitCode"),
           mkConn st (Some db) []
             ("INSERT INTO ContainerExitCode VALUES (?, ?, ?);" :: tr))
     else (inr 1%Z,
           mkConn st
             (Some (set_rows T_ContainerExitCode
                      (ContainerExitCode_rows db ++ [[VText id; VInt now; VInt code]])
                      db))
             [] ("INSERT INTO ContainerExitCode VALUES (?, ?, ?);" :: tr))).
Proof.
  change (Tx_Exec "INSERT INTO ContainerExitCode VALUES (?, ?, ?);"
            [VText id; VInt now; VInt code] (mkConn st (Some db) [] tr))
    with (match
             (if existsb (fun r => value_eqb (VText id) (col 0 r) && true)
                   (ContainerExitCode_rows db) || false
              then inl (UniqueConstraint "ContainerExitCode")
              else inr (set_rows T_ContainerExitCode
                          (ContainerExitCode_rows db ++ [[VText id; VInt now; VInt code]])
                          db, 1%Z))
           with
           | inl e => (inl e, mkConn st (Some db) []
                                ("INSERT INTO ContainerExitCode VALUES (?, ?, ?);" :: tr))
           | inr (db', k) =>
               (inr k, mkConn st (Some db') []
                         ("INSERT INTO ContainerExitCode VALUES (?, ?, ?);" :: tr))
           end).
  rewrite orb_false_r.
  assert (E : existsb (fun r => value_eqb (VText id) (col 0 r) && true)
                (ContainerExitCode_rows db)
              = existsb (named 0 id) (ContainerExitCode_rows db)).
  { induction (ContainerExitCode_rows db) as [| r rs IH]; [reflexivity |].
    cbn [existsb]. f_equal; [| exact IH].
    rewrite andb_true_r. unfold named.
    destruct (col 0 r); simpl; try reflexivity.
    apply String.eqb_sym. }
  rewrite E. destruct (existsb (named 0 id) (ContainerExitCode_rows db)); reflexivity.
Qed.

Lemma Conn_Query_ExitCode st pd tr id :
  Conn_Query "SELECT ExitCode FROM ContainerExitCode WHERE ID=?;" [VText id]
    (mkConn st pd [] tr)
  = (inr (map (fun r => [col 2 r])
              (filter (named 0 id) (ContainerExitCode_rows st))),
     mkConn st pd []
       ("SELECT ExitCode FROM ContainerExitCode WHERE ID=?;" :: tr)).
Proof. reflexivity. Qed.

Lemma Conn_Query_Timestamp st pd tr id :
  Conn_Query "SELECT Timestamp FROM ContainerExitCode WHERE ID=?;" [VText id]
    (mkConn st pd [] tr)
  = (inr (map (fun r => [col 1 r])
              (filter (named 0 id) (ContainerExitCode_rows st))),
     mkConn st pd []
       ("SELECT Timestamp FROM ContainerExitCode WHERE ID=?;" :: tr)).
Proof. reflexivity. Qed.

Lemma Tx_Exec_prune st db tr (limit : Z) :
  Tx_Exec "DELETE FROM ContainerExitCode WHERE (Timestamp <= ?);" [VInt limit]
    (mkConn st (Some db) [] tr)
  = (inr (Z.of_nat (List.length
            (filter (fun r => value_leb (col 1 r) (VInt limit))
                    (ContainerExitCode_rows db)))),
     mkConn st
       (Some (set_rows T_ContainerExitCode
                (filter (fun r => negb (value_leb (col 1 r) (VInt limit)))
                        (ContainerExitCode_rows db)) db))
       [] ("DELETE FROM ContainerExitCode WHERE (Timestamp <= ?);" :: tr)).
Proof. reflexivity. Qed.

Lemma Conn_Query_states st pd tr (t : table) (q : string) :
  (t, q) = (T_ContainerState, "SELECT ID, JSON FROM ContainerState;")
  \/ (t, q) = (T_PodState, "SELECT ID, JSON FROM PodState;")
  \/ (t, q) = (T_VolumeState, "SELECT Name, JSON FROM VolumeState;") ->
  Conn_Query q [] (mkConn st pd [] tr)
  = (inr (map (fun r => [col 0 r; col 1 r]) (rows_of t st)),
     mkConn st pd [] (q :: tr)).
Proof.
  intros [H | [H | H]]; inversion H; subst;
    rewrite <- (filter_all (rows_of _ st)) at 1; reflexivity.
Qed.

Lemma Conn_Query_lookup_ID st pd tr term :
  Conn_Query
    "SELECT ID FROM ContainerConfig WHERE ContainerConfig.Name=? OR (ContainerConfig.ID LIKE ?);"
    [VText term; VText term] (mkConn st pd [] tr)
  = (inr (map (fun r => [col 0 r])
              (filter (looked_up term) (ContainerConfig_rows st))),
     mkConn st pd []
       ("SELECT ID FROM ContainerConfig WHERE ContainerConfig.Name=? OR (ContainerConfig.ID LIKE ?);"
        :: tr)).
Proof. reflexivity. Qed.

(** The same three statements under any fault schedule: when the query
    answers, it answers with one row per row of the table. *)
Lemma Conn_Query_states_length (t : table) (q : string) c rows c' :
  (t, q) = (T_ContainerState, "SELECT ID, JSON FROM ContainerState;")
  \/ (t, q) = (T_PodState, "SELECT ID, JSON FROM PodState;")
  \/ (t, q) = (T_VolumeState, "SELECT Name, JSON FROM VolumeState;") ->
  Conn_Query q [] c = (inr rows, c') ->
  List.length rows = List.length (rows_of t (store c)).
Proof.
  intros Htq E. unfold Conn_Query in E.
  pose proof (step_fault_store (sent q c)) as Hs.
  destruct (step_fault (sent q c)) as [bad c1]. simpl in Hs.
  destruct bad; [discriminate E |].
  assert (Hrun : match sql_prepare q with
                 | inl e => (inl e, c1)
                 | inr (st, n) =>
                     if negb (n =? 0)%nat then (inl BadArgs, c1)
                     else (run_query (store c1) st [], c1)
                 end
                 = (inr (map (fun r => [col 0 r; col 1 r])
                             (filter (fun _ => true) (rows_of t (store c1)))), c1)).
  { destruct Htq as [H | [H | H]]; inversion H; subst; reflexivity. }
  simpl in E. rewrite Hrun in E. inversion E; subst.
  rewrite length_map, filter_all, Hs. reflexivity.
Qed.

(** ** Loops *)

Lemma forallb_filter {A} (p q : A -> bool) (l : list A) :
  forallb p l = true -> forallb p (filter q l) = true.
Proof.
  induction l as [| a l IH]; simpl; [reflexivity |].
  intro H. apply andb_true_iff in H. destruct H as [Ha Hl].
  destruct (q a); simpl; [rewrite Ha |]; auto.
Qed.

Lemma for_each_gather {W} fmt args (rows : list row) (acc : list string) (w : W) :
  forallb (not_null 0) rows = true ->
  for_each (map (fun r => [col 0 r]) rows) acc
    (fun r acc => v <- or_wrap fmt args (pure (Scan_string r)) ;; ret (acc ++ [v])) w
  = (inr (acc ++ map (fun r => text_of (col 0 r)) rows), w).
Proof.
  revert acc. induction rows as [| r rows IH]; intros acc H; simpl.
  - rewrite app_nil_r. reflexivity.
  - simpl in H. apply andb_true_iff in H. destruct H as [Hr Hrows].
    unfold bind at 1. unfold or_wrap, pure, bind, ret.
    unfold not_null in Hr. unfold Scan_string, Scan_strings. simpl.
    destruct (col 0 r) as [| z | t]; [discriminate Hr | |]; simpl;
      rewrite IH by exact Hrows; rewrite <- app_assoc; reflexivity.
Qed.

Lemma gather_texts {W} fmt args (rows : list row) (w : W) :
  forallb (not_null 0) rows = true ->
  gather fmt args (map (fun r => [col 0 r]) rows) w
  = (inr (map (fun r => text_of (col 0 r)) rows), w).
Proof. intro H. unfold gather. rewrite for_each_gather by exact H. reflexivity. Qed.

(** From here on the statements run through the lemmas above only. *)
Opaque sql_prepare Conn_Query Tx_Query Tx_Exec.

Ltac go :=
  unfold bind, get_state, get_handle, set_handle, unless, throw, ret, pure,
    or_wrap, defer_rollback, conn_Begin, conn_QueryRow, conn_Query, tx_Query,
    tx_Exec, tx_Commit, tx_Rollback, driver;
  simpl.

Lemma value_eqb_eq (a b : value) : value_eqb a b = true -> a = b.
Proof.
  destruct a, b; simpl; try discriminate.
  - intro H. apply Z.eqb_eq in H. congruence.
  - intro H. apply String.eqb_eq in H. congruence.
Qed.

Lemma without_none (name : string) (rs : list row) :
  filter (named 0 name) rs = [] -> without name rs = rs.
Proof.
  unfold without. induction rs as [| r rs IH]; simpl; [reflexivity |].
  destruct (named 0 name r); simpl; [discriminate |].
  intro H. rewrite (IH H). reflexivity.
Qed.

Lemma set_rows_same (t : table) (db : DB) : set_rows t (rows_of t db) db = db.
Proof. destruct db, t; reflexivity. Qed.

Section VolumeProperties.
Context {L : Libpod}.

(** RemoveVolume on an open store whose driver does not fail: the whole
    run, from the usage edges found. *)
Lemma RemoveVolume_runs db pd tr rt (volume : Volume) :
  let name := Volume_Name volume in
  let users := volume_users db name in
  let q := "SELECT ContainerID FROM ContainerVolume WHERE VolumeName=?;" in
  forallb (not_null 0) (filter (named 1 name) (ContainerVolume_rows db)) = true ->
  RemoveVolume (mkSQLiteState true (mkConn db pd [] tr) rt, volume)
  = match users with
    | [] =>
        (inr tt,
         (mkSQLiteState true
            (mkConn
               (set_rows T_VolumeState (without name (VolumeState_rows db))
                  (set_rows T_VolumeConfig (without name (VolumeConfig_rows db)) db))
               None []
               ("DELETE FROM VolumeState WHERE Name=?;"
                :: "DELETE FROM VolumeConfig WHERE Name=?;" :: q :: tr)) rt,
          volume))
    | _ :: _ =>
        (inl (Errorf "volume %s is in use by containers %s: %w"
                [name; String.concat "," users] define.ErrVolumeBeingUsed),
         (mkSQLiteState true (mkConn db None [] (q :: tr)) rt, volume))
    end.
Proof.
  intros name users q Hg. subst name users q.
  unfold RemoveVolume. go.
  rewrite Tx_Query_volume_users. simpl.
  rewrite gather_texts by exact Hg.
  fold (volume_users db (Volume_Name volume)).
  destruct (volume_users db (Volume_Name volume)) as [| u us]; simpl.
  - rewrite Tx_Exec_delete_VolumeConfig. simpl.
    rewrite Tx_Exec_delete_VolumeState. simpl. reflexivity.
  - reflexivity.
Qed.

Lemma VolumeInUse_runs db pd tr rt (volume : Volume) :
  let name := Volume_Name volume in
  vol_valid volume = true ->
  forallb (not_null 0) (filter (named 1 name) (ContainerVolume_rows db)) = true ->
  fst (VolumeInUse (mkSQLiteState true (mkConn db pd [] tr) rt, volume))
  = inr (volume_users db name).
Proof.
  intros name Hl Hg. unfold VolumeInUse. go. rewrite Hl. simpl.
  rewrite Conn_Query_volume_users. simpl.
  rewrite gather_texts by exact Hg. reflexivity.
Qed.

(** The two deletions of RemoveVolume stand between one Begin and one
    Commit, under the deferred rollback. *)
Lemma RemoveVolume_fails_clean : fails_clean RemoveVolume.
Proof. unfold RemoveVolume, gather. clean_body. Qed.

Lemma RemoveVolume_ends_closed : ends_closed RemoveVolume.
Proof. unfold RemoveVolume, gather. closed_prelude; closed_body. Qed.

(** C6.  RemoveVolume works in one transaction: whatever the store and
    whatever calls of the driver fail, a RemoveVolume that returns an error
    has deleted nothing (so the config row is never gone without the state
    row), and a call started with no transaction open ends with none open.
    On an open store whose driver does not fail, with the usage edges
    naming their container: when some usage edge names the volume,
    RemoveVolume fails with ErrVolumeBeingUsed, the error lists the IDs of
    the containers using it (the list VolumeInUse returns for a live
    handle) and no row is deleted; when no usage edge names it, RemoveVolume
    succeeds and the committed rows are the former ones without the config
    rows and the state rows of that name, all other tables untouched.  In
    both cases no transaction is left open. *)
Theorem RemoveVolume_guard (s : SQLiteState) (volume : Volume) :
  let name := Volume_Name volume in
  let db := store (conn s) in
  let users := volume_users db name in
  let r := RemoveVolume (s, volume) in
  let s' := fst (snd r) in
  (forall e, fst r = inl e -> store (conn s') = db)
  /\ (pending (conn s) = None -> pending (conn s') = None)
  /\ (valid s = true ->
      faults (conn s) = [] ->
      forallb (not_null 0) (ContainerVolume_rows db) = true ->
      snd (snd r) = volume
      /\ pending (conn s') = None
      /\ (vol_valid volume = true -> fst (VolumeInUse (s, volume)) = inr users)
      /\ (users <> [] ->
          fst r = inl (Errorf "volume %s is in use by containers %s: %w"
                         [name; String.concat "," users]
                         define.ErrVolumeBeingUsed)
          /\ store (conn s') = db)
      /\ (users = [] ->
          fst r = inr tt
          /\ store (conn s')
             = set_rows T_VolumeState (without name (VolumeState_rows db))
                 (set_rows T_VolumeConfig (without name (VolumeConfig_rows db))
                    db))).
Proof.
  cbv zeta. split; [| split].
  { intros e E. destruct (RemoveVolume (s, volume)) as [r w'] eqn:Er.
    simpl in E. subst r. exact (RemoveVolume_fails_clean (s, volume) Er). }
  { exact (RemoveVolume_ends_closed (s, volume)). }
  destruct s as [v [db pd fl tr] rt]. simpl. intros Hv Hf Hn. subst v fl.
  assert (Hg : forallb (not_null 0)
                 (filter (named 1 (Volume_Name volume)) (ContainerVolume_rows db)) = true)
    by (apply forallb_filter; exact Hn).
  rewrite (RemoveVolume_runs db pd tr rt volume Hg).
  destruct (volume_users db (Volume_Name volume)) as [| u us] eqn:Eu; simpl.
  - split; [reflexivity |]. split; [reflexivity |].
    split; [intro Hl; rewrite (VolumeInUse_runs db pd tr rt volume Hl Hg); congruence |].
    split; [intro H; congruence | intros _; split; reflexivity].
  - split; [reflexivity |]. split; [reflexivity |].
    split; [intro Hl; rewrite (VolumeInUse_runs db pd tr rt volume Hl Hg); congruence |].
    split; [intros _; split; reflexivity | intro H; discriminate H].
Qed.

(** C10.  On an open store whose driver does not fail and whose state rows
    all belong to a config row (the foreign key of VolumeState): when no
    config row and no usage edge carry the name of the handle, RemoveVolume
    returns no error, and the committed rows and the handle are what they
    were. *)
Theorem RemoveVolume_of_missing_volume (s : SQLiteState) (volume : Volume) :
  let name := Volume_Name volume in
  let db := store (conn s) in
  valid s = true ->
  faults (conn s) = [] ->
  forallb (fun r => existsb (fun c => value_eqb (col 0 c) (col 0 r))
                      (VolumeConfig_rows db)) (VolumeState_rows db) = true ->
  filter (named 0 name) (VolumeConfig_rows db) = [] ->
  filter (named 1 name) (ContainerVolume_rows db) = [] ->
  let r := RemoveVolume (s, volume) in
  fst r = inr tt
  /\ store (conn (fst (snd r))) = db
  /\ snd (snd r) = volume.
Proof.
  destruct s as [v [db pd fl tr] rt]. simpl. intros Hv Hf Hfk Hc He. subst v fl.
  assert (Hg : forallb (not_null 0)
                 (filter (named 1 (Volume_Name volume)) (ContainerVolume_rows db)) = true)
    by (rewrite He; reflexivity).
  rewrite (RemoveVolume_runs db pd tr rt volume Hg).
  unfold volume_users. rewrite He. simpl.
  split; [reflexivity |]. split; [| reflexivity].
  assert (Hs : filter (named 0 (Volume_Name volume)) (VolumeState_rows db) = []).
  { destruct (filter (named 0 (Volume_Name volume)) (VolumeState_rows db))
      as [| r rs] eqn:Ef; [reflexivity | exfalso].
    assert (Hr : In r (filter (named 0 (Volume_Name volume)) (VolumeState_rows db)))
      by (rewrite Ef; left; reflexivity).
    apply filter_In in Hr. destruct Hr as [Hin Hnamed].
    rewrite forallb_forall in Hfk. specialize (Hfk r Hin).
    apply existsb_exists in Hfk. destruct Hfk as [c [Hcin Hceq]].
    apply value_eqb_eq in Hceq.
    assert (Hcn : In c (filter (named 0 (Volume_Name volume)) (VolumeConfig_rows db))).
    { apply filter_In. split; [exact Hcin |]. unfold named in *.
      rewrite Hceq. exact Hnamed. }
    rewrite Hc in Hcn. exact Hcn. }
  rewrite (without_none _ _ Hc), (without_none _ _ Hs).
  change (VolumeConfig_rows db) with (rows_of T_VolumeConfig db).
  rewrite set_rows_same.
  change (VolumeState_rows db) with (rows_of T_VolumeState db).
  rewrite set_rows_same. reflexivity.
Qed.

End VolumeProperties.

Section ContainerProperties.
Context {L : Libpod} {I : Internals}.

(** C7.  For a live container handle on an open store whose driver does
    not fail, SaveContainer sends the encoded state of the handle in an
    UPDATE of the state row of the container and looks at the number of
    rows affected.  With no row affected the handle is marked invalid, the
    call fails with ErrNoSuchCtr and the committed rows stay as they were;
    with one row affected the call succeeds, the handle stays live and the
    committed rows are the former ones with the JSON of that row replaced.
    Either way no transaction stays open. *)
Theorem SaveContainer_checks_rows_affected
  (s : SQLiteState) (ctr : Container) (stateJSON : string) :
  valid s = true ->
  ctr_valid ctr = true ->
  faults (conn s) = [] ->
  json_Marshal (state ctr) = inr stateJSON ->
  let id := Container_ID ctr in
  let db := store (conn s) in
  let affected := List.length (filter (named 0 id) (ContainerState_rows db)) in
  let r := SaveContainer (s, ctr) in
  let s' := fst (snd r) in
  let ctr' := snd (snd r) in
  pending (conn s') = None
  /\ (affected = 0%nat ->
      fst r = inl (Sentinel define.ErrNoSuchCtr)
      /\ ctr' = set_ctr_valid false ctr
      /\ store (conn s') = db)
  /\ (affected = 1%nat ->
      fst r = inr tt
      /\ ctr' = ctr
      /\ store (conn s')
         = set_rows T_ContainerState
             (with_json id stateJSON (ContainerState_rows db)) db).
Proof.
  destruct s as [v [db pd fl tr] rt]. simpl. intros Hv Hc Hf Hm. subst v fl.
  unfold SaveContainer. go. rewrite Hc. simpl. rewrite Hm. simpl.
  rewrite Tx_Exec_update_ContainerState. simpl.
  destruct (List.length (filter (named 0 (Container_ID ctr)) (ContainerState_rows db)))
    as [| n]; simpl.
  - split; [reflexivity |]. split.
    + intros _. repeat split; reflexivity.
    + intro H. discriminate H.
  - split; [reflexivity |]. split.
    + intro H. discriminate H.
    + intros _. repeat split; reflexivity.
Qed.

End ContainerProperties.

Section ExitCodeProperties.

Lemma scan_int_cases (bits : Z) (v : value) :
  scan_int bits v = inl ScanError \/ exists z, scan_int bits v = inr z.
Proof.
  destruct v as [| z | t]; simpl.
  - left. reflexivity.
  - destruct (in_bits bits z); [right; eexists |left]; reflexivity.
  - destruct (parse_int t) as [z |]; [| left; reflexivity].
    destruct (in_bits bits z); [right; eexists |left]; reflexivity.
Qed.

Lemma existsb_named_filter (id : string) (rs : list row) :
  existsb (named 0 id) rs = false -> filter (named 0 id) rs = [].
Proof.
  induction rs as [| r rs IH]; simpl; [reflexivity |].
  destruct (named 0 id r); simpl; [discriminate | exact IH].
Qed.

Lemma filter_named_existsb (id : string) (rs : list row) :
  filter (named 0 id) rs = [] -> existsb (named 0 id) rs = false.
Proof.
  induction rs as [| r rs IH]; simpl; [reflexivity |].
  destruct (named 0 id r); simpl; [discriminate | exact IH].
Qed.

(** AddContainerExitCode on an open store whose driver does not fail. *)
Lemma AddContainerExitCode_runs db pd tr rt now id code :
  String.eqb id "" = false ->
  AddContainerExitCode now id code (mkSQLiteState true (mkConn db pd [] tr) rt)
  = if existsb (named 0 id) (ContainerExitCode_rows db)
    then (inl (Errorf "adding container %s exit code: %w" [id]
                 (SqlError (UniqueConstraint "ContainerExitCode"))),
          mkSQLiteState true
            (mkConn db None []
               ("INSERT INTO ContainerExitCode VALUES (?, ?, ?);" :: tr)) rt)
    else (inr tt,
          mkSQLiteState true
            (mkConn
               (set_rows T_ContainerExitCode
                  (ContainerExitCode_rows db ++ [[VText id; VInt now; VInt code]])
                  db)
               None []
               ("INSERT INTO ContainerExitCode VALUES (?, ?, ?);" :: tr)) rt).
Proof.
  intro Hid. unfold AddContainerExitCode. go.
  assert (Hl : (String.length id =? 0)%nat = false)
    by (destruct id; [discriminate Hid | reflexivity]).
  rewrite Hl. simpl.
  rewrite Tx_Exec_insert_ContainerExitCode.
  destruct (existsb (named 0 id) (ContainerExitCode_rows db)); reflexivity.
Qed.

Lemma GetContainerExitCode_runs db pd tr rt id :
  String.eqb id "" = false ->
  fst (GetContainerExitCode id (mkSQLiteState true (mkConn db pd [] tr) rt))
  = match filter (named 0 id) (ContainerExitCode_rows db) with
    | [] => inl (Errorf "getting exit code of container %s from DB: %w" [id]
                   define.ErrNoSuchExitCode)
    | r :: _ =>
        match scan_int 32 (col 2 r) with
        | inl _ => inl (Errorf "scanning exit code of container %s: %w" [id]
                          (SqlError ScanError))
        | inr exitCode => inr exitCode
        end
    end.
Proof.
  intro Hid. unfold GetContainerExitCode. go.
  assert (Hl : (String.length id =? 0)%nat = false)
    by (destruct id; [discriminate Hid | reflexivity]).
  rewrite Hl. simpl.
  rewrite Conn_Query_ExitCode.
  destruct (filter (named 0 id) (ContainerExitCode_rows db)) as [| r rs]; simpl.
  - reflexivity.
  - destruct (scan_int_cases 32 (col 2 r)) as [E | [z E]]; rewrite E; reflexivity.
Qed.

Lemma GetContainerExitCodeTimeStamp_runs db pd tr rt id :
  String.eqb id "" = false ->
  fst (GetContainerExitCodeTimeStamp id
         (mkSQLiteState true (mkConn db pd [] tr) rt))
  = match filter (named 0 id) (ContainerExitCode_rows db) with
    | [] => inl (Errorf "getting timestamp for exit code of container %s from DB: %w"
                   [id] define.ErrNoSuchExitCode)
    | r :: _ =>
        match scan_int 64 (col 1 r) with
        | inl _ => inl (Errorf "scanning exit timestamp of container %s: %w" [id]
                          (SqlError ScanError))
        | inr timestamp => inr timestamp
        end
    end.
Proof.
  intro Hid. unfold GetContainerExitCodeTimeStamp. go.
  assert (Hl : (String.length id =? 0)%nat = false)
    by (destruct id; [discriminate Hid | reflexivity]).
  rewrite Hl. simpl.
  rewrite Conn_Query_Timestamp.
  destruct (filter (named 0 id) (ContainerExitCode_rows db)) as [| r rs]; simpl.
  - reflexivity.
  - destruct (scan_int_cases 64 (col 1 r)) as [E | [z E]]; rewrite E; reflexivity.
Qed.

Lemma PruneContainerExitCodes_runs db pd tr rt now :
  PruneContainerExitCodes now (mkSQLiteState true (mkConn db pd [] tr) rt)
  = (inr tt,
     mkSQLiteState true
       (mkConn
          (set_rows T_ContainerExitCode
             (filter (fun r => negb (expired now r)) (ContainerExitCode_rows db))
             db)
          None []
          ("DELETE FROM ContainerExitCode WHERE (Timestamp <= ?);" :: tr)) rt).
Proof.
  unfold PruneContainerExitCodes. go. rewrite Tx_Exec_prune. reflexivity.
Qed.

(** C9 (amended).  On an open store whose driver does not fail, for a
    container ID (not empty), an exit code that fits 32 bits and a clock
    that fits 64:
    (1) when no record exists for the ID, both getters fail with
    ErrNoSuchExitCode and AddContainerExitCode succeeds;
    (2) whenever AddContainerExitCode succeeds, the table is the former one
    followed by (id, now, code), and on the store it leaves
    GetContainerExitCode returns the code and
    GetContainerExitCodeTimeStamp returns now;
    (3) PruneContainerExitCodes at time [now] succeeds, removes exactly the
    rows whose timestamp is at most now - 300 seconds, keeps the others in
    their order, and touches no other table. *)
Theorem exit_code_bookkeeping (s : SQLiteState) (now : Z) (id : string) (code : Z) :
  valid s = true ->
  faults (conn s) = [] ->
  String.eqb id "" = false ->
  in_bits 32 code = true ->
  in_bits 64 now = true ->
  let db := store (conn s) in
  let rows := ContainerExitCode_rows db in
  (filter (named 0 id) rows = [] ->
     (exists e, fst (GetContainerExitCode id s) = inl e
                /\ errors_Is e define.ErrNoSuchExitCode = true)
     /\ (exists e, fst (GetContainerExitCodeTimeStamp id s) = inl e
                   /\ errors_Is e define.ErrNoSuchExitCode = true)
     /\ fst (AddContainerExitCode now id code s) = inr tt)
  /\ (forall s1, AddContainerExitCode now id code s = (inr tt, s1) ->
        store (conn s1)
          = set_rows T_ContainerExitCode
              (rows ++ [[VText id; VInt now; VInt code]]) db
        /\ fst (GetContainerExitCode id s1) = inr code
        /\ fst (GetContainerExitCodeTimeStamp id s1) = inr now)
  /\ (let r := PruneContainerExitCodes now s in
      fst r = inr tt
      /\ store (conn (snd r))
         = set_rows T_ContainerExitCode
             (filter (fun r => negb (expired now r)) rows) db
      /\ (forall i t c, expired now [VText i; VInt t; VInt c] = true
                        <-> (t <= now - 300)%Z)).
Proof.
  destruct s as [v [db pd fl tr] rt]. simpl.
  intros Hv Hf Hid Hcode Hnow. subst v fl.
  split; [| split].
  - intro Hnone. split; [| split].
    + rewrite GetContainerExitCode_runs by exact Hid. rewrite Hnone.
      eexists. split; reflexivity.
    + rewrite GetContainerExitCodeTimeStamp_runs by exact Hid. rewrite Hnone.
      eexists. split; reflexivity.
    + rewrite AddContainerExitCode_runs by exact Hid.
      rewrite (filter_named_existsb _ _ Hnone). reflexivity.
  - intros s1. rewrite AddContainerExitCode_runs by exact Hid.
    destruct (existsb (named 0 id) (ContainerExitCode_rows db)) eqn:Ex;
      intro E; inversion E; subst; clear E.
    simpl. split; [reflexivity |].
    assert (Hsel : filter (named 0 id)
                     (ContainerExitCode_rows db ++ [[VText id; VInt now; VInt code]])
                   = [[VText id; VInt now; VInt code]]).
    { rewrite filter_app, (existsb_named_filter _ _ Ex). simpl.
      unfold named. simpl. rewrite String.eqb_refl. reflexivity. }
    split.
    + rewrite GetContainerExitCode_runs by exact Hid. simpl.
      rewrite Hsel. simpl. rewrite Hcode. reflexivity.
    + rewrite GetContainerExitCodeTimeStamp_runs by exact Hid. simpl.
      rewrite Hsel. simpl. rewrite Hnow. reflexivity.
  - rewrite PruneContainerExitCodes_runs. simpl.
    split; [reflexivity |]. split; [reflexivity |].
    intros i t c. unfold expired. simpl. rewrite Z.leb_le.
    replace (now - 5 * 60)%Z with (now - 300)%Z by lia. reflexivity.
Qed.

End ExitCodeProperties.

Section ConfigProperties.
Context {Hst : Host}.

(** The seven checks in a row: the first field that differs decides. *)
Lemma checkField_chain {W} (s0 s1 s2 s3 s4 s5 s6 l0 l1 l2 l3 l4 l5 l6 : string)
  (w : W) :
  let stored := [s0; s1; s2; s3; s4; s5; s6] in
  let live := [l0; l1; l2; l3; l4; l5; l6] in
  let run :=
    (pure (checkField "os" s0 l0) ;;
     pure (checkField "static dir" s1 l1) ;;
     pure (checkField "tmp dir" s2 l2) ;;
     pure (checkField "graph root" s3 l3) ;;
     pure (checkField "run root" s4 l4) ;;
     pure (checkField "graph driver" s5 l5) ;;
     pure (checkField "volume path" s6 l6)) w in
  snd run = w
  /\ (stored = live -> fst run = inr tt)
  /\ (stored <> live ->
      exists k, (k < 7)%nat
        /\ nth k stored "" <> nth k live ""
        /\ (forall j, (j < k)%nat -> nth j stored "" = nth j live "")
        /\ fst run
           = inl (Errorf "database %s %q does not match our %s %q: %w"
                    [nth k field_names ""; nth k stored "";
                     nth k field_names ""; nth k live ""]
                    define.ErrDBBadConfig)).
Proof.
  intros stored live run. subst stored live run.
  unfold bind, pure, checkField.
  destruct (String.eqb_spec s0 l0) as [E0 | N0]; simpl;
    [| split; [reflexivity |]; split; [intro H; congruence |];
       intros _; exists 0%nat; repeat split; [lia | exact N0 | lia]].
  destruct (String.eqb_spec s1 l1) as [E1 | N1]; simpl;
    [| split; [reflexivity |]; split; [intro H; congruence |];
       intros _; exists 1%nat; repeat split; [lia | exact N1 |];
       intros [| j] Hj; [exact E0 | lia]].
  destruct (String.eqb_spec s2 l2) as [E2 | N2]; simpl;
    [| split; [reflexivity |]; split; [intro H; congruence |];
       intros _; exists 2%nat; repeat split; [lia | exact N2 |];
       intros [| [| j]] Hj; [exact E0 | exact E1 | lia]].
  destruct (String.eqb_spec s3 l3) as [E3 | N3]; simpl;
    [| split; [reflexivity |]; split; [intro H; congruence |];
       intros _; exists 3%nat; repeat split; [lia | exact N3 |];
       intros [| [| [| j]]] Hj; [exact E0 | exact E1 | exact E2 | lia]].
  destruct (String.eqb_spec s4 l4) as [E4 | N4]; simpl;
    [| split; [reflexivity |]; split; [intro H; congruence |];
       intros _; exists 4%nat; repeat split; [lia | exact N4 |];
       intros [| [| [| [| j]]]] Hj;
       [exact E0 | exact E1 | exact E2 | exact E3 | lia]].
  destruct (String.eqb_spec s5 l5) as [E5 | N5]; simpl;
    [| split; [reflexivity |]; split; [intro H; congruence |];
       intros _; exists 5%nat; repeat split; [lia | exact N5 |];
       intros [| [| [| [| [| j]]]]] Hj;
       [exact E0 | exact E1 | exact E2 | exact E3 | exact E4 | lia]].
  destruct (String.eqb_spec s6 l6) as [E6 | N6]; simpl;
    [| split; [reflexivity |]; split; [intro H; congruence |];
       intros _; exists 6%nat; repeat split; [lia | exact N6 |];
       intros [| [| [| [| [| [| j]]]]]] Hj;
       [exact E0 | exact E1 | exact E2 | exact E3 | exact E4 | exact E5 | lia]].
  split; [reflexivity |]. split; [reflexivity |].
  intro H. exfalso. apply H. congruence.
Qed.

Lemma runtime_values_length s opts : List.length (runtime_values s opts) = 7%nat.
Proof. reflexivity. Qed.

Opaque runtime_values.

(** ValidateDBConfig on an open store whose driver does not fail, in
    terms of [runtime_values]. *)
Lemma ValidateDBConfig_compares
  (s : SQLiteState) (given : Runtime) (opts : StoreOptions) :
  valid s = true ->
  faults (conn s) = [] ->
  DefaultStoreOptions IsRootless GetRootlessUID = inr opts ->
  let db := store (conn s) in
  let live := runtime_values s opts in
  let r := ValidateDBConfig given s in
  (DBConfig_rows db = [] ->
     fst r = inr tt
     /\ store (conn (snd r))
        = set_rows T_DBConfig
            [VInt 1 :: VInt schemaVersion :: map VText live] db)
  /\ (forall (a b : value) (stored : list string) (rest : list row),
        List.length stored = 7%nat ->
        DBConfig_rows db = (a :: b :: map VText stored) :: rest ->
        store (conn (snd r)) = db
        /\ (stored = live -> fst r = inr tt)
        /\ (stored <> live ->
            exists k, (k < 7)%nat
              /\ nth k stored "" <> nth k live ""
              /\ (forall j, (j < k)%nat -> nth j stored "" = nth j live "")
              /\ fst r
                 = inl (Errorf "database %s %q does not match our %s %q: %w"
                          [nth k field_names ""; nth k stored "";
                           nth k field_names ""; nth k live ""]
                          define.ErrDBBadConfig))
        /\ (nth 0 stored "" = nth 0 live "" ->
            nth 1 stored "" = nth 1 live "" ->
            nth 2 stored "" = nth 2 live "" ->
            nth 3 stored "" <> nth 3 live "" ->
            fst r = inl (Errorf "database %s %q does not match our %s %q: %w"
                           ["graph root"; nth 3 stored ""; "graph root";
                            nth 3 live ""]
                           define.ErrDBBadConfig))).
Proof.
  destruct s as [v [db pd fl tr] rt]. simpl. intros Hv Hf Ho. subst v fl.
  pose proof (runtime_values_length (mkSQLiteState true (mkConn db pd [] tr) rt) opts)
    as Hlen.
  unfold ValidateDBConfig. go. rewrite Ho. simpl.
  remember (runtime_values (mkSQLiteState true (mkConn db pd [] tr) rt) opts)
    as live eqn:El.
  destruct live as [| l0 [| l1 [| l2 [| l3 [| l4 [| l5 [| l6 [| l7 live]]]]]]]];
    try discriminate Hlen.
  clear Hlen El.
  simpl. rewrite Conn_Query_DBConfig.
  split.
  - intro Hrows. rewrite Hrows. simpl.
    rewrite Tx_Exec_createRow by exact Hrows. simpl.
    split; reflexivity.
  - intros a b stored rest Hlen Hrows. rewrite Hrows.
    destruct stored as [| s0 [| s1 [| s2 [| s3 [| s4 [| s5 [| s6 [| s7 stored]]]]]]]];
      try discriminate Hlen.
    clear Hlen. simpl.
    pose proof (checkField_chain s0 s1 s2 s3 s4 s5 s6 l0 l1 l2 l3 l4 l5 l6
                  (with_conn
                     (mkConn db pd []
                        ("SELECT Os, StaticDir, TmpDir, GraphRoot, RunRoot, GraphDriver, VolumeDir FROM DBConfig;"
                         :: tr))
                     (mkSQLiteState true (mkConn db pd [] tr) rt))) as Hchain.
    cbv zeta in Hchain. unfold bind, pure in Hchain.
    destruct Hchain as [Hw [Heq Hne]].
    apply (f_equal (fun w => store (conn w))) in Hw. simpl in Hw.
    split; [exact Hw |].
    split; [exact Heq |]. split; [exact Hne |].
    intros E0 E1 E2 N3. simpl in E0, E1, E2, N3.
    destruct Hne as [k [Hk [Nk [Hj Hr]]]].
    { intro H. apply N3. congruence. }
    destruct k as [| [| [| [| k]]]].
    + exfalso. apply Nk. exact E0.
    + exfalso. apply Nk. exact E1.
    + exfalso. apply Nk. exact E2.
    + exact Hr.
    + exfalso. apply N3. apply (Hj 3%nat). lia.
Qed.

Transparent runtime_values.

(** The one INSERT of ValidateDBConfig stands between one Begin and one
    Commit, under the deferred rollback. *)
Lemma ValidateDBConfig_fails_clean given : fails_clean (ValidateDBConfig given).
Proof. unfold ValidateDBConfig. clean_body. Qed.

Lemma ValidateDBConfig_ends_closed given : ends_closed (ValidateDBConfig given).
Proof. unfold ValidateDBConfig. closed_prelude; closed_body. Qed.

(** C8.  The live values are, in the order of the columns: GOOS; the
    cleaned static dir and tmp dir of the runtime of the state object; its
    cleaned graph root and run root, or the one of the storage defaults
    should the cleaned path be empty; its graph driver, or the default
    driver when it is empty; its cleaned volume path.
    Whatever the store and whatever calls of the driver fail, a
    ValidateDBConfig that returns an error has changed no row, and a call
    started with no transaction open ends with none open: the row is
    written in one transaction.
    On an open store whose driver does not fail, the storage defaults
    being available:
    (1) with no DBConfig row, ValidateDBConfig succeeds and the committed
    rows are the former ones with the one row (1, schema version, os,
    static dir, tmp dir, graph root, run root, graph driver, volume path)
    of the live values;
    (2) with a row whose seven fields are texts, no row changes; the call
    succeeds when the seven stored fields equal the live ones; otherwise it
    fails with ErrDBBadConfig, and the error carries the name, the stored
    value and the live value of the first field that differs;
    (3) in particular, when os, static dir and tmp dir agree and the graph
    root differs, the error names graph root. *)
Theorem ValidateDBConfig_records_then_compares
  (s : SQLiteState) (given : Runtime) (opts : StoreOptions) :
  let db := store (conn s) in
  let graphRoot := filepath_Clean (GraphRoot (StorageConfig (runtime s))) in
  let runRoot := filepath_Clean (RunRoot (StorageConfig (runtime s))) in
  let graphDriver := GraphDriverName (StorageConfig (runtime s)) in
  let live :=
    [GOOS;
     filepath_Clean (StaticDir (runtime s));
     filepath_Clean (TmpDir (runtime s));
     if String.eqb graphRoot "" then GraphRoot opts else graphRoot;
     if String.eqb runRoot "" then RunRoot opts else runRoot;
     if String.eqb graphDriver "" then GraphDriverName opts else graphDriver;
     filepath_Clean (VolumePath (runtime s))] in
  let r := ValidateDBConfig given s in
  (forall e, fst r = inl e -> store (conn (snd r)) = db)
  /\ (pending (conn s) = None -> pending (conn (snd r)) = None)
  /\ (valid s = true ->
      faults (conn s) = [] ->
      DefaultStoreOptions IsRootless GetRootlessUID = inr opts ->
      (DBConfig_rows db = [] ->
         fst r = inr tt
         /\ store (conn (snd r))
            = set_rows T_DBConfig
                [VInt 1 :: VInt schemaVersion :: map VText live] db)
      /\ (forall (a b : value) (stored : list string) (rest : list row),
            List.length stored = 7%nat ->
            DBConfig_rows db = (a :: b :: map VText stored) :: rest ->
            store (conn (snd r)) = db
            /\ (stored = live -> fst r = inr tt)
            /\ (stored <> live ->
                exists k, (k < 7)%nat
                  /\ nth k stored "" <> nth k live ""
                  /\ (forall j, (j < k)%nat -> nth j stored "" = nth j live "")
                  /\ fst r
                     = inl (Errorf "database %s %q does not match our %s %q: %w"
                              [nth k field_names ""; nth k stored "";
                               nth k field_names ""; nth k live ""]
                              define.ErrDBBadConfig))
            /\ (nth 0 stored "" = nth 0 live "" ->
                nth 1 stored "" = nth 1 live "" ->
                nth 2 stored "" = nth 2 live "" ->
                nth 3 stored "" <> nth 3 live "" ->
                fst r = inl (Errorf "database %s %q does not match our %s %q: %w"
                               ["graph root"; nth 3 stored ""; "graph root";
                                nth 3 live ""]
                               define.ErrDBBadConfig)))).
Proof.
  cbv zeta. split; [| split].
  - intros e E. destruct (ValidateDBConfig given s) as [r s'] eqn:Er.
    simpl in E. subst r. exact (@ValidateDBConfig_fails_clean given s e s' Er).
  - exact (ValidateDBConfig_ends_closed given s).
  - intros Hv Hf Ho. exact (ValidateDBConfig_compares s given Hv Hf Ho).
Qed.

End ConfigProperties.

Section HandleProperties.
Context {L : Libpod} {I : Internals}.

(** C4 (amended).  For a container whose config names a pod, on an open
    store: AddContainer, given a live handle, fails with ErrInvalidArg;
    RemoveContainer, whatever the flag of the handle, fails with
    ErrPodExists, which is not ErrInvalidArg.  Neither reaches the driver:
    the state object (rows, statements sent) and the handle are what they
    were. *)
Theorem pod_container_refused (s : SQLiteState) (ctr : Container) :
  valid s = true ->
  String.eqb (cfg_Pod (config ctr)) "" = false ->
  (ctr_valid ctr = true ->
   exists e, AddContainer (s, ctr) = (inl e, (s, ctr))
             /\ errors_Is e define.ErrInvalidArg = true)
  /\ (exists e, RemoveContainer (s, ctr) = (inl e, (s, ctr))
                /\ errors_Is e define.ErrPodExists = true
                /\ errors_Is e define.ErrInvalidArg = false).
Proof.
  intros Hs Hp. split.
  - intro Hc. eexists. split.
    + unfold AddContainer. go. rewrite Hs. simpl. rewrite Hc. simpl.
      rewrite Hp. simpl. reflexivity.
    + reflexivity.
  - eexists. split; [| split].
    + unfold RemoveContainer. go. rewrite Hs. simpl. rewrite Hp. simpl.
      reflexivity.
    + reflexivity.
    + reflexivity.
Qed.

Ltac flag_test Hs Hh :=
  go; rewrite Hs; simpl; rewrite ?Hh; simpl; try reflexivity.

(** C5 (amended).  On an open store, every method of this file that tests
    the flag of the handle it is given returns at once when the flag says
    Invalidated: the container methods with ErrCtrRemoved, the pod methods
    with ErrPodRemoved, the volume methods with ErrVolumeRemoved.  The
    state object is returned as it was, so no statement was sent and no
    driver call made, and the handle is unchanged.  The list is the one
    below; RemoveVolume and RemoveContainer are not in it. *)
Theorem invalidated_handle_fails_fast (s : SQLiteState) :
  valid s = true ->
  (forall ctr : Container, ctr_valid ctr = false ->
     let gone {A} : (error + A) * (SQLiteState * Container) :=
       (inl (Sentinel define.ErrCtrRemoved), (s, ctr)) in
     AddContainer (s, ctr) = gone
     /\ UpdateContainer (s, ctr) = gone
     /\ SaveContainer (s, ctr) = gone
     /\ ContainerInUse (s, ctr) = gone
     /\ GetNetworks (s, ctr) = gone
     /\ (forall session, AddExecSession session (s, ctr) = gone)
     /\ GetContainerExecSessions (s, ctr) = gone
     /\ RemoveContainerExecSessions (s, ctr) = gone
     /\ (forall newCfg, RewriteContainerConfig newCfg (s, ctr) = gone)
     /\ (forall oldName newName newCfg,
           SafeRewriteContainerConfig oldName newName newCfg (s, ctr) = gone)
     /\ (forall pod : Pod, pod_valid pod = true ->
           AddContainerToPod (s, (pod, ctr))
           = (inl (Sentinel define.ErrCtrRemoved), (s, (pod, ctr)))))
  /\ (forall pod : Pod, pod_valid pod = false ->
        let gone {A} : (error + A) * (SQLiteState * Pod) :=
          (inl (Sentinel define.ErrPodRemoved), (s, pod)) in
        (forall newCfg, RewritePodConfig newCfg (s, pod) = gone)
        /\ (forall id, String.eqb id "" = false ->
              PodHasContainer id (s, pod) = gone)
        /\ PodContainersByID (s, pod) = gone
        /\ PodContainers (s, pod) = gone
        /\ AddPod (s, pod) = gone
        /\ RemovePod (s, pod) = gone
        /\ RemovePodContainers (s, pod) = gone
        /\ UpdatePod (s, pod) = gone
        /\ SavePod (s, pod) = gone
        /\ (forall ctr : Container,
              AddContainerToPod (s, (pod, ctr))
              = (inl (Sentinel define.ErrPodRemoved), (s, (pod, ctr)))
              /\ RemoveContainerFromPod (s, (pod, ctr))
                 = (inl (Sentinel define.ErrPodRemoved), (s, (pod, ctr)))))
  /\ (forall volume : Volume, vol_valid volume = false ->
        let gone {A} : (error + A) * (SQLiteState * Volume) :=
          (inl (Sentinel define.ErrVolumeRemoved), (s, volume)) in
        (forall newCfg, RewriteVolumeConfig newCfg (s, volume) = gone)
        /\ AddVolume (s, volume) = gone
        /\ UpdateVolume (s, volume) = gone
        /\ SaveVolume (s, volume) = gone
        /\ VolumeInUse (s, volume) = gone).
Proof.
  intro Hs. split; [| split].
  - intros ctr Hc gone. subst gone.
    repeat split; intros;
      try (unfold AddContainer, UpdateContainer, SaveContainer, ContainerInUse,
             GetNetworks, AddExecSession, GetContainerExecSessions,
             RemoveContainerExecSessions, RewriteContainerConfig,
             SafeRewriteContainerConfig; flag_test Hs Hc).
    unfold AddContainerToPod. go. rewrite Hs. simpl.
    match goal with H : pod_valid _ = true |- _ => rewrite H end. simpl.
    rewrite Hc. reflexivity.
  - intros pod Hp gone. subst gone.
    repeat split; intros;
      try (unfold RewritePodConfig, PodContainersByID, PodContainers, AddPod,
             RemovePod, RemovePodContainers, UpdatePod, SavePod, pod_stub,
             AddContainerToPod, RemoveContainerFromPod;
           flag_test Hs Hp).
    unfold PodHasContainer, pod_stub. go.
    match goal with H : String.eqb _ _ = false |- _ => rewrite H end. simpl.
    rewrite Hs. simpl. rewrite Hp. reflexivity.
  - intros volume Hv gone. subst gone.
    repeat split; intros;
      unfold RewriteVolumeConfig, AddVolume, UpdateVolume, SaveVolume,
        VolumeInUse; flag_test Hs Hv.
Qed.

End HandleProperties.

(** ** Calls that end without error *)

Lemma bind_inr {W A B} (m : M W A) (k : A -> M W B) w b w' :
  bind m k w = (inr b, w') ->
  exists a w1, m w = (inr a, w1) /\ k a w1 = (inr b, w').
Proof.
  unfold bind. destruct (m w) as [[e | a] w1]; intro E; [discriminate E |].
  exists a, w1. split; [reflexivity | exact E].
Qed.

Lemma or_wrap_inr {W A} fmt args (m : M W A) w a w' :
  or_wrap fmt args m w = (inr a, w') -> m w = (inr a, w').
Proof.
  unfold or_wrap. destruct (m w) as [[e | a1] w1]; intro E;
    [discriminate E | exact E].
Qed.

Lemma defer_rollback_inr {W} `{World W} {A} (rest : M W A) w a w' :
  defer_rollback rest w = (inr a, w') -> rest w = (inr a, w').
Proof.
  unfold defer_rollback. destruct (rest w) as [[e | a1] w1]; intro E;
    [discriminate E | exact E].
Qed.

Lemma for_each_head_inr {W A B} (a : A) (l : list A) (acc : B)
  (body : A -> B -> M W B) w res w' :
  for_each (a :: l) acc body w = (inr res, w') ->
  exists acc' w1, body a acc w = (inr acc', w1).
Proof.
  simpl. intro E. apply bind_inr in E. destruct E as [acc' [w1 [E _]]].
  exists acc', w1. exact E.
Qed.

Lemma for_each_result {W A B} (P : B -> Prop) (body : A -> B -> M W B) :
  (forall a b w r w', body a b w = (inr r, w') -> P r) ->
  forall l acc w res w',
    l <> [] -> for_each l acc body w = (inr res, w') -> P res.
Proof.
  intros Hb l. induction l as [| a l IH]; intros acc w res w' Hl E.
  - exfalso. apply Hl. reflexivity.
  - simpl in E. apply bind_inr in E. destruct E as [acc' [w1 [E1 E2]]].
    destruct l as [| a' l].
    + simpl in E2. inversion E2; subst. exact (Hb _ _ _ _ _ E1).
    + apply (IH acc' w1 res w'); [discriminate | exact E2].
Qed.

Lemma map_set_not_nil k v m : map_set k v m <> [].
Proof.
  destruct m as [| [k' v'] m]; simpl; [discriminate |].
  destruct (String.eqb k k'); discriminate.
Qed.

Lemma tx_Exec_update_table_refused {W} `{World W} q args (w : W) :
  sql_prepare q = inl (SyntaxError "TABLE") ->
  exists e w', tx_Exec q args w = (inl e, w').
Proof.
  intro Hq. unfold tx_Exec, driver.
  destruct (@Tx_Exec_update_table_refused q args (conn (the_state w)) Hq) as [e He].
  destruct (Tx_Exec q args (conn (the_state w))) as [r c]. simpl in He. subst r.
  eexists. eexists. reflexivity.
Qed.

Lemma stable_run {W} `{World W} {X A} (f : Conn -> X) (m : M W A) w r w' :
  stable f m -> m w = (r, w') ->
  f (conn (the_state w')) = f (conn (the_state w)).
Proof. intros Hm E. specialize (Hm w). rewrite E in Hm. exact Hm. Qed.

Section RefreshRefused.
Context {Hst : Host} {L : Libpod}.

Lemma reset_row_not_nil {T} `{JSON T} what (new : T) reset r states w res w' :
  reset_row what new reset r states w = (inr res, w') -> res <> [].
Proof.
  unfold reset_row. intro E.
  repeat (apply bind_inr in E; destruct E as [? [? [_ E]]]).
  unfold ret in E. inversion E; subst. apply map_set_not_nil.
Qed.

(** The loop of Refresh that writes the states back cannot get past its
    first entry. *)
Lemma write_back_refused fmt q (m : gomap) (w : SQLiteState) w' :
  sql_prepare q = inl (SyntaxError "TABLE") ->
  m <> [] ->
  for_each (range_order m) tt (fun '(key, json) _ =>
    or_wrap fmt [] (tx_Exec q [VText json; VText key]) ;; ret tt) w
  <> (inr tt, w').
Proof.
  intros Hq Hm E.
  destruct (range_order m) as [| [key json] l] eqn:Er.
  - apply Hm. pose proof (range_order_perm m) as Hp. rewrite Er in Hp.
    apply Permutation_nil in Hp. exact Hp.
  - apply for_each_head_inr in E. destruct E as [acc' [w1 E]].
    apply bind_inr in E. destruct E as [k [w2 [E _]]].
    apply or_wrap_inr in E.
    destruct (@tx_Exec_update_table_refused _ _ q [VText json; VText key] w Hq)
      as [e [w3 He]].
    rewrite He in E. discriminate E.
Qed.

Lemma conn_Query_rows (t : table) (q : string) (s : SQLiteState) rows s' :
  (t, q) = (T_ContainerState, "SELECT ID, JSON FROM ContainerState;")
  \/ (t, q) = (T_PodState, "SELECT ID, JSON FROM PodState;")
  \/ (t, q) = (T_VolumeState, "SELECT Name, JSON FROM VolumeState;") ->
  conn_Query q [] s = (inr rows, s') ->
  rows_of t (store (conn s)) <> [] -> rows <> [].
Proof.
  intros Htq E Hne. unfold conn_Query, driver in E. simpl in E.
  destruct (Conn_Query q [] (conn s)) as [[e | rs] c] eqn:Ec;
    [discriminate E |].
  inversion E; subst.
  pose proof (@Conn_Query_states_length t q (conn s) rows c Htq Ec) as Hl.
  intro Hnil. subst rows. simpl in Hl.
  destruct (rows_of t (store (conn s))); [apply Hne; reflexivity | discriminate Hl].
Qed.

(** Refresh ends with an error on every store that holds a state row, and
    then leaves the committed rows as they were. *)
Lemma Refresh_refused (s : SQLiteState) :
  let db := store (conn s) in
  (0 <? List.length (ContainerState_rows db) + List.length (PodState_rows db)
        + List.length (VolumeState_rows db))%nat = true ->
  exists e, fst (Refresh s) = inl e /\ store (conn (snd (Refresh s))) = db.
Proof.
  intros db Hrows.
  destruct (Refresh s) as [[e | []] s'] eqn:E.
  - exists e. split; [reflexivity |]. exact (Refresh_fails_clean s E).
  - exfalso. unfold Refresh in E.
    apply bind_inr in E. destruct E as [s0 [w0 [E0 E]]].
    unfold get_state in E0. inversion E0; subst s0 w0. clear E0.
    apply bind_inr in E. destruct E as [u [w0 [E0 E]]].
    assert (w0 = s) by (unfold unless in E0; destruct (valid s);
                        inversion E0; reflexivity). subst w0. clear E0 u.
    apply bind_inr in E. destruct E as [ctrRows [w1 [Eq1 E]]].
    apply or_wrap_inr in Eq1.
    apply bind_inr in E. destruct E as [ctrStates [w2 [El1 E]]].
    apply bind_inr in E. destruct E as [podRows [w3 [Eq2 E]]].
    apply or_wrap_inr in Eq2.
    apply bind_inr in E. destruct E as [podStates [w4 [El2 E]]].
    apply bind_inr in E. destruct E as [volRows [w5 [Eq3 E]]].
    apply or_wrap_inr in Eq3.
    apply bind_inr in E. destruct E as [volumeStates [w6 [El3 E]]].
    apply bind_inr in E. destruct E as [u [w7 [Eb E]]].
    apply defer_rollback_inr in E.
    apply bind_inr in E. destruct E as [[] [w8 [Ew1 E]]].
    apply bind_inr in E. destruct E as [[] [w9 [Ew2 E]]].
    apply bind_inr in E. destruct E as [[] [w10 [Ew3 E]]]. clear E.
    (* the committed rows are the same at the three queries *)
    assert (S1 : store (conn w1) = db)
      by (refine (@stable_run _ _ _ _ store _ _ _ _ _ Eq1); stable_all).
    assert (S2 : store (conn w2) = db).
    { rewrite <- S1. refine (@stable_run _ _ _ _ store _ _ _ _ _ El1).
      stable_all. }
    assert (S3 : store (conn w3) = db)
      by (rewrite <- S2; refine (@stable_run _ _ _ _ store _ _ _ _ _ Eq2);
          stable_all).
    assert (S4 : store (conn w4) = db).
    { rewrite <- S3. refine (@stable_run _ _ _ _ store _ _ _ _ _ El2).
      stable_all. }
    (* one of the three maps is not empty *)
    assert (Hc : ContainerState_rows db <> [] -> ctrStates <> []).
    { intro Hne.
      refine (@for_each_result _ _ _ (fun m : gomap => m <> []) _ _ _ _ _ _ _ _ El1).
      - intros a b w r w' Er. exact (reset_row_not_nil _ _ _ _ _ _ Er).
      - refine (@conn_Query_rows T_ContainerState _ _ _ _ _ Eq1 _);
          [left; reflexivity | exact Hne]. }
    assert (Hp : PodState_rows db <> [] -> podStates <> []).
    { intro Hne.
      refine (@for_each_result _ _ _ (fun m : gomap => m <> []) _ _ _ _ _ _ _ _ El2).
      - intros a b w r w' Er. exact (reset_row_not_nil _ _ _ _ _ _ Er).
      - refine (@conn_Query_rows T_PodState _ _ _ _ _ Eq2 _);
          [right; left; reflexivity | simpl; rewrite S2; exact Hne]. }
    assert (Hv : VolumeState_rows db <> [] -> volumeStates <> []).
    { intro Hne.
      refine (@for_each_result _ _ _ (fun m : gomap => m <> []) _ _ _ _ _ _ _ _ El3).
      - intros a b w r w' Er. exact (reset_row_not_nil _ _ _ _ _ _ Er).
      - refine (@conn_Query_rows T_VolumeState _ _ _ _ _ Eq3 _);
          [right; right; reflexivity | simpl; rewrite S4; exact Hne]. }
    destruct ctrStates as [| c1 cs].
    + destruct podStates as [| p1 ps].
      * destruct volumeStates as [| v1 vs].
        -- destruct (ContainerState_rows db) as [| r1 rs1];
             [| apply Hc; [discriminate | reflexivity]].
           destruct (PodState_rows db) as [| r2 rs2];
             [| apply Hp; [discriminate | reflexivity]].
           destruct (VolumeState_rows db) as [| r3 rs3];
             [| apply Hv; [discriminate | reflexivity]].
           discriminate Hrows.
        -- exact (write_back_refused "updating volume state: %w" _ _
                    prepare_update_table_VolumeState
                    (ltac:(discriminate) : v1 :: vs <> []) Ew3).
      * exact (write_back_refused "updating pod state: %w" _ _
                 prepare_update_table_PodState
                 (ltac:(discriminate) : p1 :: ps <> []) Ew2).
    + exact (write_back_refused "updating container state: %w" _ _
               prepare_update_table_ContainerState
               (ltac:(discriminate) : c1 :: cs <> []) Ew1).
Qed.

End RefreshRefused.

(** ** The state of a volume is never saved *)

Section SaveVolumeRefused.
Context {L : Libpod}.

(** SaveVolume sends the same UPDATE TABLE as Refresh: whatever the store,
    the handle and the driver, it ends with an error. *)
Lemma SaveVolume_refused (w : SQLiteState * Volume) :
  exists e, fst (SaveVolume w) = inl e.
Proof.
  destruct (SaveVolume w) as [[e | []] w'] eqn:E; [exists e; reflexivity |].
  exfalso. unfold SaveVolume in E.
  apply bind_inr in E. destruct E as [s [w0 [_ E]]].
  apply bind_inr in E. destruct E as [u0 [w1 [_ E]]].
  apply bind_inr in E. destruct E as [volume [w2 [_ E]]].
  apply bind_inr in E. destruct E as [u1 [w3 [_ E]]].
  apply bind_inr in E. destruct E as [stateJSON [w4 [_ E]]].
  apply bind_inr in E. destruct E as [u2 [w5 [_ E]]].
  apply defer_rollback_inr in E.
  apply bind_inr in E. destruct E as [rows [w6 [E _]]].
  apply or_wrap_inr in E.
  destruct (@tx_Exec_update_table_refused _ _
              "UPDATE TABLE VolumeState SET JSON=? WHERE Name=?;"
              [VText stateJSON; VText (Volume_Name volume)] w5
              prepare_update_table_VolumeState) as [e [w7 He]].
  rewrite He in E. discriminate E.
Qed.

End SaveVolumeRefused.

(** ** The lookup of a container *)

(** LookupContainerID on an open store whose driver does not fail and whose
    containers have an ID: the answer follows the number of rows that
    [looked_up] selects.  None gives ErrNoSuchCtr, one gives its ID, more
    give the error that wraps ErrCtrExists. *)
Lemma LookupContainerID_runs db pd tr rt (term : string) :
  String.eqb term "" = false ->
  forallb (not_null 0) (ContainerConfig_rows db) = true ->
  fst (LookupContainerID term (mkSQLiteState true (mkConn db pd [] tr) rt))
  = match filter (looked_up term) (ContainerConfig_rows db) with
    | [] => inl (Sentinel define.ErrNoSuchCtr)
    | [r] => inr (text_of (col 0 r))
    | _ :: _ :: _ =>
        inl (Errorf "more than one result for container %q: %w" [term]
               define.ErrCtrExists)
    end.
Proof.
  intros Ht Hn. unfold LookupContainerID. go. rewrite Ht. simpl.
  rewrite Conn_Query_lookup_ID. simpl.
  pose proof (forallb_filter (not_null 0) (looked_up term) _ Hn) as Hf.
  destruct (filter (looked_up term) (ContainerConfig_rows db)) as [| r1 [| r2 rs]];
    simpl in *.
  - reflexivity.
  - unfold Scan_string, Scan_strings, not_null in *. simpl.
    destruct (col 0 r1); simpl; [discriminate Hf | reflexivity | reflexivity].
  - unfold Scan_string, Scan_strings, not_null in *. simpl.
    destruct (col 0 r1); simpl; [discriminate Hf | reflexivity | reflexivity].
Qed.

(** A term that holds neither wildcard matches, as a LIKE pattern, only
    the texts of its own length: never a longer ID of which it is a
    prefix. *)
Lemma like_same_length (pat text : list ascii) :
  forallb (fun c => negb (Ascii.eqb c "%")) pat = true ->
  like pat text = true -> List.length text = List.length pat.
Proof.
  revert text. induction pat as [| p pat IH]; intros text Hp Hl.
  - destruct text; [reflexivity | discriminate Hl].
  - simpl in Hp. apply andb_true_iff in Hp. destruct Hp as [Hp Hpat].
    simpl in Hl. destruct (Ascii.eqb p "%"); [discriminate Hp |].
    destruct (Ascii.eqb p "_").
    + destruct text as [| c text]; [discriminate Hl |].
      simpl. rewrite (IH text Hpat Hl). reflexivity.
    + destruct text as [| c text]; [discriminate Hl |].
      apply andb_true_iff in Hl. destruct Hl as [_ Hl].
      simpl. rewrite (IH text Hpat Hl). reflexivity.
Qed.

Lemma length_list_ascii (s : string) :
  List.length (list_ascii_of_string s) = String.length s.
Proof. induction s as [| c s IH]; simpl; [| rewrite IH]; reflexivity. Qed.

(** So a partial ID is never found: when the term holds no [%], no
    container is named by the term and every ID is a text of another
    length than the term, LookupContainerID fails with ErrNoSuchCtr,
    whatever prefixes the IDs have. *)
Lemma LookupContainerID_partial_ID_not_found db pd tr rt (term : string) :
  String.eqb term "" = false ->
  forallb (fun c => negb (Ascii.eqb c "%")) (list_ascii_of_string term) = true ->
  forallb (fun r =>
             match col 0 r with
             | VText id => negb (String.length id =? String.length term)%nat
             | _ => false
             end && negb (named 1 term r))
          (ContainerConfig_rows db) = true ->
  fst (LookupContainerID term (mkSQLiteState true (mkConn db pd [] tr) rt))
  = inl (Sentinel define.ErrNoSuchCtr).
Proof.
  intros Ht Hw Hrows.
  assert (Hn : forallb (not_null 0) (ContainerConfig_rows db) = true).
  { rewrite forallb_forall in *. intros r Hr. specialize (Hrows r Hr).
    unfold not_null. destruct (col 0 r); [discriminate Hrows | |]; reflexivity. }
  rewrite (LookupContainerID_runs db pd tr rt term Ht Hn).
  assert (He : filter (looked_up term) (ContainerConfig_rows db) = []).
  { induction (ContainerConfig_rows db) as [| r rs IH]; [reflexivity |].
    simpl in Hrows. apply andb_true_iff in Hrows. destruct Hrows as [Hr Hrs].
    simpl in Hn. apply andb_true_iff in Hn. destruct Hn as [_ Hn].
    simpl. rewrite (IH Hrs Hn).
    apply andb_true_iff in Hr. destruct Hr as [Hid Hname].
    unfold looked_up. unfold named in Hname.
    apply negb_true_iff in Hname. rewrite Hname. simpl.
    destruct (col 0 r) as [| z | id]; try discriminate Hid.
    simpl. destruct (sqlite_like term id) eqn:El; [| reflexivity].
    unfold sqlite_like in El. apply (like_same_length _ _ Hw) in El.
    rewrite !length_list_ascii in El. rewrite El, Nat.eqb_refl in Hid.
    discriminate Hid. }
  rewrite He. reflexivity.
Qed.

(** ** The methods on the small instance *)

(** C1.  With the containers abc123 and abc456 stored: the lookup of abc
    finds no container, and so does the lookup of abc1, where a prefix
    match would give an ambiguity and the first container.  The term is
    handed to LIKE as the whole pattern, so that only a full ID (in any
    letter case), a name, or a term that carries a wildcard of its own
    matches. *)
Theorem LookupContainerID_needs_the_full_ID :
  let s := Example.open Example.two_containers in
  fst (LookupContainerID "abc" s) = inl (Sentinel define.ErrNoSuchCtr)
  /\ fst (LookupContainerID "abc1" s) = inl (Sentinel define.ErrNoSuchCtr)
  /\ fst (LookupContainerID "abc123" s) = inr "abc123"
  /\ fst (LookupContainerID "first" s) = inr "abc123"
  /\ fst (LookupContainerID "abc%" s)
     = inl (Errorf "more than one result for container %q: %w" ["abc%"]
              define.ErrCtrExists)
  /\ (forall (L : Libpod) (I : Internals),
        fst (LookupContainer "abc" s) = inl (Sentinel define.ErrNoSuchCtr)
        /\ fst (LookupContainer "abc1" s) = inl (Sentinel define.ErrNoSuchCtr)).
Proof. vm_compute. repeat split. Qed.

(** C2.  On a store with one container state row, one exec session and
    one exit code, Refresh ends with an error for every host and every
    reading of the states, and the committed rows are what they were: the
    state row is not reset and the two ephemeral tables keep their rows.
    On the small instance the error is the syntax error of the statement
    UPDATE TABLE.  Refresh succeeds, and empties the two tables, on the
    store that holds no state row. *)
Theorem Refresh_stops_at_UPDATE_TABLE :
  (forall (Hst : Host) (L : Libpod),
     let r := Refresh (Example.open Example.after_reboot) in
     (exists e, fst r = inl e) /\ store (conn (snd r)) = Example.after_reboot)
  /\ fst (Refresh (Hst := Example.host) (L := Example.libpod)
            (Example.open Example.after_reboot))
     = inl (Errorf "updating container state: %w" []
              (SqlError (SyntaxError "TABLE")))
  /\ (let r := Refresh (Hst := Example.host) (L := Example.libpod)
                 (Example.open Example.only_ephemeral) in
      fst r = inr tt /\ store (conn (snd r)) = empty_DB).
Proof.
  split; [| split].
  - intros Hst L.
    destruct (@Refresh_refused Hst L (Example.open Example.after_reboot) eq_refl)
      as [e [He Hs]].
    split; [exists e; exact He | exact Hs].
  - vm_compute. reflexivity.
  - vm_compute. split; reflexivity.
Qed.

(** C4, as first stated, fails: RemoveContainer on a container of a pod
    fails with ErrPodExists, and that error is not ErrInvalidArg. *)
Lemma RemoveContainer_gives_ErrPodExists :
  let r := RemoveContainer (L := Example.libpod) (I := Example.internals)
             (Example.open Example.two_containers,
              Example.container "abc123" "pod1" true) in
  fst r = inl (Errorf "container %s is part of a pod, use RemoveContainerFromPod instead: %w"
                 ["abc123"] define.ErrPodExists)
  /\ (forall e, fst r = inl e -> errors_Is e define.ErrInvalidArg = false).
Proof.
  vm_compute. split; [reflexivity |].
  intros e E. inversion E. reflexivity.
Qed.

(** C9, as first stated, fails for a container that has an exit code on
    record: the container ID is the key of the table, AddContainerExitCode
    is a plain INSERT, so the second recording for c1 is refused and the
    getter still returns the first code, 137, not the code just given. *)
Lemma AddContainerExitCode_refuses_a_second_record :
  let s := Example.open Example.after_reboot in
  let r := AddContainerExitCode 5000 "c1" 0 s in
  fst r = inl (Errorf "adding container %s exit code: %w" ["c1"]
                 (SqlError (UniqueConstraint "ContainerExitCode")))
  /\ fst (GetContainerExitCode "c1" (snd r)) = inr 137%Z
  /\ fst (GetContainerExitCodeTimeStamp "c1" (snd r)) = inr 1000%Z.
Proof. vm_compute. repeat split. Qed.

(** C5, as first stated, fails: RemoveVolume does not test the flag.  On
    an invalidated handle it opens a transaction, sends its three
    statements, deletes the rows of the volume and returns no error. *)
Lemma RemoveVolume_runs_on_invalidated_handle :
  let volume := Example.volume "logs" false in
  let r := RemoveVolume (L := Example.libpod)
             (Example.open Example.volumes, volume) in
  vol_valid volume = false
  /\ fst r = inr tt
  /\ trace (conn (fst (snd r)))
     = ["DELETE FROM VolumeState WHERE Name=?;";
        "DELETE FROM VolumeConfig WHERE Name=?;";
        "SELECT ContainerID FROM ContainerVolume WHERE VolumeName=?;"]
  /\ VolumeConfig_rows (store (conn (fst (snd r))))
     = [[VText "data"; VNull; VText "data"]].
Proof. vm_compute. repeat split. Qed.

(** ** Instances of the theorems above *)

Lemma Refresh_failure_rolls_back_on_failed_commit :
  let s := Example.open_failing Example.only_ephemeral
             [false; false; false; false; false; false; true] in
  let r := Refresh (Hst := Example.host) (L := Example.libpod) s in
  fst r = inl (Errorf "committing transaction: %w" [] (SqlError DriverFault))
  /\ store (conn (snd r)) = Example.only_ephemeral
  /\ pending (conn (snd r)) = None.
Proof.
  intros s r.
  assert (E : r = (inl (Errorf "committing transaction: %w" []
                          (SqlError DriverFault)), snd r))
    by (vm_compute; reflexivity).
  destruct (@Refresh_failure_rolls_back Example.host Example.libpod s _ _ E)
    as [Hs Hp].
  split; [rewrite E; reflexivity |].
  split; [exact Hs | exact (Hp eq_refl)].
Defined.

Lemma pod_container_refused_on_abc123 :
  let s := Example.open Example.two_containers in
  let live := Example.container "abc123" "pod1" true in
  let gone := Example.container "abc123" "pod1" false in
  (exists e, AddContainer (L := Example.libpod) (I := Example.internals) (s, live)
             = (inl e, (s, live))
             /\ errors_Is e define.ErrInvalidArg = true)
  /\ (exists e, RemoveContainer (L := Example.libpod) (I := Example.internals)
                  (s, live)
                = (inl e, (s, live))
                /\ errors_Is e define.ErrPodExists = true
                /\ errors_Is e define.ErrInvalidArg = false)
  /\ (exists e, RemoveContainer (L := Example.libpod) (I := Example.internals)
                  (s, gone)
                = (inl e, (s, gone))
                /\ errors_Is e define.ErrPodExists = true
                /\ errors_Is e define.ErrInvalidArg = false).
Proof.
  intros s live gone.
  destruct (@pod_container_refused Example.libpod Example.internals s live
              eq_refl eq_refl) as [Hadd Hremove].
  split; [exact (Hadd eq_refl) |]. split; [exact Hremove |].
  exact (proj2 (@pod_container_refused Example.libpod Example.internals s gone
                  eq_refl eq_refl)).
Defined.

Lemma invalidated_handle_fails_fast_on_volumes :
  let s := Example.open Example.volumes in
  SaveContainer (L := Example.libpod) (s, Example.container "c1" "" false)
  = (inl (Sentinel define.ErrCtrRemoved), (s, Example.container "c1" "" false))
  /\ SavePod (L := Example.libpod) (s, Example.pod "p1" false)
     = (inl (Sentinel define.ErrPodRemoved), (s, Example.pod "p1" false))
  /\ UpdateVolume (L := Example.libpod) (s, Example.volume "logs" false)
     = (inl (Sentinel define.ErrVolumeRemoved), (s, Example.volume "logs" false)).
Proof.
  intro s.
  destruct (@invalidated_handle_fails_fast Example.libpod Example.internals
              s eq_refl) as [Hc [Hp Hv]].
  split; [| split].
  - exact (proj1 (proj2 (proj2 (Hc (Example.container "c1" "" false) eq_refl)))).
  - destruct (Hp (Example.pod "p1" false) eq_refl)
      as (_ & _ & _ & _ & _ & _ & _ & _ & H & _). exact H.
  - destruct (Hv (Example.volume "logs" false) eq_refl) as (_ & _ & H & _).
    exact H.
Defined.

Lemma RemoveVolume_guard_on_data :
  let s := Example.open Example.volumes in
  let r := RemoveVolume (L := Example.libpod) (s, Example.volume "data" true) in
  (fst r = inl (Errorf "volume %s is in use by containers %s: %w"
                  ["data"; "c1"] define.ErrVolumeBeingUsed)
   /\ store (conn (fst (snd r))) = Example.volumes)
  /\ (let failing := Example.open_failing Example.volumes
                        [false; false; false; true] in
      let r := RemoveVolume (L := Example.libpod)
                 (failing, Example.volume "logs" true) in
      fst r = inl (Errorf "removing volume %s state from DB: %w" ["logs"]
                     (SqlError DriverFault))
      /\ store (conn (fst (snd r))) = Example.volumes
      /\ pending (conn (fst (snd r))) = None).
Proof.
  intros s r. split.
  - destruct (@RemoveVolume_guard Example.libpod s (Example.volume "data" true))
      as (_ & _ & Hopen).
    destruct (Hopen eq_refl eq_refl eq_refl) as (_ & _ & _ & Hused & _).
    apply Hused. vm_compute. discriminate.
  - intros failing r'.
    destruct (@RemoveVolume_guard Example.libpod failing
                (Example.volume "logs" true)) as (Hclean & Hclosed & _).
    assert (E : fst r'
                = inl (Errorf "removing volume %s state from DB: %w" ["logs"]
                         (SqlError DriverFault)))
      by (vm_compute; reflexivity).
    split; [exact E |]. split; [exact (Hclean _ E) | exact (Hclosed eq_refl)].
Defined.

Lemma RemoveVolume_of_missing_volume_on_nope :
  let s := Example.open Example.volumes in
  let r := RemoveVolume (L := Example.libpod) (s, Example.volume "nope" true) in
  fst r = inr tt
  /\ store (conn (fst (snd r))) = Example.volumes
  /\ snd (snd r) = Example.volume "nope" true.
Proof.
  exact (@RemoveVolume_of_missing_volume Example.libpod
           (Example.open Example.volumes) (Example.volume "nope" true)
           eq_refl eq_refl eq_refl eq_refl eq_refl).
Defined.

Lemma SaveContainer_checks_rows_affected_on_abc123 :
  let s := Example.open Example.two_containers in
  (let r := SaveContainer (L := Example.libpod)
              (s, Example.container "abc123" "" true) in
   fst r = inr tt
   /\ ContainerState_rows (store (conn (fst (snd r))))
      = [[VText "abc123"; VText "{}"]; [VText "abc456"; VText "{}"]])
  /\ (let r := SaveContainer (L := Example.libpod)
                 (s, Example.container "zzz" "" true) in
      fst r = inl (Sentinel define.ErrNoSuchCtr)
      /\ ctr_valid (snd (snd r)) = false
      /\ store (conn (fst (snd r))) = Example.two_containers).
Proof.
  intro s. split.
  - destruct (@SaveContainer_checks_rows_affected Example.libpod s
                (Example.container "abc123" "" true) "{}"
                eq_refl eq_refl eq_refl eq_refl) as (_ & _ & Hone).
    destruct (Hone eq_refl) as (Hr & _ & Hs).
    split; [exact Hr |]. rewrite Hs. reflexivity.
  - destruct (@SaveContainer_checks_rows_affected Example.libpod s
                (Example.container "zzz" "" true) "{}"
                eq_refl eq_refl eq_refl eq_refl) as (_ & Hzero & _).
    destruct (Hzero eq_refl) as (Hr & Hc & Hs).
    split; [exact Hr |]. split; [rewrite Hc; reflexivity | exact Hs].
Defined.

Lemma ValidateDBConfig_on_changed_graph_root :
  let s := Example.open
             (set_rows T_DBConfig [Example.config_row "/other"] empty_DB) in
  fst (ValidateDBConfig (Hst := Example.host) Example.rt s)
  = inl (Errorf "database %s %q does not match our %s %q: %w"
           ["graph root"; "/other"; "graph root"; "/var/lib/containers/storage"]
           define.ErrDBBadConfig)
  /\ (let r := ValidateDBConfig (Hst := Example.host) Example.rt
                 (Example.open empty_DB) in
      fst r = inr tt
      /\ DBConfig_rows (store (conn (snd r)))
         = [Example.config_row "/var/lib/containers/storage"])
  /\ (let r := ValidateDBConfig (Hst := Example.host) Example.rt
                 (Example.open_failing empty_DB [false; false; false; true]) in
      fst r = inl (Errorf "committing DB config transaction: %w" []
                     (SqlError DriverFault))
      /\ store (conn (snd r)) = empty_DB
      /\ pending (conn (snd r)) = None).
Proof.
  intro s. split; [| split].
  - destruct (@ValidateDBConfig_records_then_compares Example.host s Example.rt
                (mkStoreOptions "/var/lib/containers/storage"
                   "/run/containers/storage" "overlay")) as (_ & _ & Hopen).
    destruct (Hopen eq_refl eq_refl eq_refl) as [_ Hrow].
    destruct (Hrow (VInt 1) (VInt 1)
                ["linux"; "/var/lib/containers/storage/libpod"; "/run/libpod";
                 "/other"; "/run/containers/storage"; "overlay";
                 "/var/lib/containers/storage/volumes"] [] eq_refl eq_refl)
      as (_ & _ & _ & Hgraph).
    apply Hgraph; try reflexivity. vm_compute. discriminate.
  - destruct (@ValidateDBConfig_records_then_compares Example.host
                (Example.open empty_DB) Example.rt
                (mkStoreOptions "/var/lib/containers/storage"
                   "/run/containers/storage" "overlay")) as (_ & _ & Hopen).
    destruct (Hopen eq_refl eq_refl eq_refl) as [Hnew _].
    destruct (Hnew eq_refl) as [Hr Hs].
    split; [exact Hr |]. exact (f_equal DBConfig_rows Hs).
  - intro r.
    destruct (@ValidateDBConfig_records_then_compares Example.host
                (Example.open_failing empty_DB [false; false; false; true])
                Example.rt
                (mkStoreOptions "/var/lib/containers/storage"
                   "/run/containers/storage" "overlay"))
      as (Hclean & Hclosed & _).
    assert (E : fst r = inl (Errorf "committing DB config transaction: %w" []
                               (SqlError DriverFault)))
      by (vm_compute; reflexivity).
    split; [exact E |]. split; [exact (Hclean _ E) | exact (Hclosed eq_refl)].
Defined.

Lemma exit_code_bookkeeping_on_c2 :
  let s := Example.open Example.after_reboot in
  fst (GetContainerExitCode "c2" s)
  = inl (Errorf "getting exit code of container %s from DB: %w" ["c2"]
           define.ErrNoSuchExitCode)
  /\ fst (GetContainerExitCode "c2"
            (snd (AddContainerExitCode 5000 "c2" 137 s))) = inr 137%Z
  /\ fst (GetContainerExitCodeTimeStamp "c2"
            (snd (AddContainerExitCode 5000 "c2" 137 s))) = inr 5000%Z
  /\ ContainerExitCode_rows
       (store (conn (snd (PruneContainerExitCodes 1300 s)))) = []
  /\ ContainerExitCode_rows
       (store (conn (snd (PruneContainerExitCodes 1299 s))))
     = [[VText "c1"; VInt 1000; VInt 137]].
Proof.
  intro s.
  destruct (@exit_code_bookkeeping s 5000%Z "c2" 137%Z
              eq_refl eq_refl eq_refl eq_refl eq_refl) as (Hnone & Hadd & _).
  destruct (@exit_code_bookkeeping s 1300%Z "c2" 137%Z
              eq_refl eq_refl eq_refl eq_refl eq_refl) as (_ & _ & _ & Hp1 & _).
  destruct (@exit_code_bookkeeping s 1299%Z "c2" 137%Z
              eq_refl eq_refl eq_refl eq_refl eq_refl) as (_ & _ & _ & Hp2 & _).
  destruct (Hadd (snd (AddContainerExitCode 5000 "c2" 137 s)))
    as (_ & Hcode & Htime); [vm_compute; reflexivity |].
  split; [vm_compute; reflexivity |].
  split; [exact Hcode |]. split; [exact Htime |].
  split; [rewrite Hp1 | rewrite Hp2]; reflexivity.
Defined.

Transparent sql_prepare Conn_Query Tx_Query Tx_Exec.

(** * More properties

    The methods that the properties above leave out, and what the methods
    do when they are called one after the other. *)

(** ** More statements, one by one *)

Lemma Conn_Query_GetDBConfig st pd tr :
  Conn_Query
    "SELECT StaticDir, TmpDir, GraphRoot, RunRoot, GraphDriver, VolumeDir FROM DBConfig;"
    [] (mkConn st pd [] tr)
  = (inr (map (fun r => [col 3 r; col 4 r; col 5 r; col 6 r; col 7 r; col 8 r])
              (DBConfig_rows st)),
     mkConn st pd []
       ("SELECT StaticDir, TmpDir, GraphRoot, RunRoot, GraphDriver, VolumeDir FROM DBConfig;"
        :: tr)).
Proof.
  rewrite <- (filter_all (DBConfig_rows st)) at 1. reflexivity.
Qed.

Lemma Conn_Query_ContainerName st pd tr id :
  Conn_Query "SELECT Name FROM ContainerConfig WHERE ID=?;" [VText id]
    (mkConn st pd [] tr)
  = (inr (map (fun r => [col 1 r])
              (filter (named 0 id) (ContainerConfig_rows st))),
     mkConn st pd [] ("SELECT Name FROM ContainerConfig WHERE ID=?;" :: tr)).
Proof. reflexivity. Qed.

Lemma Conn_Query_PodName st pd tr id :
  Conn_Query "SELECT Name FROM PodConfig WHERE ID=?;" [VText id]
    (mkConn st pd [] tr)
  = (inr (map (fun r => [col 1 r]) (filter (named 0 id) (PodConfig_rows st))),
     mkConn st pd [] ("SELECT Name FROM PodConfig WHERE ID=?;" :: tr)).
Proof. reflexivity. Qed.

Lemma Conn_Query_ContainerState st pd tr id :
  Conn_Query "SELECT JSON FROM ContainerState WHERE ID=?;" [VText id]
    (mkConn st pd [] tr)
  = (inr (map (fun r => [col 1 r])
              (filter (named 0 id) (ContainerState_rows st))),
     mkConn st pd [] ("SELECT JSON FROM ContainerState WHERE ID=?;" :: tr)).
Proof. reflexivity. Qed.

Lemma Conn_Query_dependents st pd tr id :
  Conn_Query "SELECT ID FROM ContainerDependency WHERE DependencyID=?;"
    [VText id] (mkConn st pd [] tr)
  = (inr (map (fun r => [col 0 r])
              (filter (named 1 id) (ContainerDependency_rows st))),
     mkConn st pd []
       ("SELECT ID FROM ContainerDependency WHERE DependencyID=?;" :: tr)).
Proof. reflexivity. Qed.


Lemma Conn_Query_lookup_pod st pd tr term :
  Conn_Query
    "SELECT JSON FROM PodConfig WHERE PodConfig.Name=? OR (PodConfig.ID LIKE ?);"
    [VText term; VText term] (mkConn st pd [] tr)
  = (inr (map (fun r => [col 2 r])
              (filter (looked_up term) (PodConfig_rows st))),
     mkConn st pd []
       ("SELECT JSON FROM PodConfig WHERE PodConfig.Name=? OR (PodConfig.ID LIKE ?);"
        :: tr)).
Proof. reflexivity. Qed.

Lemma Conn_Query_session_container st pd tr id :
  Conn_Query "SELECT ContainerID FROM ContainerExecSession WHERE ID=?;"
    [VText id] (mkConn st pd [] tr)
  = (inr (map (fun r => [col 1 r])
              (filter (named 0 id) (ContainerExecSession_rows st))),
     mkConn st pd []
       ("SELECT ContainerID FROM ContainerExecSession WHERE ID=?;" :: tr)).
Proof. reflexivity. Qed.

Lemma Conn_Query_container_sessions st pd tr id :
  Conn_Query "SELECT ID FROM ContainerExecSession WHERE ContainerID=?;"
    [VText id] (mkConn st pd [] tr)
  = (inr (map (fun r => [col 0 r])
              (filter (named 1 id) (ContainerExecSession_rows st))),
     mkConn st pd []
       ("SELECT ID FROM ContainerExecSession WHERE ContainerID=?;" :: tr)).
Proof. reflexivity. Qed.

Lemma Conn_Query_VolumeState st pd tr name :
  Conn_Query "SELECT JSON FROM VolumeState WHERE Name=?;" [VText name]
    (mkConn st pd [] tr)
  = (inr (map (fun r => [col 1 r])
              (filter (named 0 name) (VolumeState_rows st))),
     mkConn st pd [] ("SELECT JSON FROM VolumeState WHERE Name=?;" :: tr)).
Proof. reflexivity. Qed.

Lemma Conn_Query_VolumeConfig st pd tr name :
  Conn_Query "SELECT JSON FROM VolumeConfig WHERE Name=?;" [VText name]
    (mkConn st pd [] tr)
  = (inr (map (fun r => [col 2 r])
              (filter (named 0 name) (VolumeConfig_rows st))),
     mkConn st pd [] ("SELECT JSON FROM VolumeConfig WHERE Name=?;" :: tr)).
Proof. reflexivity. Qed.

Lemma Conn_Query_all_volumes st pd tr :
  Conn_Query "SELECT JSON FROM VolumeConfig;" [] (mkConn st pd [] tr)
  = (inr (map (fun r => [col 2 r]) (VolumeConfig_rows st)),
     mkConn st pd [] ("SELECT JSON FROM VolumeConfig;" :: tr)).
Proof.
  rewrite <- (filter_all (VolumeConfig_rows st)) at 1. reflexivity.
Qed.

Lemma Conn_Query_lookup_volume st pd tr name :
  Conn_Query "SELECT JSON FROM VolumeConfig WHERE Name LIKE ?;" [VText name]
    (mkConn st pd [] tr)
  = (inr (map (fun r => [col 2 r])
              (filter (fun r => value_like (col 0 r) (VText name))
                      (VolumeConfig_rows st))),
     mkConn st pd [] ("SELECT JSON FROM VolumeConfig WHERE Name LIKE ?;" :: tr)).
Proof. reflexivity. Qed.

Lemma Tx_Exec_delete_session st db tr id :
  Tx_Exec "DELETE FROM ContainerExecSession WHERE ID=?;" [VText id]
    (mkConn st (Some db) [] tr)
  = (inr (Z.of_nat (List.length
            (filter (named 0 id) (ContainerExecSession_rows db)))),
     mkConn st
       (Some (set_rows T_ContainerExecSession
                (without id (ContainerExecSession_rows db)) db))
       [] ("DELETE FROM ContainerExecSession WHERE ID=?;" :: tr)).
Proof. reflexivity. Qed.

Lemma Tx_Exec_delete_all_exit_codes st db tr :
  Tx_Exec "DELETE FROM ContainerExitCode;" [] (mkConn st (Some db) [] tr)
  = (inr (Z.of_nat (List.length (ContainerExitCode_rows db))),
     mkConn st (Some (set_rows T_ContainerExitCode [] db)) []
       ("DELETE FROM ContainerExitCode;" :: tr)).
Proof.
  rewrite <- (filter_all (ContainerExitCode_rows db)) at 1.
  rewrite <- (filter_none (ContainerExitCode_rows db)). reflexivity.
Qed.

Lemma Tx_Exec_delete_all_sessions st db tr :
  Tx_Exec "DELETE FROM ContainerExecSession;" [] (mkConn st (Some db) [] tr)
  = (inr (Z.of_nat (List.length (ContainerExecSession_rows db))),
     mkConn st (Some (set_rows T_ContainerExecSession [] db)) []
       ("DELETE FROM ContainerExecSession;" :: tr)).
Proof.
  rewrite <- (filter_all (ContainerExecSession_rows db)) at 1.
  rewrite <- (filter_none (ContainerExecSession_rows db)). reflexivity.
Qed.

(** The key test of an INSERT into a table whose key is its first column. *)
Lemma key_taken (id : string) (rs : list row) :
  existsb (fun r => value_eqb (VText id) (col 0 r) && true) rs || false
  = existsb (named 0 id) rs.
Proof.
  rewrite orb_false_r.
  induction rs as [| r rs IH]; [reflexivity |].
  cbn [existsb]. f_equal; [| exact IH].
  rewrite andb_true_r. unfold named.
  destruct (col 0 r); simpl; try reflexivity.
  apply String.eqb_sym.
Qed.

Lemma Tx_Exec_insert_session st db tr id ctrID :
  Tx_Exec "INSERT INTO ContainerExecSession VALUES (?, ?);"
    [VText id; VText ctrID] (mkConn st (Some db) [] tr)
  = (if existsb (named 0 id) (ContainerExecSession_rows db)
     then (inl (UniqueConstraint "ContainerExecSession"),
           mkConn st (Some db) []
             ("INSERT INTO ContainerExecSession VALUES (?, ?);" :: tr))
     else (inr 1%Z,
           mkConn st
             (Some (set_rows T_ContainerExecSession
                      (ContainerExecSession_rows db ++ [[VText id; VText ctrID]])
                      db))
             [] ("INSERT INTO ContainerExecSession VALUES (?, ?);" :: tr))).
Proof.
  change (Tx_Exec "INSERT INTO ContainerExecSession VALUES (?, ?);"
            [VText id; VText ctrID] (mkConn st (Some db) [] tr))
    with (match
             (if existsb (fun r => value_eqb (VText id) (col 0 r) && true)
                   (ContainerExecSession_rows db) || false
              then inl (UniqueConstraint "ContainerExecSession")
              else inr (set_rows T_ContainerExecSession
                          (ContainerExecSession_rows db ++ [[VText id; VText ctrID]])
                          db, 1%Z))
           with
           | inl e => (inl e, mkConn st (Some db) []
                                ("INSERT INTO ContainerExecSession VALUES (?, ?);" :: tr))
           | inr (db', k) =>
               (inr k, mkConn st (Some db') []
                         ("INSERT INTO ContainerExecSession VALUES (?, ?);" :: tr))
           end).
  rewrite key_taken.
  destruct (existsb (named 0 id) (ContainerExecSession_rows db)); reflexivity.
Qed.

Lemma Tx_Exec_insert_VolumeConfig st db tr name (storageID : value) json :
  Tx_Exec "INSERT INTO VolumeConfig VALUES (?, ?, ?);"
    [VText name; storageID; VText json] (mkConn st (Some db) [] tr)
  = (if existsb (named 0 name) (VolumeConfig_rows db)
     then (inl (UniqueConstraint "VolumeConfig"),
           mkConn st (Some db) []
             ("INSERT INTO VolumeConfig VALUES (?, ?, ?);" :: tr))
     else (inr 1%Z,
           mkConn st
             (Some (set_rows T_VolumeConfig
                      (VolumeConfig_rows db ++ [[VText name; storageID; VText json]])
                      db))
             [] ("INSERT INTO VolumeConfig VALUES (?, ?, ?);" :: tr))).
Proof.
  change (Tx_Exec "INSERT INTO VolumeConfig VALUES (?, ?, ?);"
            [VText name; storageID; VText json] (mkConn st (Some db) [] tr))
    with (match
             (if existsb (fun r => value_eqb (VText name) (col 0 r) && true)
                   (VolumeConfig_rows db) || false
              then inl (UniqueConstraint "VolumeConfig")
              else inr (set_rows T_VolumeConfig
                          (VolumeConfig_rows db ++ [[VText name; storageID; VText json]])
                          db, 1%Z))
           with
           | inl e => (inl e, mkConn st (Some db) []
                                ("INSERT INTO VolumeConfig VALUES (?, ?, ?);" :: tr))
           | inr (db', k) =>
               (inr k, mkConn st (Some db') []
                         ("INSERT INTO VolumeConfig VALUES (?, ?, ?);" :: tr))
           end).
  rewrite key_taken.
  destruct (existsb (named 0 name) (VolumeConfig_rows db)); reflexivity.
Qed.

Lemma Tx_Exec_insert_VolumeState st db tr name json :
  Tx_Exec "INSERT INTO VolumeState VALUES (?, ?);"
    [VText name; VText json] (mkConn st (Some db) [] tr)
  = (if existsb (named 0 name) (VolumeState_rows db)
     then (inl (UniqueConstraint "VolumeState"),
           mkConn st (Some db) []
             ("INSERT INTO VolumeState VALUES (?, ?);" :: tr))
     else (inr 1%Z,
           mkConn st
             (Some (set_rows T_VolumeState
                      (VolumeState_rows db ++ [[VText name; VText json]]) db))
             [] ("INSERT INTO VolumeState VALUES (?, ?);" :: tr))).
Proof.
  change (Tx_Exec "INSERT INTO VolumeState VALUES (?, ?);"
            [VText name; VText json] (mkConn st (Some db) [] tr))
    with (match
             (if existsb (fun r => value_eqb (VText name) (col 0 r) && true)
                   (VolumeState_rows db) || false
              then inl (UniqueConstraint "VolumeState")
              else inr (set_rows T_VolumeState
                          (VolumeState_rows db ++ [[VText name; VText json]])
                          db, 1%Z))
           with
           | inl e => (inl e, mkConn st (Some db) []
                                ("INSERT INTO VolumeState VALUES (?, ?);" :: tr))
           | inr (db', k) =>
               (inr k, mkConn st (Some db') []
                         ("INSERT INTO VolumeState VALUES (?, ?);" :: tr))
           end).
  rewrite key_taken.
  destruct (existsb (named 0 name) (VolumeState_rows db)); reflexivity.
Qed.

(** The statement of RemoveContainerExecSessions names a table that does
    not exist: it is refused whatever the connection. *)
Lemma prepare_delete_ContainerExecSessions :
  sql_prepare "DELETE FROM ContainerExecSessions WHERE ContainerID=?;"
  = inr (Delete "ContainerExecSessions"
           (Some (ECmp CEq (OCol None "ContainerID") (OParam 0))), 1%nat).
Proof. vm_compute. reflexivity. Qed.

Lemma Tx_Exec_no_such_table args c :
  exists e,
    fst (Tx_Exec "DELETE FROM ContainerExecSessions WHERE ContainerID=?;" args c)
    = inl e.
Proof.
  unfold Tx_Exec.
  destruct (pending c) as [db |]; [| eexists; reflexivity].
  destruct (step_fault
              (sent "DELETE FROM ContainerExecSessions WHERE ContainerID=?;" c))
    as [bad c1].
  destruct bad; [eexists; reflexivity |].
  rewrite prepare_delete_ContainerExecSessions.
  destruct (negb (1 =? List.length args)%nat); eexists; reflexivity.
Qed.

Lemma Tx_Exec_delete_ContainerExecSessions st db tr id :
  Tx_Exec "DELETE FROM ContainerExecSessions WHERE ContainerID=?;" [VText id]
    (mkConn st (Some db) [] tr)
  = (inl (NoSuchTable "ContainerExecSessions"),
     mkConn st (Some db) []
       ("DELETE FROM ContainerExecSessions WHERE ContainerID=?;" :: tr)).
Proof. reflexivity. Qed.

(** From here on the statements run through the lemmas above only. *)
Opaque sql_prepare Conn_Query Tx_Query Tx_Exec.

(** ** What every writing method leaves alone *)

Section Transactions.
Context {Hst : Host} {L : Libpod}.

(** X3.  Every method that writes does so in one transaction ended by a
    commit, with the rollback deferred: when the method returns an error,
    at whatever step and under whatever failures of the driver, the
    committed rows of every table are what they were before the call.
    (Refresh is covered above.) *)
Theorem failed_write_changes_no_row :
  (forall given, fails_clean (ValidateDBConfig given))
  /\ (forall now id code, fails_clean (AddContainerExitCode now id code))
  /\ (forall now, fails_clean (PruneContainerExitCodes now))
  /\ (forall session, fails_clean (RemoveExecSession session))
  /\ fails_clean SaveContainer
  /\ (forall session, fails_clean (AddExecSession session))
  /\ fails_clean RemoveContainerExecSessions
  /\ fails_clean AddVolume
  /\ fails_clean RemoveVolume
  /\ fails_clean SaveVolume.
Proof.
  repeat match goal with |- _ /\ _ => split end; intros;
    unfold ValidateDBConfig, AddContainerExitCode, PruneContainerExitCodes,
      RemoveExecSession, SaveContainer, AddExecSession,
      RemoveContainerExecSessions, AddVolume, RemoveVolume, SaveVolume, gather;
    clean_body.
Qed.

(** X4.  A writing method called with no transaction open returns with
    none open, whether it succeeds or fails and whatever failures of the
    driver occur: the transaction it begins is committed or rolled back
    on every path. *)
Theorem no_transaction_left_open :
  (forall given, ends_closed (ValidateDBConfig given))
  /\ (forall now id code, ends_closed (AddContainerExitCode now id code))
  /\ (forall now, ends_closed (PruneContainerExitCodes now))
  /\ (forall session, ends_closed (RemoveExecSession session))
  /\ ends_closed SaveContainer
  /\ (forall session, ends_closed (AddExecSession session))
  /\ ends_closed RemoveContainerExecSessions
  /\ ends_closed AddVolume
  /\ ends_closed RemoveVolume
  /\ ends_closed SaveVolume.
Proof.
  repeat match goal with |- _ /\ _ => split end; intros;
    unfold ValidateDBConfig, AddContainerExitCode, PruneContainerExitCodes,
      RemoveExecSession, SaveContainer, AddExecSession,
      RemoveContainerExecSessions, AddVolume, RemoveVolume, SaveVolume, gather;
    closed_prelude; closed_body.
Qed.

End Transactions.

(** ** The tests that come first *)

Section FirstTests.
Context {Hst : Host} {L : Libpod} {I : Internals} {F : Finalizers}.

Lemma length_not_empty (id : string) :
  String.eqb id "" = false -> (String.length id =? 0)%nat = false.
Proof. destruct id; [discriminate | reflexivity]. Qed.

Ltac first_test Hs :=
  go; rewrite ?Hs; simpl; try reflexivity.

(** X1.  A Close that succeeds marks the state closed and changes no row;
    a Close that fails leaves the state open.  On a closed state each of
    the methods listed below, given an argument other than an empty ID,
    fails with ErrDBClosed and returns the state and the handles as they
    were: no statement is sent and no helper of the package is called.
    GetExecSession does so for the empty ID too.  HasContainer,
    AllContainers, HasVolume, ContainerIDIsVolume, NetworkConnect,
    NetworkModify and NetworkDisconnect are not in the list. *)
Theorem closed_state_refuses :
  (forall s0 s1, Close s0 = (inr tt, s1) ->
     valid s1 = false /\ store (conn s1) = store (conn s0))
  /\ (forall s0 e s1, Close s0 = (inl e, s1) -> valid s1 = valid s0)
  /\ (forall s, valid s = false ->
      let closed {A} : (error + A) * SQLiteState :=
        (inl (Sentinel define.ErrDBClosed), s) in
      Refresh s = closed
      /\ GetDBConfig s = closed
      /\ (forall given, ValidateDBConfig given s = closed)
      /\ (forall now, PruneContainerExitCodes now s = closed)
      /\ (forall id, GetExecSession id s = closed)
      /\ (forall session, RemoveExecSession session s = closed)
      /\ AllPods s = closed
      /\ AllVolumes s = closed
      /\ (forall id, String.eqb id "" = false ->
            GetContainerName id s = closed
            /\ GetPodName id s = closed
            /\ SQLiteState_Container id s = closed
            /\ LookupContainerID id s = closed
            /\ LookupContainer id s = closed
            /\ GetContainerConfig id s = closed
            /\ (forall now code, AddContainerExitCode now id code s = closed)
            /\ GetContainerExitCode id s = closed
            /\ GetContainerExitCodeTimeStamp id s = closed
            /\ SQLiteState_Pod id s = closed
            /\ LookupPod id s = closed
            /\ HasPod id s = closed
            /\ SQLiteState_Volume id s = closed
            /\ LookupVolume id s = closed
            /\ (forall pod : Pod,
                  PodHasContainer id (s, pod)
                  = (inl (Sentinel define.ErrDBClosed), (s, pod))))
      /\ (forall ctr : Container,
            let closed {A} : (error + A) * (SQLiteState * Container) :=
              (inl (Sentinel define.ErrDBClosed), (s, ctr)) in
            AddContainer (s, ctr) = closed
            /\ RemoveContainer (s, ctr) = closed
            /\ UpdateContainer (s, ctr) = closed
            /\ SaveContainer (s, ctr) = closed
            /\ ContainerInUse (s, ctr) = closed
            /\ GetNetworks (s, ctr) = closed
            /\ (forall session, AddExecSession session (s, ctr) = closed)
            /\ GetContainerExecSessions (s, ctr) = closed
            /\ RemoveContainerExecSessions (s, ctr) = closed
            /\ (forall newCfg, RewriteContainerConfig newCfg (s, ctr) = closed)
            /\ (forall oldName newName newCfg,
                  SafeRewriteContainerConfig oldName newName newCfg (s, ctr)
                  = closed))
      /\ (forall pod : Pod,
            let closed {A} : (error + A) * (SQLiteState * Pod) :=
              (inl (Sentinel define.ErrDBClosed), (s, pod)) in
            (forall newCfg, RewritePodConfig newCfg (s, pod) = closed)
            /\ PodContainersByID (s, pod) = closed
            /\ PodContainers (s, pod) = closed
            /\ AddPod (s, pod) = closed
            /\ RemovePod (s, pod) = closed
            /\ RemovePodContainers (s, pod) = closed
            /\ UpdatePod (s, pod) = closed
            /\ SavePod (s, pod) = closed
            /\ (forall ctr : Container,
                  AddContainerToPod (s, (pod, ctr))
                  = (inl (Sentinel define.ErrDBClosed), (s, (pod, ctr)))
                  /\ RemoveContainerFromPod (s, (pod, ctr))
                     = (inl (Sentinel define.ErrDBClosed), (s, (pod, ctr)))))
      /\ (forall volume : Volume,
            let closed {A} : (error + A) * (SQLiteState * Volume) :=
              (inl (Sentinel define.ErrDBClosed), (s, volume)) in
            (forall newCfg, RewriteVolumeConfig newCfg (s, volume) = closed)
            /\ AddVolume (s, volume) = closed
            /\ RemoveVolume (s, volume) = closed
            /\ UpdateVolume (s, volume) = closed
            /\ SaveVolume (s, volume) = closed
            /\ VolumeInUse (s, volume) = closed)).
Proof.
  split; [| split].
  - intros s0 s1 E. unfold Close, set_valid, Conn_Close in E.
    revert E. go. pose proof (step_fault_store (conn s0)) as Hf.
    destruct (step_fault (conn s0)) as [bad c]. simpl in Hf.
    destruct bad; simpl; intro E; inversion E; subst.
    split; [reflexivity | exact Hf].
  - intros s0 e s1 E. unfold Close, set_valid, Conn_Close in E.
    revert E. go.
    destruct (step_fault (conn s0)) as [bad c].
    destruct bad; simpl; intro E; inversion E; subst. reflexivity.
  - intros s Hs closed. subst closed.
    cbv zeta.
    repeat (first [ match goal with |- _ /\ _ => split end | intro ];
            cbv zeta);
      try match goal with
          | Hid : String.eqb ?id "" = false |- _ =>
              pose proof (length_not_empty id Hid)
          end;
      unfold Refresh, GetDBConfig, ValidateDBConfig, PruneContainerExitCodes,
        GetExecSession, RemoveExecSession, AllPods, AllVolumes,
        GetContainerName, GetPodName, SQLiteState_Container, LookupContainerID,
        LookupContainer, GetContainerConfig, AddContainerExitCode,
        GetContainerExitCode, GetContainerExitCodeTimeStamp, SQLiteState_Pod,
        LookupPod, HasPod, SQLiteState_Volume, LookupVolume, PodHasContainer,
        AddContainer, RemoveContainer, UpdateContainer, SaveContainer,
        ContainerInUse, GetNetworks, AddExecSession, GetContainerExecSessions,
        RemoveContainerExecSessions, RewriteContainerConfig,
        SafeRewriteContainerConfig, RewritePodConfig, PodContainersByID,
        PodContainers, AddPod, RemovePod, RemovePodContainers, UpdatePod,
        SavePod, AddContainerToPod, RemoveContainerFromPod, RewriteVolumeConfig,
        AddVolume, RemoveVolume, UpdateVolume, SaveVolume, VolumeInUse,
        pod_stub;
      go;
      repeat (match goal with Hr : _ = false |- _ => rewrite Hr end; simpl);
      reflexivity.
Qed.

End FirstTests.

Section EmptyID.
Context {Hst : Host} {L : Libpod} {I : Internals} {F : Finalizers}.

(** X2.  The methods that are given an ID or a name refuse the empty one
    with ErrEmptyID before anything else: on every state, open or closed,
    the state is returned as it was.  GetExecSession tests the state
    first, so it says ErrEmptyID on an open state only. *)
Theorem empty_ID_refused (s : SQLiteState) :
  let empty {A} : (error + A) * SQLiteState :=
    (inl (Sentinel define.ErrEmptyID), s) in
  GetContainerName "" s = empty
  /\ GetPodName "" s = empty
  /\ SQLiteState_Container "" s = empty
  /\ LookupContainerID "" s = empty
  /\ LookupContainer "" s = empty
  /\ GetContainerConfig "" s = empty
  /\ (forall now code, AddContainerExitCode now "" code s = empty)
  /\ GetContainerExitCode "" s = empty
  /\ GetContainerExitCodeTimeStamp "" s = empty
  /\ SQLiteState_Pod "" s = empty
  /\ LookupPod "" s = empty
  /\ HasPod "" s = empty
  /\ SQLiteState_Volume "" s = empty
  /\ LookupVolume "" s = empty
  /\ (forall pod : Pod,
        PodHasContainer "" (s, pod)
        = (inl (Sentinel define.ErrEmptyID), (s, pod)))
  /\ GetExecSession "" s
     = (inl (Sentinel (if valid s then define.ErrEmptyID
                       else define.ErrDBClosed)), s).
Proof.
  cbv zeta.
  repeat match goal with |- _ /\ _ => split end; intros;
    try reflexivity.
  unfold GetExecSession. go. destruct (valid s); reflexivity.
Qed.

End EmptyID.

(** ** The configuration row *)

Lemma scan_strings_error (n : nat) (r : row) (e : error) :
  Scan_strings n r = inl e -> e = SqlError ScanError.
Proof.
  unfold Scan_strings.
  destruct (List.length r =? n)%nat; [| intro E; inversion E; reflexivity].
  assert (Hs : forall l e', sequence (map scan_string l) = inl e' -> e' = ScanError).
  { induction l as [| v l IH]; intros e' E; simpl in E; [discriminate E |].
    destruct v as [| z | t]; simpl in E.
    - inversion E. reflexivity.
    - destruct (sequence (map scan_string l)) as [e1 | l1];
        [apply IH; congruence | discriminate E].
    - destruct (sequence (map scan_string l)) as [e1 | l1];
        [apply IH; congruence | discriminate E]. }
  destruct (sequence (map scan_string r)) as [e1 | l1] eqn:Es; simpl;
    intro E; inversion E.
  rewrite (Hs r e1 Es). reflexivity.
Qed.

Lemma scan_texts (l : list string) :
  Scan_strings (List.length l) (map VText l) = inr l.
Proof.
  unfold Scan_strings. rewrite length_map, Nat.eqb_refl.
  induction l as [| t l IH]; [reflexivity |].
  simpl. destruct (sequence (map scan_string (map VText l))) as [e | l'];
    simpl in *; [discriminate IH | congruence].
Qed.

Section ConfigRow.
Context {Hst : Host}.

(** GetDBConfig on an open store whose driver does not fail. *)
Lemma GetDBConfig_runs db pd tr rt :
  fst (GetDBConfig (mkSQLiteState true (mkConn db pd [] tr) rt))
  = match DBConfig_rows db with
    | [] => inr new_DBConfig
    | r :: _ =>
        match Scan_strings 6 [col 3 r; col 4 r; col 5 r; col 6 r; col 7 r; col 8 r] with
        | inl _ => inl (Errorf "retrieving DB config: %w" [] (SqlError ScanError))
        | inr cols =>
            inr (mkDBConfig (nth 0 cols "") (nth 1 cols "") (nth 2 cols "")
                   (nth 3 cols "") (nth 4 cols "") (nth 5 cols ""))
        end
    end.
Proof.
  unfold GetDBConfig. go. rewrite Conn_Query_GetDBConfig.
  destruct (DBConfig_rows db) as [| r rs]; [reflexivity |].
  cbn [map fst snd Row_Scan].
  destruct (Scan_strings 6 [col 3 r; col 4 r; col 5 r; col 6 r; col 7 r; col 8 r])
    as [e | cols] eqn:Es; [| reflexivity].
  rewrite (scan_strings_error _ _ Es). reflexivity.
Qed.

Opaque runtime_values.

(** ValidateDBConfig on an open store with no configuration row. *)
Lemma ValidateDBConfig_records db pd tr rt given opts :
  DefaultStoreOptions IsRootless GetRootlessUID = inr opts ->
  DBConfig_rows db = [] ->
  let s := mkSQLiteState true (mkConn db pd [] tr) rt in
  ValidateDBConfig given s
  = (inr tt,
     mkSQLiteState true
       (mkConn
          (set_rows T_DBConfig
             [VInt 1 :: VInt schemaVersion :: map VText (runtime_values s opts)] db)
          None []
          (createRow
           :: "SELECT Os, StaticDir, TmpDir, GraphRoot, RunRoot, GraphDriver, VolumeDir FROM DBConfig;"
           :: tr)) rt).
Proof.
  intros Ho Hrows s. subst s.
  pose proof (runtime_values_length (mkSQLiteState true (mkConn db pd [] tr) rt) opts)
    as Hlen.
  unfold ValidateDBConfig. go. rewrite Ho. simpl.
  remember (runtime_values (mkSQLiteState true (mkConn db pd [] tr) rt) opts)
    as live eqn:El.
  destruct live as [| l0 [| l1 [| l2 [| l3 [| l4 [| l5 [| l6 [| l7 live]]]]]]]];
    try discriminate Hlen.
  clear Hlen El. simpl. rewrite Conn_Query_DBConfig, Hrows. simpl.
  rewrite Tx_Exec_createRow by exact Hrows. reflexivity.
Qed.

(** ValidateDBConfig on an open store whose first configuration row holds
    the values of the running process. *)
Lemma ValidateDBConfig_accepts db pd tr rt given opts (a b : value) rest :
  DefaultStoreOptions IsRootless GetRootlessUID = inr opts ->
  let s := mkSQLiteState true (mkConn db pd [] tr) rt in
  DBConfig_rows db = (a :: b :: map VText (runtime_values s opts)) :: rest ->
  ValidateDBConfig given s
  = (inr tt,
     mkSQLiteState true
       (mkConn db pd []
          ("SELECT Os, StaticDir, TmpDir, GraphRoot, RunRoot, GraphDriver, VolumeDir FROM DBConfig;"
           :: tr)) rt).
Proof.
  intros Ho s. subst s.
  pose proof (runtime_values_length (mkSQLiteState true (mkConn db pd [] tr) rt) opts)
    as Hlen.
  unfold ValidateDBConfig. go. rewrite Ho. simpl.
  remember (runtime_values (mkSQLiteState true (mkConn db pd [] tr) rt) opts)
    as live eqn:El.
  destruct live as [| l0 [| l1 [| l2 [| l3 [| l4 [| l5 [| l6 [| l7 live]]]]]]]];
    try discriminate Hlen.
  clear Hlen El. intro Hrows. simpl. rewrite Conn_Query_DBConfig, Hrows. simpl.
  unfold checkField. rewrite !String.eqb_refl. reflexivity.
Qed.

Transparent runtime_values.

(** X6.  On an open store whose driver does not fail, GetDBConfig reads
    the first configuration row: with no row it returns the empty
    configuration and no error; with a row it returns its static dir, tmp
    dir, graph root, run root, graph driver and volume dir as LibpodRoot,
    LibpodTmp, StorageRoot, StorageTmp, GraphDriver and VolumePath, and
    fails when one of the six is NULL. *)
Theorem GetDBConfig_reads_the_row (s : SQLiteState) :
  valid s = true ->
  faults (conn s) = [] ->
  let rows := DBConfig_rows (store (conn s)) in
  (rows = [] -> fst (GetDBConfig s) = inr new_DBConfig)
  /\ (forall (a b os : value) (f0 f1 f2 f3 f4 f5 : string) (rest : list row),
        rows = (a :: b :: os :: map VText [f0; f1; f2; f3; f4; f5]) :: rest ->
        fst (GetDBConfig s) = inr (mkDBConfig f0 f1 f2 f3 f4 f5))
  /\ (forall (r : row) (rest : list row),
        rows = r :: rest ->
        forallb (fun i => not_null i r) [3; 4; 5; 6; 7; 8]%nat = false ->
        fst (GetDBConfig s)
        = inl (Errorf "retrieving DB config: %w" [] (SqlError ScanError))).
Proof.
  destruct s as [v [db pd fl tr] rt]. simpl. intros Hv Hf. subst v fl.
  rewrite GetDBConfig_runs.
  split; [| split].
  - intro Hrows. rewrite Hrows. reflexivity.
  - intros a b os f0 f1 f2 f3 f4 f5 rest Hrows. rewrite Hrows. reflexivity.
  - intros r rest Hrows Hnull. rewrite Hrows.
    unfold Scan_strings, not_null in *. simpl in *.
    destruct (col 3 r); simpl in *; try reflexivity;
      destruct (col 4 r); simpl in *; try reflexivity;
      destruct (col 5 r); simpl in *; try reflexivity;
      destruct (col 6 r); simpl in *; try reflexivity;
      destruct (col 7 r); simpl in *; try reflexivity;
      destruct (col 8 r); simpl in *; try reflexivity;
      discriminate Hnull.
Qed.

(** X7.  On an open store with no configuration row, the driver not
    failing and the storage defaults being available: after
    ValidateDBConfig has recorded the configuration, GetDBConfig returns
    the cleaned static dir, tmp dir and volume path of the runtime of the
    state object; its cleaned graph root and run root, or the one of the
    storage defaults should the cleaned path be empty; its graph driver,
    or the default driver when it is empty.  Where the cleaning of a path
    never gives the empty text (that of Go gives a dot for it), the
    defaults of the graph root and of the run root are never used.  A
    second ValidateDBConfig succeeds and changes no row.  The runtime
    given as argument plays no part: the method reads the runtime of the
    state object. *)
Theorem ValidateDBConfig_then_GetDBConfig
  (s : SQLiteState) (given : Runtime) (opts : StoreOptions) :
  valid s = true ->
  faults (conn s) = [] ->
  DefaultStoreOptions IsRootless GetRootlessUID = inr opts ->
  DBConfig_rows (store (conn s)) = [] ->
  let staticDir := filepath_Clean (StaticDir (runtime s)) in
  let tmpDir := filepath_Clean (TmpDir (runtime s)) in
  let graphRoot := filepath_Clean (GraphRoot (StorageConfig (runtime s))) in
  let runRoot := filepath_Clean (RunRoot (StorageConfig (runtime s))) in
  let graphDriver := GraphDriverName (StorageConfig (runtime s)) in
  let driver := if String.eqb graphDriver "" then GraphDriverName opts
                else graphDriver in
  let volumePath := filepath_Clean (VolumePath (runtime s)) in
  let s1 := snd (ValidateDBConfig given s) in
  fst (GetDBConfig s1)
  = inr (mkDBConfig staticDir tmpDir
           (if String.eqb graphRoot "" then GraphRoot opts else graphRoot)
           (if String.eqb runRoot "" then RunRoot opts else runRoot)
           driver volumePath)
  /\ ((forall p, filepath_Clean p <> "") ->
      fst (GetDBConfig s1)
      = inr (mkDBConfig staticDir tmpDir graphRoot runRoot driver volumePath))
  /\ fst (ValidateDBConfig given s1) = inr tt
  /\ store (conn (snd (ValidateDBConfig given s1))) = store (conn s1)
  /\ (forall other : Runtime,
        ValidateDBConfig other s = ValidateDBConfig given s).
Proof.
  destruct s as [v [db pd fl tr] rt]. simpl. intros Hv Hf Ho Hrows. subst v fl.
  rewrite (ValidateDBConfig_records db pd tr rt given Ho Hrows). simpl.
  split; [| split; [| split; [| split]]].
  - rewrite GetDBConfig_runs. reflexivity.
  - intro Hclean. rewrite GetDBConfig_runs. simpl.
    destruct (String.eqb_spec (filepath_Clean (GraphRoot (StorageConfig rt))) "")
      as [E | _]; [exfalso; exact (Hclean _ E) |].
    destruct (String.eqb_spec (filepath_Clean (RunRoot (StorageConfig rt))) "")
      as [E | _]; [exfalso; exact (Hclean _ E) |].
    reflexivity.
  - erewrite (@ValidateDBConfig_accepts _ _ _ _ given opts (VInt 1) (VInt schemaVersion) []
               Ho); reflexivity.
  - erewrite (@ValidateDBConfig_accepts _ _ _ _ given opts (VInt 1) (VInt schemaVersion) []
               Ho); reflexivity.
  - intro other.
    rewrite (ValidateDBConfig_records db pd tr rt other Ho Hrows). reflexivity.
Qed.

End ConfigRow.

(** ** Names *)

Lemma scan_string_error (v : value) (e : sql_error) :
  scan_string v = inl e -> e = ScanError.
Proof. destruct v; simpl; intro E; inversion E; reflexivity. Qed.

(** [Scan] of a one-column row into one string. *)
Lemma Scan_string_one (v : value) :
  Scan_string [v]
  = match scan_string v with
    | inl _ => inl (SqlError ScanError)
    | inr t => inr t
    end.
Proof. destruct v; reflexivity. Qed.

Section Names.

Lemma GetContainerName_runs db pd tr rt id :
  String.eqb id "" = false ->
  fst (GetContainerName id (mkSQLiteState true (mkConn db pd [] tr) rt))
  = match filter (named 0 id) (ContainerConfig_rows db) with
    | [] => inl (Sentinel define.ErrNoSuchCtr)
    | r :: _ =>
        match scan_string (col 1 r) with
        | inl _ => inl (Errorf "looking up container %s name: %w" [id]
                          (SqlError ScanError))
        | inr name => inr name
        end
    end.
Proof.
  intro Hid. unfold GetContainerName. go. rewrite Hid. simpl.
  rewrite Conn_Query_ContainerName.
  destruct (filter (named 0 id) (ContainerConfig_rows db)) as [| r rs];
    [reflexivity |].
  cbn [map fst snd Row_Scan]. rewrite Scan_string_one.
  destruct (scan_string (col 1 r)); reflexivity.
Qed.

Lemma GetPodName_runs db pd tr rt id :
  String.eqb id "" = false ->
  fst (GetPodName id (mkSQLiteState true (mkConn db pd [] tr) rt))
  = match filter (named 0 id) (PodConfig_rows db) with
    | [] => inl (Sentinel define.ErrNoSuchPod)
    | r :: _ =>
        match scan_string (col 1 r) with
        | inl _ => inl (Errorf "looking up pod %s name: %w" [id]
                          (SqlError ScanError))
        | inr name => inr name
        end
    end.
Proof.
  intro Hid. unfold GetPodName. go. rewrite Hid. simpl.
  rewrite Conn_Query_PodName.
  destruct (filter (named 0 id) (PodConfig_rows db)) as [| r rs];
    [reflexivity |].
  cbn [map fst snd Row_Scan]. rewrite Scan_string_one.
  destruct (scan_string (col 1 r)); reflexivity.
Qed.

(** X8.  On an open store whose driver does not fail, for an ID that is
    not empty: GetContainerName returns the Name of the container row of
    that ID, and fails with ErrNoSuchCtr (not wrapped) when no container
    row has the ID; GetPodName does the same on the pod rows, with
    ErrNoSuchPod.  A row of another ID is never read, whatever its place
    in the table. *)
Theorem names_by_ID (s : SQLiteState) (id : string) :
  valid s = true ->
  faults (conn s) = [] ->
  String.eqb id "" = false ->
  let db := store (conn s) in
  (existsb (named 0 id) (ContainerConfig_rows db) = false ->
     fst (GetContainerName id s) = inl (Sentinel define.ErrNoSuchCtr))
  /\ (forall before name rest after,
        ContainerConfig_rows db
        = before ++ (VText id :: VText name :: rest) :: after ->
        existsb (named 0 id) before = false ->
        fst (GetContainerName id s) = inr name)
  /\ (existsb (named 0 id) (PodConfig_rows db) = false ->
        fst (GetPodName id s) = inl (Sentinel define.ErrNoSuchPod))
  /\ (forall before name rest after,
        PodConfig_rows db
        = before ++ (VText id :: VText name :: rest) :: after ->
        existsb (named 0 id) before = false ->
        fst (GetPodName id s) = inr name).
Proof.
  destruct s as [v [db pd fl tr] rt]. simpl. intros Hv Hf Hid. subst v fl.
  assert (Hsel : forall before name rest after,
            existsb (named 0 id) before = false ->
            filter (named 0 id)
              (before ++ (VText id :: VText name :: rest) :: after)
            = (VText id :: VText name :: rest) :: filter (named 0 id) after).
  { intros before name rest after Hb.
    rewrite filter_app, (existsb_named_filter _ _ Hb). simpl.
    unfold named at 1. simpl. rewrite String.eqb_refl. reflexivity. }
  rewrite GetContainerName_runs, GetPodName_runs by exact Hid.
  repeat split.
  - intro Hnone. rewrite (existsb_named_filter _ _ Hnone). reflexivity.
  - intros before name rest after Hrows Hb. rewrite Hrows, Hsel by exact Hb.
    reflexivity.
  - intro Hnone. rewrite (existsb_named_filter _ _ Hnone). reflexivity.
  - intros before name rest after Hrows Hb. rewrite Hrows, Hsel by exact Hb.
    reflexivity.
Qed.

End Names.

(** ** Rows added and removed *)

Lemma set_rows_twice (t : table) (rs rs' : list row) (db : DB) :
  set_rows t rs (set_rows t rs' db) = set_rows t rs db.
Proof. destruct t; reflexivity. Qed.

Lemma set_rows_rows (t : table) (rs : list row) (db : DB) :
  rows_of t (set_rows t rs db) = rs.
Proof. destruct t; reflexivity. Qed.

(** The rows of key [id], once a row of that key is added to rows that
    hold none. *)
Lemma filter_fresh (id : string) (rest : row) (rs : list row) :
  filter (named 0 id) rs = [] ->
  filter (named 0 id) (rs ++ [VText id :: rest]) = [VText id :: rest].
Proof.
  intro H. rewrite filter_app, H. simpl.
  unfold named. simpl. rewrite String.eqb_refl. reflexivity.
Qed.

Lemma without_fresh (id : string) (rest : row) (rs : list row) :
  filter (named 0 id) rs = [] ->
  without id (rs ++ [VText id :: rest]) = rs.
Proof.
  intro H. unfold without. rewrite filter_app.
  fold (without id rs). rewrite (without_none _ _ H). simpl.
  unfold named. simpl. rewrite String.eqb_refl. simpl.
  apply app_nil_r.
Qed.

(** The rows that stay are the rows of another key, in their order. *)
Lemma without_keeps (id : string) (rs : list row) (r : row) :
  In r (without id rs) <-> In r rs /\ named 0 id r = false.
Proof.
  unfold without. rewrite filter_In. rewrite negb_true_iff. reflexivity.
Qed.

(** ** Exec sessions *)

Section ExecSessions.
Context {L : Libpod}.

Lemma AddExecSession_runs db pd tr rt (ctr : Container) (session : ExecSession) :
  ctr_valid ctr = true ->
  let q := "INSERT INTO ContainerExecSession VALUES (?, ?);" in
  AddExecSession session (mkSQLiteState true (mkConn db pd [] tr) rt, ctr)
  = if existsb (named 0 (Id session)) (ContainerExecSession_rows db)
    then (inl (Errorf "adding container %s exec session %s to database: %w"
                 [Container_ID ctr; Id session]
                 (SqlError (UniqueConstraint "ContainerExecSession"))),
          (mkSQLiteState true (mkConn db None [] (q :: tr)) rt, ctr))
    else (inr tt,
          (mkSQLiteState true
             (mkConn
                (set_rows T_ContainerExecSession
                   (ContainerExecSession_rows db
                    ++ [[VText (Id session); VText (Container_ID ctr)]]) db)
                None [] (q :: tr)) rt,
           ctr)).
Proof.
  intros Hc q. subst q. unfold AddExecSession. go. rewrite Hc. simpl.
  rewrite Tx_Exec_insert_session.
  destruct (existsb (named 0 (Id session)) (ContainerExecSession_rows db));
    reflexivity.
Qed.

Lemma GetExecSession_runs db pd tr rt id :
  String.eqb id "" = false ->
  fst (GetExecSession id (mkSQLiteState true (mkConn db pd [] tr) rt))
  = match filter (named 0 id) (ContainerExecSession_rows db) with
    | [] => inl (Errorf "no exec session with ID %s found: %w" [id]
                   define.ErrNoSuchExecSession)
    | r :: _ =>
        match scan_string (col 1 r) with
        | inl _ => inl (Errorf "retrieving exec session %s from database: %w"
                          [id] (SqlError ScanError))
        | inr ctrID => inr ctrID
        end
    end.
Proof.
  intro Hid. unfold GetExecSession. go. rewrite Hid. simpl.
  rewrite Conn_Query_session_container.
  destruct (filter (named 0 id) (ContainerExecSession_rows db)) as [| r rs];
    [reflexivity |].
  cbn [map fst snd Row_Scan]. rewrite Scan_string_one.
  destruct (scan_string (col 1 r)); reflexivity.
Qed.

Lemma RemoveExecSession_runs db pd tr rt (session : ExecSession) :
  let q := "DELETE FROM ContainerExecSession WHERE ID=?;" in
  let rows := ContainerExecSession_rows db in
  RemoveExecSession session (mkSQLiteState true (mkConn db pd [] tr) rt)
  = match filter (named 0 (Id session)) rows with
    | [] => (inl (Sentinel define.ErrNoSuchExecSession),
             mkSQLiteState true (mkConn db None [] (q :: tr)) rt)
    | _ :: _ =>
        (inr tt,
         mkSQLiteState true
           (mkConn
              (set_rows T_ContainerExecSession (without (Id session) rows) db)
              None [] (q :: tr)) rt)
    end.
Proof.
  intros q rows. subst q rows. unfold RemoveExecSession. go.
  rewrite Tx_Exec_delete_session. simpl.
  destruct (filter (named 0 (Id session)) (ContainerExecSession_rows db));
    reflexivity.
Qed.

Lemma GetContainerExecSessions_runs db pd tr rt (ctr : Container) :
  ctr_valid ctr = true ->
  forallb (not_null 0)
    (filter (named 1 (Container_ID ctr)) (ContainerExecSession_rows db)) = true ->
  fst (GetContainerExecSessions (mkSQLiteState true (mkConn db pd [] tr) rt, ctr))
  = inr (map (fun r => text_of (col 0 r))
             (filter (named 1 (Container_ID ctr)) (ContainerExecSession_rows db))).
Proof.
  intros Hc Hn. unfold GetContainerExecSessions. go. rewrite Hc. simpl.
  rewrite Conn_Query_container_sessions. simpl.
  rewrite gather_texts by exact Hn. reflexivity.
Qed.

(** X14.  On an open store whose driver does not fail, for a live
    container that has its config row (the row the session row refers to)
    and a session whose ID (not empty) is on no session row:
    AddExecSession succeeds and adds the one row (session ID, container
    ID) after the others; after it GetExecSession of the session ID
    returns the ID of the container, and GetContainerExecSessions of the
    container returns the sessions it returned before followed by the new
    one. *)
Theorem AddExecSession_then_get
  (s : SQLiteState) (ctr : Container) (session : ExecSession) :
  valid s = true ->
  faults (conn s) = [] ->
  ctr_valid ctr = true ->
  existsb (named 0 (Container_ID ctr))
    (ContainerConfig_rows (store (conn s))) = true ->
  String.eqb (Id session) "" = false ->
  let rows := ContainerExecSession_rows (store (conn s)) in
  filter (named 0 (Id session)) rows = [] ->
  forallb (not_null 0) rows = true ->
  let r := AddExecSession session (s, ctr) in
  let s1 := fst (snd r) in
  fst r = inr tt
  /\ snd (snd r) = ctr
  /\ store (conn s1)
     = set_rows T_ContainerExecSession
         (rows ++ [[VText (Id session); VText (Container_ID ctr)]])
         (store (conn s))
  /\ fst (GetExecSession (Id session) s1) = inr (Container_ID ctr)
  /\ (exists before,
        fst (GetContainerExecSessions (s, ctr)) = inr before
        /\ fst (GetContainerExecSessions (s1, ctr))
           = inr (before ++ [Id session])).
Proof.
  destruct s as [v [db pd fl tr] rt]. simpl.
  intros Hv Hf Hc Hrow Hid Hfresh Hn. subst v fl.
  rewrite (AddExecSession_runs db pd tr rt ctr session Hc).
  rewrite (filter_named_existsb _ _ Hfresh). simpl.
  split; [reflexivity |]. split; [reflexivity |]. split; [reflexivity |].
  split.
  - rewrite GetExecSession_runs by exact Hid. simpl.
    rewrite (filter_fresh _ _ _ Hfresh). reflexivity.
  - eexists. split.
    + apply GetContainerExecSessions_runs; [exact Hc |].
      apply forallb_filter. exact Hn.
    + rewrite GetContainerExecSessions_runs; [| exact Hc |].
      * simpl. rewrite filter_app, map_app. simpl.
        unfold named at 2. simpl. rewrite String.eqb_refl. reflexivity.
      * simpl. apply forallb_filter. rewrite forallb_app, Hn. reflexivity.
Qed.

(** X15.  On an open store whose driver does not fail, RemoveExecSession
    looks at the number of rows its DELETE affected: when no session row
    has the ID of the session it fails with ErrNoSuchExecSession (not
    wrapped) and the committed rows are what they were; otherwise it
    succeeds and the session rows are the former ones without those of
    that ID, the rows of other sessions kept in their order and every
    other table untouched.  Either way no transaction stays open. *)
Theorem RemoveExecSession_checks_rows_affected
  (s : SQLiteState) (session : ExecSession) :
  valid s = true ->
  faults (conn s) = [] ->
  let db := store (conn s) in
  let rows := ContainerExecSession_rows db in
  let r := RemoveExecSession session s in
  pending (conn (snd r)) = None
  /\ (existsb (named 0 (Id session)) rows = false ->
      fst r = inl (Sentinel define.ErrNoSuchExecSession)
      /\ store (conn (snd r)) = db)
  /\ (existsb (named 0 (Id session)) rows = true ->
      fst r = inr tt
      /\ store (conn (snd r))
         = set_rows T_ContainerExecSession (without (Id session) rows) db
      /\ (forall row, In row (without (Id session) rows)
                      <-> In row rows /\ named 0 (Id session) row = false)).
Proof.
  destruct s as [v [db pd fl tr] rt]. simpl. intros Hv Hf. subst v fl.
  rewrite RemoveExecSession_runs.
  destruct (filter (named 0 (Id session)) (ContainerExecSession_rows db))
    as [| r0 rs] eqn:Ef; simpl.
  - split; [reflexivity |].
    rewrite (filter_named_existsb _ _ Ef).
    split; [intros _; split; reflexivity | intro H; discriminate H].
  - split; [reflexivity |]. split.
    + intro Hnone. rewrite (existsb_named_filter _ _ Hnone) in Ef.
      discriminate Ef.
    + intros _. split; [reflexivity |]. split; [reflexivity |].
      intro row. apply without_keeps.
Qed.

(** X16.  On an open store whose driver does not fail, for a live
    container that has its config row (the row the session row refers to)
    and a session whose ID is on no session row: AddExecSession followed
    by RemoveExecSession of the same session gives back the committed rows
    of before, and a second RemoveExecSession fails with
    ErrNoSuchExecSession. *)
Theorem AddExecSession_then_remove
  (s : SQLiteState) (ctr : Container) (session : ExecSession) :
  valid s = true ->
  faults (conn s) = [] ->
  ctr_valid ctr = true ->
  existsb (named 0 (Container_ID ctr))
    (ContainerConfig_rows (store (conn s))) = true ->
  filter (named 0 (Id session))
    (ContainerExecSession_rows (store (conn s))) = [] ->
  let s1 := fst (snd (AddExecSession session (s, ctr))) in
  let r2 := RemoveExecSession session s1 in
  fst (AddExecSession session (s, ctr)) = inr tt
  /\ fst r2 = inr tt
  /\ store (conn (snd r2)) = store (conn s)
  /\ fst (RemoveExecSession session (snd r2))
     = inl (Sentinel define.ErrNoSuchExecSession).
Proof.
  destruct s as [v [db pd fl tr] rt]. simpl.
  intros Hv Hf Hc Hrow Hfresh. subst v fl.
  rewrite (AddExecSession_runs db pd tr rt ctr session Hc).
  rewrite (filter_named_existsb _ _ Hfresh). simpl.
  split; [reflexivity |].
  rewrite RemoveExecSession_runs. simpl.
  rewrite (filter_fresh _ _ _ Hfresh). simpl.
  split; [reflexivity |].
  rewrite (without_fresh _ _ _ Hfresh), set_rows_twice.
  change (ContainerExecSession_rows db) with (rows_of T_ContainerExecSession db).
  rewrite set_rows_same.
  split; [reflexivity |].
  rewrite RemoveExecSession_runs. simpl. rewrite Hfresh. reflexivity.
Qed.

(** X17.  RemoveContainerExecSessions never removes anything: its DELETE
    names the table ContainerExecSessions, which does not exist.  Whatever
    the store, the handle and the driver, the call ends with an error and
    the committed rows are what they were; on an open store whose driver
    does not fail, for a live container, the error is the refusal of the
    statement for the missing table, the session rows of the container
    are all still there, the handle stays live and the transaction is
    rolled back. *)
Theorem RemoveContainerExecSessions_never_succeeds :
  (forall w : SQLiteState * Container,
     exists e, fst (RemoveContainerExecSessions w) = inl e
               /\ store (conn (fst (snd (RemoveContainerExecSessions w))))
                  = store (conn (fst w)))
  /\ (forall (s : SQLiteState) (ctr : Container),
        valid s = true -> faults (conn s) = [] -> ctr_valid ctr = true ->
        let r := RemoveContainerExecSessions (s, ctr) in
        fst r
        = inl (Errorf "removing container %s exec sessions from database: %w"
                 [Container_ID ctr]
                 (SqlError (NoSuchTable "ContainerExecSessions")))
        /\ filter (named 1 (Container_ID ctr))
             (ContainerExecSession_rows (store (conn (fst (snd r)))))
           = filter (named 1 (Container_ID ctr))
               (ContainerExecSession_rows (store (conn s)))
        /\ pending (conn (fst (snd r))) = None
        /\ snd (snd r) = ctr).
Proof.
  split.
  - intro w.
    destruct (RemoveContainerExecSessions w) as [[e | []] w'] eqn:E.
    + exists e. split; [reflexivity |].
      assert (Hc : fails_clean RemoveContainerExecSessions)
        by (unfold RemoveContainerExecSessions; clean_body).
      exact (Hc w e w' E).
    + exfalso. unfold RemoveContainerExecSessions in E.
      apply bind_inr in E. destruct E as [s [w0 [_ E]]].
      apply bind_inr in E. destruct E as [u0 [w1 [_ E]]].
      apply bind_inr in E. destruct E as [ctr [w2 [_ E]]].
      apply bind_inr in E. destruct E as [u1 [w3 [_ E]]].
      apply bind_inr in E. destruct E as [u2 [w4 [_ E]]].
      apply defer_rollback_inr in E.
      apply bind_inr in E. destruct E as [rows [w5 [E _]]].
      apply or_wrap_inr in E. unfold tx_Exec, driver in E.
      destruct (Tx_Exec_no_such_table [VText (Container_ID ctr)]
                  (conn (the_state w4))) as [e He].
      destruct (Tx_Exec "DELETE FROM ContainerExecSessions WHERE ContainerID=?;"
                  [VText (Container_ID ctr)] (conn (the_state w4))) as [r c].
      simpl in He. subst r. discriminate E.
  - intros s ctr Hv Hf Hc.
    destruct s as [v [db pd fl tr] rt]. simpl in Hv, Hf. subst v fl.
    unfold RemoveContainerExecSessions.
    go. rewrite Hc. simpl.
    rewrite Tx_Exec_delete_ContainerExecSessions. simpl.
    repeat split.
Qed.

End ExecSessions.

(** ** The state of a container *)

Lemma named_set_col (id : string) (v : value) (r : row) :
  named 0 id r = true ->
  named 0 id (set_col 1 v r) = true /\ col 1 (set_col 1 v r) = v.
Proof.
  destruct r as [| k r]; [discriminate |]. intro H. split; [exact H | reflexivity].
Qed.

Lemma with_json_filter (id json : string) (rs : list row) :
  filter (named 0 id) (with_json id json rs)
  = map (set_col 1 (VText json)) (filter (named 0 id) rs).
Proof.
  unfold with_json. induction rs as [| r rs IH]; [reflexivity |].
  simpl. destruct (named 0 id r) eqn:E; simpl.
  - rewrite (proj1 (named_set_col id (VText json) r E)). rewrite IH. reflexivity.
  - rewrite E. exact IH.
Qed.

Lemma named_head (id : string) (rest : row) :
  named 0 id (VText id :: rest) = true.
Proof. unfold named. simpl. apply String.eqb_refl. Qed.

(** The first row of key [id] is the one selected first. *)
Lemma filter_first (id : string) (before : list row) (rest : row)
  (after : list row) :
  existsb (named 0 id) before = false ->
  filter (named 0 id) (before ++ (VText id :: rest) :: after)
  = (VText id :: rest) :: filter (named 0 id) after.
Proof.
  intro Hb. rewrite filter_app, (existsb_named_filter _ _ Hb).
  simpl. rewrite named_head. reflexivity.
Qed.

Section ContainerState.
Context {L : Libpod} {I : Internals}.

Lemma UpdateContainer_runs db pd tr rt (ctr : Container) :
  ctr_valid ctr = true ->
  let id := Container_ID ctr in
  let s' := mkSQLiteState true
              (mkConn db pd []
                 ("SELECT JSON FROM ContainerState WHERE ID=?;" :: tr)) rt in
  UpdateContainer (mkSQLiteState true (mkConn db pd [] tr) rt, ctr)
  = match filter (named 0 id) (ContainerState_rows db) with
    | [] =>
        (inl (Errorf "no container with ID %s found in database: %w" [id]
                define.ErrNoSuchCtr),
         (s', set_ctr_valid false ctr))
    | r :: _ =>
        let rawJSON :=
          match scan_string (col 1 r) with inl _ => "" | inr t => t end in
        match json_Unmarshal rawJSON new_ContainerState with
        | inl e =>
            (inl (Errorf "unmarshalling container %s state JSON: %w" [id] e),
             (s', ctr))
        | inr st => (inr tt, (s', set_ctr_state st ctr))
        end
    end.
Proof.
  intros Hc id s'. subst id s'. unfold UpdateContainer. go. rewrite Hc. simpl.
  rewrite Conn_Query_ContainerState.
  destruct (filter (named 0 (Container_ID ctr)) (ContainerState_rows db))
    as [| r rs]; [reflexivity |].
  cbn [map fst snd Row_Scan]. rewrite Scan_string_one.
  destruct (scan_string (col 1 r)) as [e | t] eqn:Es; simpl.
  - destruct (json_Unmarshal "" new_ContainerState); reflexivity.
  - destruct (json_Unmarshal t new_ContainerState); reflexivity.
Qed.

Lemma SaveContainer_runs db pd tr rt (ctr : Container) (stateJSON : string) :
  ctr_valid ctr = true ->
  json_Marshal (state ctr) = inr stateJSON ->
  let id := Container_ID ctr in
  let q := "UPDATE ContainerState SET JSON=? WHERE ID=?;" in
  SaveContainer (mkSQLiteState true (mkConn db pd [] tr) rt, ctr)
  = match filter (named 0 id) (ContainerState_rows db) with
    | [] =>
        (inl (Sentinel define.ErrNoSuchCtr),
         (mkSQLiteState true (mkConn db None [] (q :: tr)) rt,
          set_ctr_valid false ctr))
    | _ :: _ =>
        (inr tt,
         (mkSQLiteState true
            (mkConn
               (set_rows T_ContainerState
                  (with_json id stateJSON (ContainerState_rows db)) db)
               None [] (q :: tr)) rt,
          ctr))
    end.
Proof.
  intros Hc Hm id q. subst id q. unfold SaveContainer. go.
  rewrite Hc. simpl. rewrite Hm. simpl.
  rewrite Tx_Exec_update_ContainerState. simpl.
  destruct (filter (named 0 (Container_ID ctr)) (ContainerState_rows db));
    reflexivity.
Qed.

(** X10.  On an open store whose driver does not fail, for a live
    handle: when no state row has the ID of the container, UpdateContainer
    marks the handle invalid and fails with an error that wraps
    ErrNoSuchCtr; otherwise it decodes the JSON of the first state row of
    that ID (a NULL is read as the empty text) and, when the decoding
    succeeds, puts the decoded state in the handle and leaves the handle
    live; when the decoding fails the handle is unchanged.  The committed
    rows are never changed. *)
Theorem UpdateContainer_reads_the_state (s : SQLiteState) (ctr : Container) :
  valid s = true ->
  faults (conn s) = [] ->
  ctr_valid ctr = true ->
  let id := Container_ID ctr in
  let rows := ContainerState_rows (store (conn s)) in
  let r := UpdateContainer (s, ctr) in
  store (conn (fst (snd r))) = store (conn s)
  /\ (existsb (named 0 id) rows = false ->
      (exists e, fst r = inl e /\ errors_Is e define.ErrNoSuchCtr = true)
      /\ snd (snd r) = set_ctr_valid false ctr)
  /\ (forall (before : list row) (json : value) (rest : row) (after : list row),
        rows = before ++ (VText id :: json :: rest) :: after ->
        existsb (named 0 id) before = false ->
        let rawJSON := text_of json in
        (forall st, json_Unmarshal rawJSON new_ContainerState = inr st ->
           fst r = inr tt /\ snd (snd r) = set_ctr_state st ctr)
        /\ (forall e, json_Unmarshal rawJSON new_ContainerState = inl e ->
              fst r = inl (Errorf "unmarshalling container %s state JSON: %w"
                             [id] e)
              /\ snd (snd r) = ctr)).
Proof.
  destruct s as [v [db pd fl tr] rt]. simpl. intros Hv Hf Hc. subst v fl.
  rewrite (UpdateContainer_runs db pd tr rt ctr Hc).
  split; [| split].
  - destruct (filter (named 0 (Container_ID ctr)) (ContainerState_rows db))
      as [| r rs]; [reflexivity |].
    cbv zeta.
    destruct (json_Unmarshal
                match scan_string (col 1 r) with inl _ => "" | inr t => t end
                new_ContainerState); reflexivity.
  - intro Hnone. rewrite (existsb_named_filter _ _ Hnone). simpl.
    split; [eexists; split; reflexivity | reflexivity].
  - intros before json rest after Hrows Hb.
    rewrite Hrows, filter_first by exact Hb.
    destruct json as [| z | t]; simpl;
      (split;
       [ intros st Hst; rewrite Hst; split; reflexivity
       | intros e He; rewrite He; split; reflexivity ]).
Qed.

(** X11.  On an open store whose driver does not fail: when SaveContainer
    of a live handle succeeds, UpdateContainer of any live handle of the
    same container ID then reads back the state that was saved, decoded
    from the JSON text that SaveContainer encoded. *)
Theorem SaveContainer_then_UpdateContainer
  (s : SQLiteState) (ctr other : Container) (stateJSON : string) :
  valid s = true ->
  faults (conn s) = [] ->
  ctr_valid ctr = true ->
  ctr_valid other = true ->
  Container_ID other = Container_ID ctr ->
  json_Marshal (state ctr) = inr stateJSON ->
  fst (SaveContainer (s, ctr)) = inr tt ->
  let s1 := fst (snd (SaveContainer (s, ctr))) in
  let r := UpdateContainer (s1, other) in
  match json_Unmarshal stateJSON new_ContainerState with
  | inr st => fst r = inr tt /\ snd (snd r) = set_ctr_state st other
  | inl e =>
      fst r = inl (Errorf "unmarshalling container %s state JSON: %w"
                     [Container_ID ctr] e)
      /\ snd (snd r) = other
  end.
Proof.
  destruct s as [v [db pd fl tr] rt]. simpl.
  intros Hv Hf Hc Ho Hid Hm. subst v fl.
  rewrite (SaveContainer_runs db pd tr rt ctr Hc Hm).
  destruct (filter (named 0 (Container_ID ctr)) (ContainerState_rows db))
    as [| r0 rs] eqn:Ef; simpl; [intro H; discriminate H | intros _].
  rewrite (UpdateContainer_runs _ _ _ rt other Ho). simpl.
  rewrite Hid, with_json_filter, Ef. simpl.
  assert (Hr0 : named 0 (Container_ID ctr) r0 = true).
  { assert (Hin : In r0 (filter (named 0 (Container_ID ctr)) (ContainerState_rows db)))
      by (rewrite Ef; left; reflexivity).
    apply filter_In in Hin. exact (proj2 Hin). }
  rewrite (proj2 (named_set_col _ (VText stateJSON) _ Hr0)). simpl.
  destruct (json_Unmarshal stateJSON new_ContainerState); split; reflexivity.
Qed.

(** X12.  On an open store whose driver does not fail, for a live handle,
    the dependency rows naming their container: ContainerInUse returns,
    in the order of the table, the IDs of the dependency rows whose
    DependencyID is the container, the empty list when there is none, and
    changes neither the rows nor the handle. *)
Theorem ContainerInUse_lists_the_dependents (s : SQLiteState) (ctr : Container) :
  valid s = true ->
  faults (conn s) = [] ->
  ctr_valid ctr = true ->
  let deps := ContainerDependency_rows (store (conn s)) in
  forallb (not_null 0) deps = true ->
  let r := ContainerInUse (s, ctr) in
  fst r = inr (map (fun row => text_of (col 0 row))
                   (filter (named 1 (Container_ID ctr)) deps))
  /\ store (conn (fst (snd r))) = store (conn s)
  /\ snd (snd r) = ctr
  /\ (existsb (named 1 (Container_ID ctr)) deps = false -> fst r = inr []).
Proof.
  destruct s as [v [db pd fl tr] rt]. simpl. intros Hv Hf Hc Hn. subst v fl.
  unfold ContainerInUse. go. rewrite Hc. simpl.
  rewrite Conn_Query_dependents. simpl.
  rewrite gather_texts by (apply forallb_filter; exact Hn). simpl.
  repeat split.
  intro Hnone.
  assert (He : filter (named 1 (Container_ID ctr)) (ContainerDependency_rows db) = []).
  { induction (ContainerDependency_rows db) as [| r0 rs IH]; [reflexivity |].
    simpl in *. destruct (named 1 (Container_ID ctr) r0); [discriminate Hnone |].
    apply andb_true_iff in Hn. exact (IH (proj2 Hn) Hnone). }
  rewrite He. reflexivity.
Qed.

(** X13.  On an open store, for a live handle: GetNetworks of a container
    whose network mode is not bridge returns no network and does not read
    the database; for a bridge container it returns the Networks of the
    config that getCtrConfig reads for the ID of the container, and when
    getCtrConfig fails it returns that error, marking the handle invalid
    exactly when the error is ErrNoSuchCtr. *)
Theorem GetNetworks_follows_the_config (s : SQLiteState) (ctr : Container) :
  valid s = true ->
  ctr_valid ctr = true ->
  (NetMode_IsBridge (config ctr) = false ->
     GetNetworks (s, ctr) = (inr [], (s, ctr)))
  /\ (NetMode_IsBridge (config ctr) = true ->
      forall r s', getCtrConfig (Container_ID ctr) s = (r, s') ->
        GetNetworks (s, ctr)
        = match r with
          | inr cfg => (inr (Networks cfg), (s', ctr))
          | inl err =>
              (inl err,
               (s', if errors_Is err define.ErrNoSuchCtr
                    then set_ctr_valid false ctr else ctr))
          end).
Proof.
  intros Hs Hc. split.
  - intro Hb. unfold GetNetworks. go. rewrite Hs. simpl. rewrite Hc. simpl.
    rewrite Hb. reflexivity.
  - intros Hb r s' Hg. unfold GetNetworks. go. rewrite Hs. simpl.
    rewrite Hc. simpl. rewrite Hb. simpl.
    unfold try, on_state. simpl. rewrite Hg.
    destruct r as [err | cfg]; [| reflexivity].
    destruct (errors_Is err define.ErrNoSuchCtr); reflexivity.
Qed.

(** X18.  On an open store, for a live handle: SafeRewriteContainerConfig
    refuses with ErrInvalidArg, before it calls the rewriting helper, a
    new name that is not the Name of the new config, and a new name given
    without the old one; with no new name, or with a new name that is the
    Name of the new config and an old name, it does what
    RewriteContainerConfig does. *)
Theorem SafeRewriteContainerConfig_checks_the_names
  (s : SQLiteState) (ctr : Container) (oldName newName : string)
  (newCfg : ContainerConfig) :
  valid s = true ->
  ctr_valid ctr = true ->
  let r := SafeRewriteContainerConfig oldName newName newCfg (s, ctr) in
  (newName <> "" -> Name newCfg <> newName ->
     snd r = (s, ctr)
     /\ exists e, fst r = inl e /\ errors_Is e define.ErrInvalidArg = true)
  /\ (newName <> "" -> oldName = "" ->
      snd r = (s, ctr)
      /\ exists e, fst r = inl e /\ errors_Is e define.ErrInvalidArg = true)
  /\ (newName = "" \/ (Name newCfg = newName /\ oldName <> "") ->
      r = RewriteContainerConfig newCfg (s, ctr)).
Proof.
  intros Hs Hc r. subst r.
  unfold SafeRewriteContainerConfig, RewriteContainerConfig. go.
  rewrite Hs. simpl. rewrite Hc. simpl.
  destruct (String.eqb_spec newName "") as [En | Nn];
    destruct (String.eqb_spec (Name newCfg) newName) as [Ec | Nc];
    destruct (String.eqb_spec oldName "") as [Eo | No]; simpl;
    (split; [| split]); intros;
    try (split; [reflexivity | eexists; split; reflexivity]);
    try reflexivity; try contradiction;
    try match goal with
        | Hor : _ \/ _ |- _ => destruct Hor as [? | [? ?]]; contradiction
        end.
Qed.

(** X21.  On an open store, for a live pod: AddContainerToPod refuses a
    live container whose config names another pod (or none) with an error
    that wraps ErrNoSuchCtr; RemoveContainerFromPod refuses a container of
    no pod with ErrNoSuchPod and a container of another pod with
    ErrInvalidArg.  The refusals change nothing.  For a container of the
    pod the two methods do what addContainer and removeContainer do on
    the container. *)
Theorem pod_membership_is_checked (s : SQLiteState) (pod : Pod) (ctr : Container) :
  valid s = true ->
  pod_valid pod = true ->
  let w := (s, (pod, ctr)) in
  let refused (r : (error + unit) * (SQLiteState * (Pod * Container)))
              (kind : define.sentinel) :=
    snd r = w /\ exists e, fst r = inl e /\ errors_Is e kind = true in
  (ctr_valid ctr = true -> cfg_Pod (config ctr) <> Pod_ID pod ->
     refused (AddContainerToPod w) define.ErrNoSuchCtr)
  /\ (ctr_valid ctr = true -> cfg_Pod (config ctr) = Pod_ID pod ->
      AddContainerToPod w = on_ctr addContainer w)
  /\ (cfg_Pod (config ctr) = "" ->
      refused (RemoveContainerFromPod w) define.ErrNoSuchPod)
  /\ (cfg_Pod (config ctr) <> "" -> cfg_Pod (config ctr) <> Pod_ID pod ->
      refused (RemoveContainerFromPod w) define.ErrInvalidArg)
  /\ (cfg_Pod (config ctr) <> "" -> cfg_Pod (config ctr) = Pod_ID pod ->
      RemoveContainerFromPod w = on_ctr removeContainer w).
Proof.
  intros Hs Hp w refused. subst w refused.
  unfold AddContainerToPod, RemoveContainerFromPod. go.
  rewrite Hs. simpl. rewrite Hp. simpl.
  repeat match goal with |- _ /\ _ => split end.
  - intros Hc Hne. rewrite Hc. simpl.
    destruct (String.eqb_spec (cfg_Pod (config ctr)) (Pod_ID pod));
      [contradiction |]. simpl.
    split; [reflexivity | eexists; split; reflexivity].
  - intros Hc He. rewrite Hc. simpl.
    rewrite (proj2 (String.eqb_eq _ _) He). reflexivity.
  - intro He. rewrite (proj2 (String.eqb_eq _ _) He).
    split; [reflexivity | eexists; split; reflexivity].
  - intros Hne Hnp.
    destruct (String.eqb_spec (cfg_Pod (config ctr)) ""); [contradiction |].
    destruct (String.eqb_spec (cfg_Pod (config ctr)) (Pod_ID pod));
      [contradiction |]. simpl.
    split; [reflexivity | eexists; split; reflexivity].
  - intros Hne He.
    destruct (String.eqb_spec (cfg_Pod (config ctr)) ""); [contradiction |].
    rewrite (proj2 (String.eqb_eq _ _) He). reflexivity.
Qed.

End ContainerState.

(** ** Volumes *)

Section Volumes.
Context {L : Libpod} {F : Finalizers}.

(** The value AddVolume stores as StorageID. *)
Lemma AddVolume_runs db pd tr rt (volume : Volume) (cfgJSON stateJSON : string) :
  vol_valid volume = true ->
  json_Marshal (vol_config volume) = inr cfgJSON ->
  json_Marshal (match vol_state volume with
                | None => new_VolumeState
                | Some st => st
                end) = inr stateJSON ->
  let name := Volume_Name volume in
  let storageID :=
    if negb (String.eqb (StorageID (vol_config volume)) "")
    then VText (StorageID (vol_config volume)) else VNull in
  let q1 := "INSERT INTO VolumeConfig VALUES (?, ?, ?);" in
  let q2 := "INSERT INTO VolumeState VALUES (?, ?);" in
  AddVolume (mkSQLiteState true (mkConn db pd [] tr) rt, volume)
  = if existsb (named 0 name) (VolumeConfig_rows db)
    then (inl (Errorf "adding volume %s config to database: %w" [name]
                 (SqlError (UniqueConstraint "VolumeConfig"))),
          (mkSQLiteState true (mkConn db None [] (q1 :: tr)) rt, volume))
    else if existsb (named 0 name) (VolumeState_rows db)
    then (inl (Errorf "adding volume %s state to database: %w" [name]
                 (SqlError (UniqueConstraint "VolumeState"))),
          (mkSQLiteState true (mkConn db None [] (q2 :: q1 :: tr)) rt, volume))
    else (inr tt,
          (mkSQLiteState true
             (mkConn
                (set_rows T_VolumeState
                   (VolumeState_rows db ++ [[VText name; VText stateJSON]])
                   (set_rows T_VolumeConfig
                      (VolumeConfig_rows db
                       ++ [[VText name; storageID; VText cfgJSON]]) db))
                None [] (q2 :: q1 :: tr)) rt,
           volume)).
Proof.
  intros Hv Hc Hs name storageID q1 q2. subst name storageID q1 q2.
  unfold AddVolume. go. rewrite Hv. simpl. rewrite Hc. simpl.
  rewrite Hs. simpl.
  rewrite Tx_Exec_insert_VolumeConfig.
  destruct (existsb (named 0 (Volume_Name volume)) (VolumeConfig_rows db));
    [reflexivity |].
  simpl. rewrite Tx_Exec_insert_VolumeState. simpl.
  destruct (existsb (named 0 (Volume_Name volume)) (VolumeState_rows db));
    reflexivity.
Qed.

Lemma UpdateVolume_runs db pd tr rt (volume : Volume) :
  vol_valid volume = true ->
  let name := Volume_Name volume in
  let s' := mkSQLiteState true
              (mkConn db pd [] ("SELECT JSON FROM VolumeState WHERE Name=?;" :: tr))
              rt in
  UpdateVolume (mkSQLiteState true (mkConn db pd [] tr) rt, volume)
  = match filter (named 0 name) (VolumeState_rows db) with
    | [] => (inl (Sentinel define.ErrNoSuchVolume),
             (s', set_vol_valid false volume))
    | r :: _ =>
        match scan_string (col 1 r) with
        | inl _ =>
            (inl (Errorf "scanning volume %s state JSON: %w" [name]
                    (SqlError ScanError)), (s', volume))
        | inr t =>
            match json_Unmarshal t new_VolumeState with
            | inl e =>
                (inl (Errorf "unmarshalling volume %s state: %w" [name] e),
                 (s', volume))
            | inr st => (inr tt, (s', set_vol_state (Some st) volume))
            end
        end
    end.
Proof.
  intros Hv name s'. subst name s'. unfold UpdateVolume. go.
  rewrite Hv. simpl. rewrite Conn_Query_VolumeState.
  destruct (filter (named 0 (Volume_Name volume)) (VolumeState_rows db))
    as [| r rs]; [reflexivity |].
  cbn [map fst snd Row_Scan]. rewrite Scan_string_one.
  destruct (scan_string (col 1 r)) as [e | t]; simpl; [reflexivity |].
  destruct (json_Unmarshal t new_VolumeState); reflexivity.
Qed.

Lemma Volume_runs db pd tr rt (name : string) :
  String.eqb name "" = false ->
  let s := mkSQLiteState true (mkConn db pd [] tr) rt in
  fst (SQLiteState_Volume name s)
  = match filter (named 0 name) (VolumeConfig_rows db) with
    | [] => inl (Sentinel define.ErrNoSuchVolume)
    | r :: _ =>
        match json_Unmarshal (text_of (col 2 r)) new_VolumeConfig with
        | inl e => inl (Errorf "unmarshalling volume %s config JSON: %w" [name] e)
        | inr cfg => finalizeVolumeSqlite (read_volume s cfg)
        end
    end.
Proof.
  intros Hn s. subst s. unfold SQLiteState_Volume. go. rewrite Hn. simpl.
  rewrite Conn_Query_VolumeConfig.
  destruct (filter (named 0 name) (VolumeConfig_rows db)) as [| r rs];
    [reflexivity |].
  cbn [map fst snd Row_Scan]. rewrite Scan_string_one.
  destruct (col 2 r) as [| z | t]; simpl.
  - destruct (json_Unmarshal "" new_VolumeConfig); reflexivity.
  - destruct (json_Unmarshal (string_of_Z z) new_VolumeConfig); reflexivity.
  - destruct (json_Unmarshal t new_VolumeConfig); reflexivity.
Qed.

(** X22.  On an open store whose driver does not fail, for a live handle
    whose config and state encode: when no config row and no state row
    carry the name of the volume, AddVolume succeeds and adds one config
    row (name, storage ID, config JSON) and one state row (name, state
    JSON), the state of a handle without one being the zero state and the
    storage ID being NULL exactly when the config has none; when a config
    row of that name exists, AddVolume fails and the committed rows are
    what they were.  Either way no transaction stays open and the handle
    is unchanged. *)
Theorem AddVolume_adds_both_rows
  (s : SQLiteState) (volume : Volume) (cfgJSON stateJSON : string) :
  valid s = true ->
  faults (conn s) = [] ->
  vol_valid volume = true ->
  json_Marshal (vol_config volume) = inr cfgJSON ->
  json_Marshal (match vol_state volume with
                | None => new_VolumeState
                | Some st => st
                end) = inr stateJSON ->
  let name := Volume_Name volume in
  let db := store (conn s) in
  let r := AddVolume (s, volume) in
  pending (conn (fst (snd r))) = None
  /\ snd (snd r) = volume
  /\ (existsb (named 0 name) (VolumeConfig_rows db) = false ->
      existsb (named 0 name) (VolumeState_rows db) = false ->
      fst r = inr tt
      /\ exists storageID,
           store (conn (fst (snd r)))
           = set_rows T_VolumeState
               (VolumeState_rows db ++ [[VText name; VText stateJSON]])
               (set_rows T_VolumeConfig
                  (VolumeConfig_rows db
                   ++ [[VText name; storageID; VText cfgJSON]]) db)
           /\ (storageID = VNull <-> StorageID (vol_config volume) = "")
           /\ (storageID <> VNull ->
               storageID = VText (StorageID (vol_config volume))))
  /\ (existsb (named 0 name) (VolumeConfig_rows db) = true ->
      (exists e, fst r = inl e) /\ store (conn (fst (snd r))) = db).
Proof.
  destruct s as [v [db pd fl tr] rt]. simpl.
  intros Hv Hf Hl Hc Hs. subst v fl.
  rewrite (AddVolume_runs db pd tr rt volume Hl Hc Hs).
  destruct (existsb (named 0 (Volume_Name volume)) (VolumeConfig_rows db)).
  - simpl. repeat split; try discriminate. eexists. reflexivity.
  - destruct (existsb (named 0 (Volume_Name volume)) (VolumeState_rows db)).
    + simpl. repeat split; discriminate.
    + simpl. split; [reflexivity |]. split; [reflexivity |].
      split; [| intro H; discriminate H].
      intros _ _. split; [reflexivity |].
      eexists. split; [reflexivity |].
      destruct (String.eqb_spec (StorageID (vol_config volume)) "") as [E | N];
        simpl.
      * split; [split; [intros _; exact E | reflexivity] |].
        intro H. exfalso. apply H. reflexivity.
      * split; [split; [intro H; discriminate H | intro H; contradiction] |].
        intros _. reflexivity.
Qed.

(** X23.  On an open store whose driver does not fail, for a volume whose
    name (not empty) is on no config row and no state row: after AddVolume
    has succeeded, UpdateVolume of a live handle of that name reads back
    the state that was encoded, and Volume of that name returns the
    handle finalizeVolumeSqlite makes of the config that was encoded. *)
Theorem AddVolume_then_read_back
  (s : SQLiteState) (volume other : Volume) (cfgJSON stateJSON : string) :
  valid s = true ->
  faults (conn s) = [] ->
  vol_valid volume = true ->
  vol_valid other = true ->
  Volume_Name other = Volume_Name volume ->
  String.eqb (Volume_Name volume) "" = false ->
  json_Marshal (vol_config volume) = inr cfgJSON ->
  json_Marshal (match vol_state volume with
                | None => new_VolumeState
                | Some st => st
                end) = inr stateJSON ->
  let name := Volume_Name volume in
  let db := store (conn s) in
  filter (named 0 name) (VolumeConfig_rows db) = [] ->
  filter (named 0 name) (VolumeState_rows db) = [] ->
  let s1 := fst (snd (AddVolume (s, volume))) in
  fst (AddVolume (s, volume)) = inr tt
  /\ (let r := UpdateVolume (s1, other) in
      match json_Unmarshal stateJSON new_VolumeState with
      | inr st => fst r = inr tt /\ snd (snd r) = set_vol_state (Some st) other
      | inl e =>
          fst r = inl (Errorf "unmarshalling volume %s state: %w" [name] e)
          /\ snd (snd r) = other
      end)
  /\ fst (SQLiteState_Volume name s1)
     = match json_Unmarshal cfgJSON new_VolumeConfig with
       | inr cfg => finalizeVolumeSqlite (read_volume s1 cfg)
       | inl e => inl (Errorf "unmarshalling volume %s config JSON: %w" [name] e)
       end.
Proof.
  destruct s as [v [db pd fl tr] rt]. simpl.
  intros Hv Hf Hl Ho Hname Hne Hc Hs Hfc Hfs. subst v fl.
  rewrite (AddVolume_runs db pd tr rt volume Hl Hc Hs).
  rewrite (filter_named_existsb _ _ Hfc), (filter_named_existsb _ _ Hfs).
  simpl. split; [reflexivity |]. split.
  - rewrite (UpdateVolume_runs _ _ _ rt other Ho). simpl.
    rewrite Hname, (filter_fresh _ _ _ Hfs). simpl.
    destruct (json_Unmarshal stateJSON new_VolumeState); split; reflexivity.
  - rewrite (Volume_runs _ _ _ rt (Volume_Name volume) Hne). simpl.
    rewrite (filter_fresh _ _ _ Hfc). simpl.
    destruct (json_Unmarshal cfgJSON new_VolumeConfig); reflexivity.
Qed.

(** X24.  On an open store whose driver does not fail, for a volume whose
    name is on no config row, no state row and no usage edge: AddVolume
    followed by RemoveVolume gives back the committed rows of before. *)
Theorem AddVolume_then_RemoveVolume
  (s : SQLiteState) (volume : Volume) (cfgJSON stateJSON : string) :
  valid s = true ->
  faults (conn s) = [] ->
  vol_valid volume = true ->
  json_Marshal (vol_config volume) = inr cfgJSON ->
  json_Marshal (match vol_state volume with
                | None => new_VolumeState
                | Some st => st
                end) = inr stateJSON ->
  let name := Volume_Name volume in
  let db := store (conn s) in
  filter (named 0 name) (VolumeConfig_rows db) = [] ->
  filter (named 0 name) (VolumeState_rows db) = [] ->
  filter (named 1 name) (ContainerVolume_rows db) = [] ->
  let s1 := fst (snd (AddVolume (s, volume))) in
  let r := RemoveVolume (s1, volume) in
  fst (AddVolume (s, volume)) = inr tt
  /\ store (conn s1) <> db
  /\ fst r = inr tt
  /\ store (conn (fst (snd r))) = db.
Proof.
  destruct s as [v [db pd fl tr] rt]. simpl.
  intros Hv Hf Hl Hc Hs Hfc Hfs Hfu. subst v fl.
  rewrite (AddVolume_runs db pd tr rt volume Hl Hc Hs).
  rewrite (filter_named_existsb _ _ Hfc), (filter_named_existsb _ _ Hfs).
  simpl. split; [reflexivity |]. split.
  - intro E. apply (f_equal VolumeConfig_rows) in E. simpl in E.
    apply (f_equal (@List.length row)) in E. rewrite length_app in E.
    simpl in E. lia.
  - rewrite RemoveVolume_runs by (simpl; rewrite Hfu; reflexivity).
    unfold volume_users. simpl. rewrite Hfu. simpl.
    split; [reflexivity |].
    rewrite (without_fresh _ _ _ Hfc), (without_fresh _ _ _ Hfs).
    destruct db; reflexivity.
Qed.

(** X25.  On an open store whose driver does not fail, for a live handle:
    when no state row has the name of the volume, UpdateVolume marks the
    handle invalid and fails with ErrNoSuchVolume (not wrapped);
    otherwise it reads the JSON of the first state row of that name,
    fails when it is NULL, and when the text decodes puts the decoded
    state in the handle.  The committed rows are never changed. *)
Theorem UpdateVolume_reads_the_state (s : SQLiteState) (volume : Volume) :
  valid s = true ->
  faults (conn s) = [] ->
  vol_valid volume = true ->
  let name := Volume_Name volume in
  let rows := VolumeState_rows (store (conn s)) in
  let r := UpdateVolume (s, volume) in
  store (conn (fst (snd r))) = store (conn s)
  /\ (existsb (named 0 name) rows = false ->
      fst r = inl (Sentinel define.ErrNoSuchVolume)
      /\ snd (snd r) = set_vol_valid false volume)
  /\ (forall (before : list row) (json : value) (rest : row) (after : list row),
        rows = before ++ (VText name :: json :: rest) :: after ->
        existsb (named 0 name) before = false ->
        (json = VNull ->
           fst r = inl (Errorf "scanning volume %s state JSON: %w" [name]
                          (SqlError ScanError))
           /\ snd (snd r) = volume)
        /\ (forall st, json <> VNull ->
              json_Unmarshal (text_of json) new_VolumeState = inr st ->
              fst r = inr tt /\ snd (snd r) = set_vol_state (Some st) volume)
        /\ (forall e, json <> VNull ->
              json_Unmarshal (text_of json) new_VolumeState = inl e ->
              fst r = inl (Errorf "unmarshalling volume %s state: %w" [name] e)
              /\ snd (snd r) = volume)).
Proof.
  destruct s as [v [db pd fl tr] rt]. simpl. intros Hv Hf Hl. subst v fl.
  rewrite (UpdateVolume_runs db pd tr rt volume Hl).
  split; [| split].
  - destruct (filter (named 0 (Volume_Name volume)) (VolumeState_rows db))
      as [| r rs]; [reflexivity |].
    destruct (scan_string (col 1 r)) as [e | t]; [reflexivity |].
    destruct (json_Unmarshal t new_VolumeState); reflexivity.
  - intro Hnone. rewrite (existsb_named_filter _ _ Hnone). split; reflexivity.
  - intros before json rest after Hrows Hb.
    rewrite Hrows, filter_first by exact Hb.
    destruct json as [| z | t]; simpl;
      (split; [| split]); intros;
      try discriminate; try contradiction;
      try (split; reflexivity);
      match goal with
      | Hd : json_Unmarshal _ _ = _ |- _ => rewrite Hd; split; reflexivity
      end.
Qed.

(** X26.  SaveVolume never saves: its UPDATE is written UPDATE TABLE,
    which SQLite refuses.  Whatever the store, the handle and the driver,
    the call ends with an error, the committed rows are what they were and
    the handle is returned as it was given, so that the state of a volume
    never reaches the database after AddVolume. *)
Theorem SaveVolume_never_saves (w : SQLiteState * Volume) :
  let r := SaveVolume w in
  (exists e, fst r = inl e)
  /\ store (conn (fst (snd r))) = store (conn (fst w))
  /\ snd (snd r) = snd w.
Proof.
  cbv zeta. split; [apply SaveVolume_refused |]. split.
  - assert (Hc : fails_clean SaveVolume) by (unfold SaveVolume; clean_body).
    destruct (SaveVolume_refused w) as [e He].
    destruct (SaveVolume w) as [r w'] eqn:E. simpl in He. subst r.
    exact (Hc w e w' E).
  - destruct w as [[v c rt] volume]. unfold SaveVolume. go.
    destruct v; [| reflexivity]. simpl.
    destruct (vol_valid volume); [| reflexivity]. simpl.
    destruct (Marshal_vol_state (vol_state volume)) as [e | stateJSON];
      [reflexivity |]. simpl.
    unfold Conn_Begin. destruct (step_fault c) as [bad c1].
    destruct bad; [reflexivity |]. simpl.
    match goal with
    | |- context [Tx_Exec ?q ?args ?c2] =>
        destruct (@Tx_Exec_update_table_refused q args c2
                    prepare_update_table_VolumeState) as [e He];
        destruct (Tx_Exec q args c2) as [r c3]; simpl in He; subst r
    end.
    simpl.
    match goal with
    | |- context [Tx_Rollback ?c2] => destruct (Tx_Rollback c2)
    end.
    reflexivity.
Qed.

End Volumes.

(** ** LIKE without wildcards *)

Lemma like_plain (pat text : list ascii) :
  forallb (fun c => negb (Ascii.eqb c "%") && negb (Ascii.eqb c "_")) pat = true ->
  like pat text = true <-> map lower pat = map lower text.
Proof.
  revert text. induction pat as [| p pat IH]; intros text Hp.
  - destruct text; simpl; split; intro H; try reflexivity; discriminate H.
  - simpl in Hp. apply andb_true_iff in Hp. destruct Hp as [Hp Hpat].
    apply andb_true_iff in Hp. destruct Hp as [H1 H2].
    apply negb_true_iff in H1. apply negb_true_iff in H2.
    simpl. rewrite H1, H2.
    destruct text as [| c text]; [split; intro H; discriminate H |].
    rewrite andb_true_iff, Ascii.eqb_eq, (IH text Hpat). simpl.
    split.
    + intros [Hc Ht]. rewrite Hc, Ht. reflexivity.
    + intro H. inversion H. split; reflexivity.
Qed.

Lemma list_ascii_lower (s : string) :
  list_ascii_of_string (lower_string s) = map lower (list_ascii_of_string s).
Proof. induction s as [| c s IH]; simpl; [| rewrite IH]; reflexivity. Qed.

Lemma lower_string_length (s : string) :
  String.length (lower_string s) = String.length s.
Proof. induction s as [| c s IH]; simpl; [| rewrite IH]; reflexivity. Qed.

(** For a plain term LIKE is equality up to ASCII case. *)
Lemma sqlite_like_plain (term text : string) :
  plain term = true -> sqlite_like term text = ieq term text.
Proof.
  intro Hp. unfold sqlite_like, ieq.
  pose proof (like_plain _ (list_ascii_of_string text) Hp) as Hl.
  destruct (String.eqb_spec (lower_string term) (lower_string text)) as [E | N].
  - apply Hl. rewrite <- !list_ascii_lower, E. reflexivity.
  - destruct (like (list_ascii_of_string term) (list_ascii_of_string text));
      [| reflexivity].
    exfalso. apply N.
    assert (H : list_ascii_of_string (lower_string term)
                = list_ascii_of_string (lower_string text))
      by (rewrite !list_ascii_lower; apply Hl; reflexivity).
    apply (f_equal string_of_list_ascii) in H.
    rewrite !string_of_list_ascii_of_string in H. exact H.
Qed.

Lemma ieq_length (a b : string) :
  ieq a b = true -> String.length a = String.length b.
Proof.
  unfold ieq. intro H. apply String.eqb_eq in H.
  apply (f_equal String.length) in H.
  rewrite !lower_string_length in H. exact H.
Qed.

Lemma filter_same {A} (p q : A -> bool) (l : list A) :
  (forall a, In a l -> p a = q a) -> filter p l = filter q l.
Proof.
  induction l as [| a l IH]; intro H; [reflexivity |].
  simpl. rewrite (H a (or_introl eq_refl)), IH; [reflexivity |].
  intros b Hb. apply H. right. exact Hb.
Qed.

Lemma no_same_name (name : string) (rows : list row) :
  (forall r, In r rows ->
     String.length (text_of (col 0 r)) <> String.length name) ->
  filter (same_name name) rows = [].
Proof.
  induction rows as [| r rs IH]; intro Hlen; [reflexivity |].
  simpl. rewrite IH by (intros r' Hr'; apply Hlen; right; exact Hr').
  assert (Hr : same_name name r = false).
  { unfold same_name. pose proof (Hlen r (or_introl eq_refl)) as Hl.
    destruct (col 0 r) as [| z | t]; [reflexivity | |];
      (match goal with
       | |- ieq ?a ?b = false =>
           destruct (ieq a b) eqn:Ei; [| reflexivity];
           exfalso; apply Hl; symmetry; apply ieq_length; exact Ei
       end). }
  rewrite Hr. reflexivity.
Qed.

(** ** The lookups that decode a config *)

Section Lookups.
Context {L : Libpod} {I : Internals} {F : Finalizers}.

Lemma LookupVolume_runs db pd tr rt (name : string) :
  String.eqb name "" = false ->
  let s := mkSQLiteState true (mkConn db pd [] tr) rt in
  let found := filter (fun r => value_like (col 0 r) (VText name))
                      (VolumeConfig_rows db) in
  forallb (not_null 2) found = true ->
  fst (LookupVolume name s)
  = match found with
    | [] => inl (Sentinel define.ErrNoSuchVolume)
    | [r] =>
        match json_Unmarshal (text_of (col 2 r)) new_VolumeConfig with
        | inl e => inl (Errorf "unmarshalling volume %s config JSON: %w" [name] e)
        | inr cfg => finalizeVolumeSqlite (read_volume s cfg)
        end
    | _ :: _ :: _ =>
        inl (Errorf "more than one result for volume name %s: %w" [name]
               define.ErrVolumeExists)
    end.
Proof.
  intros Hne s found Hn. subst s found. unfold LookupVolume. go.
  rewrite Hne. simpl. rewrite Conn_Query_lookup_volume. simpl.
  destruct (filter (fun r => value_like (col 0 r) (VText name))
              (VolumeConfig_rows db)) as [| r1 [| r2 rs]]; simpl in *;
    [reflexivity | |];
    unfold Scan_string, Scan_strings, not_null in *; simpl;
    (destruct (col 2 r1); simpl; [discriminate Hn | |]);
    try reflexivity;
    match goal with
    | |- context [json_Unmarshal ?t ?new] => destruct (json_Unmarshal t new)
    end; reflexivity.
Qed.

Lemma like_same_name (name : string) (r : row) :
  plain name = true ->
  value_like (col 0 r) (VText name) = same_name name r.
Proof.
  intro Hp. unfold value_like, same_name.
  destruct (col 0 r) as [| z | t]; [reflexivity | |];
    apply sqlite_like_plain; exact Hp.
Qed.

(** X29.  On an open store whose driver does not fail, whose volume
    configs are not NULL and whose volume names are ASCII texts without
    NUL, for a name that is not empty, is such a text of at most 50000
    bytes and holds neither wildcard of LIKE: LookupVolume selects the
    config rows whose Name is the given name up to ASCII case, and nothing
    else.  None gives ErrNoSuchVolume, one gives the volume decoded from
    its config, more give an error that wraps ErrVolumeExists.  A name of
    another length than every volume name, such as a proper prefix of one,
    finds nothing. *)
Theorem LookupVolume_needs_the_whole_name (s : SQLiteState) (name : string) :
  valid s = true ->
  faults (conn s) = [] ->
  String.eqb name "" = false ->
  plain name = true ->
  ascii_text name = true ->
  (N.of_nat (String.length name) <=? max_like_pattern)%N = true ->
  let rows := VolumeConfig_rows (store (conn s)) in
  forallb (fun r => ascii_value (col 0 r)) rows = true ->
  forallb (not_null 2) rows = true ->
  fst (LookupVolume name s)
  = match filter (same_name name) rows with
    | [] => inl (Sentinel define.ErrNoSuchVolume)
    | [r] =>
        match json_Unmarshal (text_of (col 2 r)) new_VolumeConfig with
        | inl e => inl (Errorf "unmarshalling volume %s config JSON: %w" [name] e)
        | inr cfg => finalizeVolumeSqlite (read_volume s cfg)
        end
    | _ :: _ :: _ =>
        inl (Errorf "more than one result for volume name %s: %w" [name]
               define.ErrVolumeExists)
    end
  /\ ((forall r, In r rows ->
         String.length (text_of (col 0 r)) <> String.length name) ->
      fst (LookupVolume name s) = inl (Sentinel define.ErrNoSuchVolume)).
Proof.
  destruct s as [v [db pd fl tr] rt]. simpl.
  intros Hv Hf Hne Hp Hascii Hmax Hnames Hn. subst v fl.
  assert (Hsel : filter (fun r => value_like (col 0 r) (VText name))
                   (VolumeConfig_rows db)
                 = filter (same_name name) (VolumeConfig_rows db)).
  { apply filter_same. intros r _. apply like_same_name. exact Hp. }
  assert (Hrun := LookupVolume_runs db pd tr rt name Hne).
  cbv zeta in Hrun. rewrite Hsel in Hrun.
  rewrite Hrun by (apply forallb_filter; exact Hn).
  split; [reflexivity |].
  intro Hlen.
  rewrite (no_same_name _ _ Hlen). reflexivity.
Qed.

(** X28.  On an open store whose driver does not fail, for a name that is
    not empty: Volume fails with ErrNoSuchVolume (not wrapped) when no
    config row has that name; otherwise it decodes the config JSON of the
    first row of that name into a fresh handle (zero state, not yet
    valid, the runtime of the state object) and returns what
    finalizeVolumeSqlite makes of it.  A NULL config is decoded as the
    empty text rather than reported. *)
Theorem Volume_by_name (s : SQLiteState) (name : string) :
  valid s = true ->
  faults (conn s) = [] ->
  String.eqb name "" = false ->
  let rows := VolumeConfig_rows (store (conn s)) in
  (existsb (named 0 name) rows = false ->
     fst (SQLiteState_Volume name s) = inl (Sentinel define.ErrNoSuchVolume))
  /\ (forall (before : list row) (storageID json : value) (rest : row)
             (after : list row),
        rows = before ++ (VText name :: storageID :: json :: rest) :: after ->
        existsb (named 0 name) before = false ->
        (forall cfg, json_Unmarshal (text_of json) new_VolumeConfig = inr cfg ->
           fst (SQLiteState_Volume name s)
           = finalizeVolumeSqlite
               (mkVolume cfg (Some new_VolumeState) false (Some (runtime s))))
        /\ (forall e, json_Unmarshal (text_of json) new_VolumeConfig = inl e ->
              fst (SQLiteState_Volume name s)
              = inl (Errorf "unmarshalling volume %s config JSON: %w" [name] e))).
Proof.
  destruct s as [v [db pd fl tr] rt]. simpl. intros Hv Hf Hne. subst v fl.
  rewrite (Volume_runs db pd tr rt name Hne).
  split.
  - intro Hnone. rewrite (existsb_named_filter _ _ Hnone). reflexivity.
  - intros before storageID json rest after Hrows Hb.
    rewrite Hrows, filter_first by exact Hb.
    change (col 2 (VText name :: storageID :: json :: rest)) with json.
    split.
    + intros cfg Hd. rewrite Hd. reflexivity.
    + intros e Hd. rewrite Hd. reflexivity.
Qed.

Lemma AllVolumes_loop (s : SQLiteState) (rows : list row) (acc : list Volume) w :
  for_each (map (fun r => [col 2 r]) rows) acc
    (fun r volumes =>
       configJSON <- or_wrap "scanning volume config from database: %w" []
                       (pure (Scan_string r)) ;;
       cfg <- or_wrap "unmarshalling volume config: %w" []
                (pure (json_Unmarshal configJSON new_VolumeConfig)) ;;
       vol <- pure (finalizeVolumeSqlite (read_volume s cfg)) ;;
       ret (volumes ++ [vol])) w
  = (match sequence (map (loaded s) rows) with
     | inl e => inl e
     | inr vols => inr (acc ++ vols)
     end, (w : SQLiteState)).
Proof.
  revert acc. induction rows as [| r rows IH]; intro acc.
  - simpl. rewrite app_nil_r. reflexivity.
  - cbn [map for_each sequence]. unfold bind at 1.
    unfold loaded at 1.
    unfold bind, or_wrap, pure, ret. rewrite Scan_string_one.
    destruct (scan_string (col 2 r)) as [e | t] eqn:Es.
    + rewrite (scan_string_error _ Es). reflexivity.
    + destruct (json_Unmarshal t new_VolumeConfig) as [e | cfg]; [reflexivity |].
      destruct (finalizeVolumeSqlite (read_volume s cfg)) as [e | vol];
        [reflexivity |].
      rewrite IH.
      destruct (sequence (map (loaded s) rows)) as [e | vols]; [reflexivity |].
      rewrite <- app_assoc. reflexivity.
Qed.

Lemma AllVolumes_runs db pd tr rt :
  let s := mkSQLiteState true (mkConn db pd [] tr) rt in
  fst (AllVolumes s) = sequence (map (loaded s) (VolumeConfig_rows db)).
Proof.
  intro s. subst s.
  pose proof (AllVolumes_loop (mkSQLiteState true (mkConn db pd [] tr) rt)
                (VolumeConfig_rows db) []
                (mkSQLiteState true
                   (mkConn db pd [] ("SELECT JSON FROM VolumeConfig;" :: tr)) rt))
    as Hl.
  revert Hl. unfold AllVolumes. go. rewrite Conn_Query_all_volumes.
  intro Hl. apply (f_equal fst) in Hl.
  etransitivity; [exact Hl |]. simpl.
  destruct (sequence (map _ (VolumeConfig_rows db))); reflexivity.
Qed.

Lemma sequence_all {E A B} (f : A -> E + B) (l : list A) (out : list B) :
  sequence (map f l) = inr out <-> Forall2 (fun a b => f a = inr b) l out.
Proof.
  revert out. induction l as [| a l IH]; intro out; simpl.
  - split; intro H; [inversion H; constructor | inversion H; reflexivity].
  - destruct (f a) as [e | b] eqn:Ea.
    + split; intro H; [discriminate H | inversion H; congruence].
    + destruct (sequence (map f l)) as [e | out'] eqn:Es.
      * split; intro H; [discriminate H |].
        inversion H; subst. apply IH in H4. discriminate H4.
      * split; intro H.
        -- inversion H; subst. constructor; [exact Ea | apply IH; reflexivity].
        -- inversion H; subst. apply IH in H4. congruence.
Qed.

Lemma sequence_first_error {E A B} (f : A -> E + B) (before : list A) (a : A)
  (after : list A) (e : E) :
  (forall b, In b before -> exists v, f b = inr v) ->
  f a = inl e ->
  sequence (map f (before ++ a :: after)) = inl e.
Proof.
  intros Hb Ha. induction before as [| b before IH]; simpl.
  - rewrite Ha. reflexivity.
  - destruct (Hb b (or_introl eq_refl)) as [v Hv]. rewrite Hv.
    rewrite IH; [reflexivity |].
    intros b' Hb'. apply Hb. right. exact Hb'.
Qed.

(** X27.  On an open store whose driver does not fail, AllVolumes reads
    every config row in the order of the table.  When it succeeds it
    returns one volume per row, the i-th being what the i-th row loads
    to (its config JSON decoded into a fresh handle and finalized); the
    first row that does not load (a NULL config, a JSON that does not
    decode, a handle that does not finalize) makes the whole call fail
    with the error of that row, whatever the rows after it; with no row
    the list is empty. *)
Theorem AllVolumes_loads_every_row (s : SQLiteState) :
  valid s = true ->
  faults (conn s) = [] ->
  let rows := VolumeConfig_rows (store (conn s)) in
  (forall vols, fst (AllVolumes s) = inr vols <->
                Forall2 (fun r v => loaded s r = inr v) rows vols)
  /\ (forall before r after e,
        rows = before ++ r :: after ->
        (forall b, In b before -> exists v, loaded s b = inr v) ->
        loaded s r = inl e ->
        fst (AllVolumes s) = inl e)
  /\ (rows = [] -> fst (AllVolumes s) = inr []).
Proof.
  destruct s as [v [db pd fl tr] rt]. simpl. intros Hv Hf. subst v fl.
  rewrite AllVolumes_runs.
  split; [| split].
  - intro vols. apply sequence_all.
  - intros before r after e Hrows Hb Hr. rewrite Hrows.
    apply sequence_first_error; assumption.
  - intro Hrows. rewrite Hrows. reflexivity.
Qed.

Lemma LookupPod_runs db pd tr rt (term : string) :
  String.eqb term "" = false ->
  let s := mkSQLiteState true (mkConn db pd [] tr) rt in
  let found := filter (looked_up term) (PodConfig_rows db) in
  forallb (not_null 2) found = true ->
  fst (LookupPod term s)
  = match found with
    | [] => inl (Sentinel define.ErrNoSuchPod)
    | [r] =>
        match json_Unmarshal (text_of (col 2 r)) new_PodConfig with
        | inl e => inl (Errorf "unmarshalling pod JSON: %w" [] e)
        | inr cfg =>
            finalizePodSqlite (mkPod cfg new_podState false (Some rt))
        end
    | _ :: _ :: _ =>
        inl (Errorf "more than one result for pod %q: %w" [term]
               define.ErrCtrExists)
    end.
Proof.
  intros Hne s found Hn. subst s found. unfold LookupPod. go.
  rewrite Hne. simpl. rewrite Conn_Query_lookup_pod. simpl.
  destruct (filter (looked_up term) (PodConfig_rows db)) as [| r1 [| r2 rs]];
    simpl in *; [reflexivity | |];
    unfold Scan_string, Scan_strings, not_null in *; simpl;
    (destruct (col 2 r1); simpl; [discriminate Hn | |]);
    try reflexivity;
    match goal with
    | |- context [json_Unmarshal ?t ?new] => destruct (json_Unmarshal t new)
    end; reflexivity.
Qed.


(** X20.  On an open store whose driver does not fail and whose pod
    configs are not NULL, for a term that is not empty: LookupPod selects
    the pod rows whose Name is the term or whose ID is LIKE the term.  No
    row gives ErrNoSuchPod; one row gives the pod that finalizePodSqlite
    makes of its decoded config; more than one row give an error that
    wraps ErrCtrExists, the sentinel of the containers, and not
    ErrPodExists. *)
Theorem LookupPod_counts_the_rows (s : SQLiteState) (term : string) :
  valid s = true ->
  faults (conn s) = [] ->
  String.eqb term "" = false ->
  let rows := PodConfig_rows (store (conn s)) in
  forallb (not_null 2) rows = true ->
  let found := filter (looked_up term) rows in
  (found = [] -> fst (LookupPod term s) = inl (Sentinel define.ErrNoSuchPod))
  /\ (forall r, found = [r] ->
        fst (LookupPod term s)
        = match json_Unmarshal (text_of (col 2 r)) new_PodConfig with
          | inl e => inl (Errorf "unmarshalling pod JSON: %w" [] e)
          | inr cfg =>
              finalizePodSqlite
                (mkPod cfg new_podState false (Some (runtime s)))
          end)
  /\ ((2 <= List.length found)%nat ->
      exists e, fst (LookupPod term s) = inl e
                /\ errors_Is e define.ErrCtrExists = true
                /\ errors_Is e define.ErrPodExists = false).
Proof.
  destruct s as [v [db pd fl tr] rt]. simpl. intros Hv Hf Hne Hn. subst v fl.
  assert (Hrun := LookupPod_runs db pd tr rt term Hne).
  cbv zeta in Hrun. rewrite Hrun by (apply forallb_filter; exact Hn).
  clear Hrun.
  destruct (filter (looked_up term) (PodConfig_rows db)) as [| r1 [| r2 rs]].
  - split; [reflexivity |]. split; [intros r H; discriminate H |].
    simpl. intro H. lia.
  - split; [intro H; discriminate H |]. split.
    + intros r H. inversion H; subst. reflexivity.
    + simpl. intro H. lia.
  - split; [intro H; discriminate H |]. split; [intros r H; discriminate H |].
    intros _. eexists. repeat split.
Qed.


End Lookups.

(** ** The lookup of a container by a plain term *)

Section PlainTerm.

(** X30.  On an open store whose driver does not fail and whose
    containers have an ID, an ASCII text without NUL, for a term that is
    not empty, is such a text of at most 50000 bytes and holds neither
    wildcard of LIKE: LookupContainerID selects exactly the container rows
    whose Name is the term or whose ID is the term up to ASCII case.  None
    gives ErrNoSuchCtr, one gives its ID, more give an error that wraps
    ErrCtrExists.  So a term that names no container and has another
    length than every ID, such as a proper prefix of an ID, finds
    nothing. *)
Theorem LookupContainerID_by_plain_term (s : SQLiteState) (term : string) :
  valid s = true ->
  faults (conn s) = [] ->
  String.eqb term "" = false ->
  plain term = true ->
  ascii_text term = true ->
  (N.of_nat (String.length term) <=? max_like_pattern)%N = true ->
  let rows := ContainerConfig_rows (store (conn s)) in
  forallb (fun r => ascii_value (col 0 r)) rows = true ->
  forallb (not_null 0) rows = true ->
  fst (LookupContainerID term s)
  = match filter (fun r => named 1 term r || same_name term r) rows with
    | [] => inl (Sentinel define.ErrNoSuchCtr)
    | [r] => inr (text_of (col 0 r))
    | _ :: _ :: _ =>
        inl (Errorf "more than one result for container %q: %w" [term]
               define.ErrCtrExists)
    end
  /\ ((forall r, In r rows ->
         named 1 term r = false
         /\ String.length (text_of (col 0 r)) <> String.length term) ->
      fst (LookupContainerID term s) = inl (Sentinel define.ErrNoSuchCtr)).
Proof.
  destruct s as [v [db pd fl tr] rt]. simpl.
  intros Hv Hf Hne Hp Hascii Hmax Hids Hn. subst v fl.
  rewrite (LookupContainerID_runs db pd tr rt term Hne Hn).
  assert (Hsel : filter (looked_up term) (ContainerConfig_rows db)
                 = filter (fun r => named 1 term r || same_name term r)
                          (ContainerConfig_rows db)).
  { apply filter_same. intros r _. unfold looked_up, named.
    rewrite (@like_same_name term r Hp). reflexivity. }
  rewrite Hsel. split; [reflexivity |].
  intro Hnone.
  assert (He : filter (fun r => named 1 term r || same_name term r)
                 (ContainerConfig_rows db) = []).
  { clear Hsel Hn Hids. induction (ContainerConfig_rows db) as [| r rs IH];
      [reflexivity |].
    simpl. destruct (Hnone r (or_introl eq_refl)) as [Hname Hlen].
    rewrite Hname. simpl.
    assert (Hr : same_name term r = false).
    { unfold same_name.
      destruct (col 0 r) as [| z | t]; [reflexivity | |];
        (match goal with
         | |- ieq ?a ?b = false =>
             destruct (ieq a b) eqn:Ei; [| reflexivity];
             exfalso; apply Hlen; symmetry; apply ieq_length; exact Ei
         end). }
    rewrite Hr. apply IH. intros r' Hr'. apply Hnone. right. exact Hr'. }
  rewrite He. reflexivity.
Qed.

End PlainTerm.

(** ** What is not written yet *)

Section NotImplemented.
Context {L : Libpod} {I : Internals} {F : Finalizers}.

(** X19.  The pod methods of this backend are not written yet, LookupPod
    and GetPodName apart: on an open store, for an ID that is not empty
    and for a live pod, each of them returns ErrNotImplemented and the
    state object and the handle as they were, so that no pod row is ever
    written or read by them.  RewriteVolumeConfig does the same for a live
    volume. *)
Theorem pods_are_not_implemented (s : SQLiteState) :
  valid s = true ->
  (forall id, String.eqb id "" = false ->
     SQLiteState_Pod id s = (inl (Sentinel define.ErrNotImplemented), s)
     /\ HasPod id s = (inl (Sentinel define.ErrNotImplemented), s))
  /\ AllPods s = (inl (Sentinel define.ErrNotImplemented), s)
  /\ (forall pod : Pod, pod_valid pod = true ->
        let todo {A} : (error + A) * (SQLiteState * Pod) :=
          (inl (Sentinel define.ErrNotImplemented), (s, pod)) in
        (forall newCfg, RewritePodConfig newCfg (s, pod) = todo)
        /\ (forall id, String.eqb id "" = false ->
              PodHasContainer id (s, pod) = todo)
        /\ PodContainersByID (s, pod) = todo
        /\ PodContainers (s, pod) = todo
        /\ AddPod (s, pod) = todo
        /\ RemovePod (s, pod) = todo
        /\ RemovePodContainers (s, pod) = todo
        /\ UpdatePod (s, pod) = todo
        /\ SavePod (s, pod) = todo)
  /\ (forall (volume : Volume) (newCfg : VolumeConfig),
        vol_valid volume = true ->
        RewriteVolumeConfig newCfg (s, volume)
        = (inl (Sentinel define.ErrNotImplemented), (s, volume))).
Proof.
  intro Hs.
  repeat (first [ match goal with |- _ /\ _ => split end | intro ];
          cbv zeta);
    unfold SQLiteState_Pod, HasPod, AllPods, RewritePodConfig, PodHasContainer,
      PodContainersByID, PodContainers, AddPod, RemovePod, RemovePodContainers,
      UpdatePod, SavePod, RewriteVolumeConfig, pod_stub;
    go;
    repeat (match goal with
            | Hr : _ = false |- _ => rewrite Hr
            | Hr : _ = true |- _ => rewrite Hr
            end; simpl);
    reflexivity.
Qed.

End NotImplemented.

(** ** When Refresh succeeds *)

Section RefreshSucceeds.
Context {Hst : Host} {L : Libpod}.

Lemma range_order_nil : range_order [] = [].
Proof.
  apply Permutation_nil. apply Permutation_sym. apply range_order_perm.
Qed.

Lemma Refresh_runs_without_state_rows db pd tr rt :
  ContainerState_rows db = [] ->
  PodState_rows db = [] ->
  VolumeState_rows db = [] ->
  Refresh (mkSQLiteState true (mkConn db pd [] tr) rt)
  = (inr tt,
     mkSQLiteState true
       (mkConn
          (set_rows T_ContainerExecSession []
             (set_rows T_ContainerExitCode [] db))
          None []
          ("DELETE FROM ContainerExecSession;"
           :: "DELETE FROM ContainerExitCode;"
           :: "SELECT Name, JSON FROM VolumeState;"
           :: "SELECT ID, JSON FROM PodState;"
           :: "SELECT ID, JSON FROM ContainerState;" :: tr)) rt).
Proof.
  intros Hc Hp Hv. unfold Refresh. go.
  rewrite (@Conn_Query_states db pd tr T_ContainerState _
             (or_introl eq_refl)).
  simpl. rewrite Hc. simpl.
  rewrite (@Conn_Query_states db pd _ T_PodState _
             (or_intror (or_introl eq_refl))).
  simpl. rewrite Hp. simpl.
  rewrite (@Conn_Query_states db pd _ T_VolumeState _
             (or_intror (or_intror eq_refl))).
  simpl. rewrite Hv. simpl.
  rewrite range_order_nil. simpl.
  rewrite Tx_Exec_delete_all_exit_codes. simpl.
  rewrite Tx_Exec_delete_all_sessions. reflexivity.
Qed.

(** X5.  On an open store whose driver does not fail, Refresh succeeds
    exactly when no container, pod or volume has a state row.  It then
    empties the exit-code and exec-session tables and changes no other
    table.  With a state row it fails and changes nothing, so that the
    two tables are emptied after a reboot only on a store without
    entities. *)
Theorem Refresh_succeeds_only_without_state_rows (s : SQLiteState) :
  valid s = true ->
  faults (conn s) = [] ->
  let db := store (conn s) in
  let state_rows :=
    ContainerState_rows db ++ PodState_rows db ++ VolumeState_rows db in
  (fst (Refresh s) = inr tt <-> state_rows = [])
  /\ (state_rows = [] ->
      store (conn (snd (Refresh s)))
      = set_rows T_ContainerExecSession [] (set_rows T_ContainerExitCode [] db)
      /\ pending (conn (snd (Refresh s))) = None)
  /\ (state_rows <> [] -> store (conn (snd (Refresh s))) = db).
Proof.
  destruct s as [v [db pd fl tr] rt]. simpl. intros Hv Hf. subst v fl.
  assert (Hempty : ContainerState_rows db ++ PodState_rows db
                   ++ VolumeState_rows db = [] ->
                   ContainerState_rows db = [] /\ PodState_rows db = []
                   /\ VolumeState_rows db = []).
  { intro H. apply app_eq_nil in H. destruct H as [H1 H].
    apply app_eq_nil in H. destruct H as [H2 H3]. repeat split; assumption. }
  assert (Hrefused : ContainerState_rows db ++ PodState_rows db
                     ++ VolumeState_rows db <> [] ->
                     exists e, fst (Refresh (mkSQLiteState true (mkConn db pd [] tr) rt))
                               = inl e
                               /\ store (conn (snd (Refresh
                                    (mkSQLiteState true (mkConn db pd [] tr) rt))))
                                  = db).
  { intro Hne.
    apply (Refresh_refused (mkSQLiteState true (mkConn db pd [] tr) rt)).
    simpl. apply Nat.ltb_lt.
    destruct (ContainerState_rows db) as [| r1 l1] eqn:E1; [| simpl; lia].
    destruct (PodState_rows db) as [| r2 l2] eqn:E2; [| simpl; lia].
    destruct (VolumeState_rows db) as [| r3 l3] eqn:E3; [| simpl; lia].
    exfalso. apply Hne. reflexivity. }
  split; [| split].
  - split.
    + intro Hok.
      destruct (ContainerState_rows db ++ PodState_rows db ++ VolumeState_rows db)
        as [| r rs] eqn:Er; [reflexivity |].
      destruct Hrefused as [e [He _]]; [discriminate |].
      rewrite He in Hok. discriminate Hok.
    + intro H. destruct (Hempty H) as (H1 & H2 & H3).
      rewrite (Refresh_runs_without_state_rows db pd tr rt H1 H2 H3).
      reflexivity.
  - intro H. destruct (Hempty H) as (H1 & H2 & H3).
    rewrite (Refresh_runs_without_state_rows db pd tr rt H1 H2 H3).
    split; reflexivity.
  - intro Hne. destruct (Hrefused Hne) as [e [_ Hs]]. exact Hs.
Qed.

End RefreshSucceeds.

Transparent sql_prepare Conn_Query Tx_Query Tx_Exec.

(** ** Instances of the properties above *)

Lemma closed_state_refuses_after_Close :
  let s := snd (Close (Example.open Example.volumes)) in
  valid s = false
  /\ store (conn s) = Example.volumes
  /\ Refresh (Hst := Example.host) (L := Example.libpod) s
     = (inl (Sentinel define.ErrDBClosed), s)
  /\ GetExecSession "" s = (inl (Sentinel define.ErrDBClosed), s)
  /\ RemoveVolume (L := Example.libpod) (s, Example.volume "logs" true)
     = (inl (Sentinel define.ErrDBClosed), (s, Example.volume "logs" true)).
Proof.
  intro s.
  destruct (@closed_state_refuses Example.host Example.libpod Example.internals
              Cases.finalizers) as (Hclose & _ & Hall).
  destruct (Hclose (Example.open Example.volumes) s eq_refl) as [Hv Hs].
  destruct (Hall s Hv)
    as (Hrefresh & _ & _ & _ & Hsession & _ & _ & _ & _ & _ & _ & Hvol).
  destruct (Hvol (Example.volume "logs" true)) as (_ & _ & Hremove & _).
  split; [exact Hv |]. split; [exact Hs |]. split; [exact Hrefresh |].
  split; [exact (Hsession "") | exact Hremove].
Defined.

Lemma failed_write_changes_no_row_on_duplicate_volume :
  let w := (Example.open Example.volumes, Example.volume "data" true) in
  let r := AddVolume (L := Example.libpod) w in
  fst r = inl (Errorf "adding volume %s config to database: %w" ["data"]
                 (SqlError (UniqueConstraint "VolumeConfig")))
  /\ store (conn (fst (snd r))) = Example.volumes.
Proof.
  intros w r.
  assert (E : r = (inl (Errorf "adding volume %s config to database: %w" ["data"]
                          (SqlError (UniqueConstraint "VolumeConfig"))), snd r))
    by (vm_compute; reflexivity).
  split; [rewrite E; reflexivity |].
  destruct (@failed_write_changes_no_row Example.host Example.libpod)
    as (_ & _ & _ & _ & _ & _ & _ & Hadd & _).
  exact (Hadd w _ _ E).
Defined.

Lemma no_transaction_left_open_on_failed_commit :
  let s := Example.open_failing Example.after_reboot [false; false; true] in
  let r := RemoveExecSession (mkExecSession "e1" "c1") s in
  fst r = inl (Errorf "committing container %s exec session %s removal: %w"
                 ["c1"; "e1"] (SqlError DriverFault))
  /\ pending (conn (snd r)) = None.
Proof.
  intros s r. split; [vm_compute; reflexivity |].
  destruct (@no_transaction_left_open Example.host Example.libpod)
    as (_ & _ & _ & Hremove & _).
  exact (Hremove (mkExecSession "e1" "c1") s eq_refl).
Defined.

Lemma GetDBConfig_reads_the_row_of_rt :
  let s := Example.open
             (set_rows T_DBConfig
                [Example.config_row "/var/lib/containers/storage"] empty_DB) in
  fst (GetDBConfig s)
  = inr (mkDBConfig "/var/lib/containers/storage/libpod" "/run/libpod"
           "/var/lib/containers/storage" "/run/containers/storage" "overlay"
           "/var/lib/containers/storage/volumes")
  /\ fst (GetDBConfig (Example.open empty_DB)) = inr new_DBConfig.
Proof.
  intro s. split.
  - destruct (@GetDBConfig_reads_the_row s eq_refl eq_refl) as (_ & Hrow & _).
    exact (Hrow (VInt 1) (VInt 1) (VText "linux")
             "/var/lib/containers/storage/libpod" "/run/libpod"
             "/var/lib/containers/storage" "/run/containers/storage" "overlay"
             "/var/lib/containers/storage/volumes" [] eq_refl).
  - destruct (@GetDBConfig_reads_the_row (Example.open empty_DB) eq_refl eq_refl)
      as (Hnone & _).
    exact (Hnone eq_refl).
Defined.

Lemma ValidateDBConfig_then_GetDBConfig_on_empty_store :
  let s := Example.open empty_DB in
  let s1 := snd (ValidateDBConfig (Hst := Example.host) Example.rt s) in
  let bare := mkSQLiteState true (mkConn empty_DB None [] [])
                (mkRuntime "/lib" "/run/libpod" "/volumes"
                   (mkStoreOptions "" "" "")) in
  fst (GetDBConfig s1)
  = inr (mkDBConfig "/var/lib/containers/storage/libpod" "/run/libpod"
           "/var/lib/containers/storage" "/run/containers/storage" "overlay"
           "/var/lib/containers/storage/volumes")
  /\ fst (ValidateDBConfig (Hst := Example.host) Example.rt s1) = inr tt
  /\ store (conn (snd (ValidateDBConfig (Hst := Example.host) Example.rt s1)))
     = store (conn s1)
  /\ fst (GetDBConfig
            (snd (ValidateDBConfig (Hst := Example.host) Example.rt bare)))
     = inr (mkDBConfig "/lib" "/run/libpod" "." "." "overlay" "/volumes").
Proof.
  intros s s1 bare.
  destruct (@ValidateDBConfig_then_GetDBConfig Example.host
              (Example.open empty_DB) Example.rt
              (mkStoreOptions "/var/lib/containers/storage"
                 "/run/containers/storage" "overlay")
              eq_refl eq_refl eq_refl eq_refl)
    as (Hget & _ & Hagain & Hsame & _).
  split; [exact Hget |]. split; [exact Hagain |]. split; [exact Hsame |].
  destruct (@ValidateDBConfig_then_GetDBConfig Example.host bare Example.rt
              (mkStoreOptions "/var/lib/containers/storage"
                 "/run/containers/storage" "overlay")
              eq_refl eq_refl eq_refl eq_refl) as (_ & Hdot & _).
  apply Hdot. intros p E. simpl in E.
  destruct p; discriminate E.
Defined.

Lemma names_by_ID_on_abc456 :
  let s := Example.open Example.two_containers in
  fst (GetContainerName "abc456" s) = inr "second"
  /\ fst (GetPodName "abc456" s) = inl (Sentinel define.ErrNoSuchPod).
Proof.
  intro s.
  destruct (@names_by_ID s "abc456" eq_refl eq_refl eq_refl)
    as (_ & Hname & Hpod & _).
  split.
  - exact (Hname [Example.ctr_row "abc123" "first"] "second"
             [VNull; VText "abc456"] [] eq_refl eq_refl).
  - exact (Hpod eq_refl).
Defined.

Lemma AddExecSession_then_get_on_e4 :
  let s := Example.open Cases.dependencies in
  let ctr := Example.container "c1" "" true in
  let s1 := fst (snd (AddExecSession (mkExecSession "e4" "c1") (s, ctr))) in
  fst (GetExecSession "e4" s1) = inr "c1"
  /\ fst (GetContainerExecSessions (s, ctr)) = inr ["e1"; "e3"]
  /\ fst (GetContainerExecSessions (s1, ctr)) = inr ["e1"; "e3"; "e4"].
Proof.
  intros s ctr s1.
  destruct (@AddExecSession_then_get Example.libpod s ctr
              (mkExecSession "e4" "c1") eq_refl eq_refl eq_refl eq_refl
              eq_refl eq_refl eq_refl)
    as (_ & _ & _ & Hget & before & Hbefore & Hafter).
  split; [exact Hget |].
  assert (Hb : before = ["e1"; "e3"]).
  { assert (E : fst (GetContainerExecSessions (s, ctr)) = inr ["e1"; "e3"])
      by (vm_compute; reflexivity).
    rewrite E in Hbefore. inversion Hbefore. reflexivity. }
  subst before. split; [exact Hbefore | exact Hafter].
Defined.

Lemma RemoveExecSession_checks_rows_affected_on_e2 :
  let s := Example.open Cases.dependencies in
  (let r := RemoveExecSession (mkExecSession "e2" "c2") s in
   fst r = inr tt
   /\ ContainerExecSession_rows (store (conn (snd r)))
      = [[VText "e1"; VText "c1"]; [VText "e3"; VText "c1"]])
  /\ (let r := RemoveExecSession (mkExecSession "e9" "c2") s in
      fst r = inl (Sentinel define.ErrNoSuchExecSession)
      /\ store (conn (snd r)) = Cases.dependencies).
Proof.
  intro s. split.
  - destruct (@RemoveExecSession_checks_rows_affected s
                (mkExecSession "e2" "c2") eq_refl eq_refl) as (_ & _ & Hsome).
    destruct (Hsome eq_refl) as (Hr & Hs & _).
    split; [exact Hr |]. rewrite Hs. reflexivity.
  - destruct (@RemoveExecSession_checks_rows_affected s
                (mkExecSession "e9" "c2") eq_refl eq_refl) as (_ & Hnone & _).
    exact (Hnone eq_refl).
Defined.

Lemma AddExecSession_then_remove_on_e4 :
  let s := Example.open Cases.dependencies in
  let session := mkExecSession "e4" "c1" in
  let s1 := fst (snd (AddExecSession session
                        (s, Example.container "c1" "" true))) in
  let r2 := RemoveExecSession session s1 in
  fst r2 = inr tt
  /\ store (conn (snd r2)) = Cases.dependencies
  /\ fst (RemoveExecSession session (snd r2))
     = inl (Sentinel define.ErrNoSuchExecSession).
Proof.
  intros s session s1 r2.
  exact (proj2 (@AddExecSession_then_remove Example.libpod s
                  (Example.container "c1" "" true) session
                  eq_refl eq_refl eq_refl eq_refl eq_refl)).
Defined.

Lemma RemoveContainerExecSessions_never_succeeds_on_c1 :
  let s := Example.open Cases.dependencies in
  let ctr := Example.container "c1" "" true in
  let r := RemoveContainerExecSessions (s, ctr) in
  fst r = inl (Errorf "removing container %s exec sessions from database: %w"
                 ["c1"] (SqlError (NoSuchTable "ContainerExecSessions")))
  /\ filter (named 1 "c1")
       (ContainerExecSession_rows (store (conn (fst (snd r)))))
     = [[VText "e1"; VText "c1"]; [VText "e3"; VText "c1"]].
Proof.
  intros s ctr r.
  destruct (@RemoveContainerExecSessions_never_succeeds Example.libpod)
    as [_ Hopen].
  destruct (Hopen s ctr eq_refl eq_refl eq_refl) as (He & Hrows & _).
  split; [exact He |]. exact (eq_trans Hrows eq_refl).
Defined.

Lemma UpdateContainer_reads_the_state_of_c2 :
  let s := Example.open Cases.dependencies in
  (let r := UpdateContainer (s, Example.container "c2" "" true) in
   fst r = inr tt /\ state (snd (snd r)) = "exited")
  /\ (let r := UpdateContainer (s, Example.container "c3" "" true) in
      fst r = inr tt /\ state (snd (snd r)) = "")
  /\ (let r := UpdateContainer (s, Example.container "c9" "" true) in
      ctr_valid (snd (snd r)) = false).
Proof.
  intro s. split; [| split].
  - destruct (@UpdateContainer_reads_the_state Example.libpod s
                (Example.container "c2" "" true) eq_refl eq_refl eq_refl)
      as (_ & _ & Hrow).
    destruct (Hrow [[VText "c1"; VText "running"]] (VText "exited") []
                [[VText "c3"; VNull]] eq_refl eq_refl) as [Hok _].
    destruct (Hok "exited" eq_refl) as [Hr Hc].
    split; [exact Hr | rewrite Hc; reflexivity].
  - destruct (@UpdateContainer_reads_the_state Example.libpod s
                (Example.container "c3" "" true) eq_refl eq_refl eq_refl)
      as (_ & _ & Hrow).
    destruct (Hrow [[VText "c1"; VText "running"]; [VText "c2"; VText "exited"]]
                VNull [] [] eq_refl eq_refl) as [Hok _].
    destruct (Hok "" eq_refl) as [Hr Hc].
    split; [exact Hr | rewrite Hc; reflexivity].
  - destruct (@UpdateContainer_reads_the_state Example.libpod s
                (Example.container "c9" "" true) eq_refl eq_refl eq_refl)
      as (_ & Hnone & _).
    destruct (Hnone eq_refl) as [_ Hc]. exact (f_equal ctr_valid Hc).
Defined.

Lemma SaveContainer_then_UpdateContainer_on_c2 :
  let s := Example.open Cases.dependencies in
  let saved :=
    mkContainer (L := Example.libpod) (mkContainerConfig "c2" "app" "" false [])
      "paused" true (Some Example.rt) in
  let s1 := fst (snd (SaveContainer (s, saved))) in
  let r := UpdateContainer (s1, Example.container "c2" "" true) in
  fst r = inr tt /\ state (snd (snd r)) = "paused".
Proof.
  intros s saved s1 r.
  pose proof (@SaveContainer_then_UpdateContainer Example.libpod s saved
                (Example.container "c2" "" true) "paused"
                eq_refl eq_refl eq_refl eq_refl eq_refl eq_refl
                ltac:(vm_compute; reflexivity)) as H.
  cbv beta iota zeta in H. destruct H as [Hr Hc].
  split; [exact Hr | exact (f_equal state Hc)].
Defined.

Lemma ContainerInUse_lists_the_dependents_of_c1 :
  let s := Example.open Cases.dependencies in
  fst (ContainerInUse (s, Example.container "c1" "" true)) = inr ["c2"; "c3"]
  /\ fst (ContainerInUse (s, Example.container "c2" "" true)) = inr [].
Proof.
  intro s. split.
  - exact (proj1 (@ContainerInUse_lists_the_dependents Example.libpod s
                    (Example.container "c1" "" true)
                    eq_refl eq_refl eq_refl eq_refl)).
  - destruct (@ContainerInUse_lists_the_dependents Example.libpod s
                (Example.container "c2" "" true)
                eq_refl eq_refl eq_refl eq_refl) as (_ & _ & _ & Hnone).
    exact (Hnone eq_refl).
Defined.

Lemma GetNetworks_follows_the_config_on_c1 :
  let s := Example.open Cases.dependencies in
  GetNetworks (I := Example.internals) (s, Example.container "c1" "" true)
  = (inr [], (s, Example.container "c1" "" true))
  /\ GetNetworks (I := Example.internals) (s, Cases.bridged "c1")
     = (inl (Sentinel define.ErrNoSuchCtr),
        (s, set_ctr_valid false (Cases.bridged "c1"))).
Proof.
  intro s. split.
  - exact (proj1 (@GetNetworks_follows_the_config Example.libpod
                    Example.internals s (Example.container "c1" "" true)
                    eq_refl eq_refl) eq_refl).
  - exact (proj2 (@GetNetworks_follows_the_config Example.libpod
                    Example.internals s (Cases.bridged "c1")
                    eq_refl eq_refl) eq_refl _ _ eq_refl).
Defined.

Lemma SafeRewriteContainerConfig_checks_the_names_on_c1 :
  let w := (Example.open Cases.dependencies, Example.container "c1" "" true) in
  let cfg := mkContainerConfig "c1" "renamed" "" false [] in
  fst (SafeRewriteContainerConfig (I := Example.internals)
         "base" "other" cfg w)
  = inl (Errorf "new name %s for container %s must match name in given container config: %w"
           ["other"; "c1"] define.ErrInvalidArg)
  /\ SafeRewriteContainerConfig (I := Example.internals) "base" "renamed" cfg w
     = RewriteContainerConfig (I := Example.internals) cfg w.
Proof.
  intros w cfg. split.
  - destruct (@SafeRewriteContainerConfig_checks_the_names Example.libpod
                Example.internals (fst w) (snd w) "base" "other" cfg
                eq_refl eq_refl) as (Hbad & _ & _).
    destruct Hbad as [_ [e [He _]]]; [discriminate | discriminate |].
    etransitivity; [exact He |]. vm_compute in He. inversion He. reflexivity.
  - destruct (@SafeRewriteContainerConfig_checks_the_names Example.libpod
                Example.internals (fst w) (snd w) "base" "renamed" cfg
                eq_refl eq_refl) as (_ & _ & Hok).
    apply Hok. right. split; [reflexivity | discriminate].
Defined.

Lemma pod_membership_is_checked_on_p100 :
  let s := Example.open Cases.pods in
  let pod := Example.pod "p100" true in
  (exists e,
     fst (AddContainerToPod (I := Example.internals)
            (s, (pod, Example.container "c1" "p200" true))) = inl e
     /\ errors_Is e define.ErrNoSuchCtr = true)
  /\ (exists e,
        fst (RemoveContainerFromPod (I := Example.internals)
               (s, (pod, Example.container "c1" "" true))) = inl e
        /\ errors_Is e define.ErrNoSuchPod = true)
  /\ (exists e,
        fst (RemoveContainerFromPod (I := Example.internals)
               (s, (pod, Example.container "c1" "p200" true))) = inl e
        /\ errors_Is e define.ErrInvalidArg = true)
  /\ fst (AddContainerToPod (I := Example.internals)
            (s, (pod, Example.container "c1" "p100" true))) = inr tt.
Proof.
  intros s pod.
  destruct (@pod_membership_is_checked Example.libpod Example.internals s pod
              (Example.container "c1" "p200" true) eq_refl eq_refl)
    as (Hadd & _ & _ & Hother & _).
  destruct (@pod_membership_is_checked Example.libpod Example.internals s pod
              (Example.container "c1" "" true) eq_refl eq_refl)
    as (_ & _ & Hnone & _).
  destruct (@pod_membership_is_checked Example.libpod Example.internals s pod
              (Example.container "c1" "p100" true) eq_refl eq_refl)
    as (_ & Hsame & _).
  split; [exact (proj2 (Hadd eq_refl ltac:(discriminate))) |].
  split; [exact (proj2 (Hnone eq_refl)) |].
  split; [exact (proj2 (Hother ltac:(discriminate) ltac:(discriminate))) |].
  rewrite (Hsame eq_refl eq_refl). reflexivity.
Defined.

Lemma AddVolume_adds_both_rows_of_cache :
  let s := Example.open Example.volumes in
  (let r := AddVolume (s, Cases.backed "cache" "st1") in
   fst r = inr tt
   /\ VolumeConfig_rows (store (conn (fst (snd r))))
      = [[VText "data"; VNull; VText "data"]; [VText "logs"; VNull; VText "logs"];
         [VText "cache"; VText "st1"; VText "cache"]]
   /\ VolumeState_rows (store (conn (fst (snd r))))
      = [[VText "data"; VText "{}"]; [VText "logs"; VText "{}"];
         [VText "cache"; VText ""]])
  /\ (let r := AddVolume (s, Cases.backed "data" "st1") in
      (exists e, fst r = inl e) /\ store (conn (fst (snd r))) = Example.volumes).
Proof.
  intro s. split.
  - destruct (@AddVolume_adds_both_rows Example.libpod s
                (Cases.backed "cache" "st1") "cache" ""
                eq_refl eq_refl eq_refl eq_refl eq_refl)
      as (_ & _ & Hfresh & _).
    destruct (Hfresh eq_refl eq_refl) as (Hr & storageID & Hs & _ & Hid).
    split; [exact Hr |].
    assert (Hst : storageID = VText "st1").
    { apply Hid. intro Hnull.
      assert (E : store (conn (fst (snd (AddVolume (s, Cases.backed "cache" "st1")))))
                  = set_rows T_VolumeState
                      (VolumeState_rows Example.volumes ++ [[VText "cache"; VText ""]])
                      (set_rows T_VolumeConfig
                         (VolumeConfig_rows Example.volumes
                          ++ [[VText "cache"; VText "st1"; VText "cache"]])
                         Example.volumes))
        by (vm_compute; reflexivity).
      rewrite Hnull in Hs. rewrite E in Hs. discriminate Hs. }
    subst storageID. split; [exact (f_equal VolumeConfig_rows Hs) |].
    exact (f_equal VolumeState_rows Hs).
  - destruct (@AddVolume_adds_both_rows Example.libpod s
                (Cases.backed "data" "st1") "data" ""
                eq_refl eq_refl eq_refl eq_refl eq_refl)
      as (_ & _ & _ & Htaken).
    exact (Htaken eq_refl).
Defined.

Lemma AddVolume_then_read_back_of_cache :
  let s := Example.open Example.volumes in
  let s1 := fst (snd (AddVolume (s, Example.volume "cache" true))) in
  (let r := UpdateVolume (s1, Cases.backed "cache" "") in
   fst r = inr tt /\ vol_state (snd (snd r)) = Some "{}")
  /\ fst (SQLiteState_Volume (F := Cases.finalizers) "cache" s1)
     = inr (mkVolume (L := Example.libpod) (mkVolumeConfig "cache" "") (Some "")
              true (Some Example.rt)).
Proof.
  intros s s1.
  destruct (@AddVolume_then_read_back Example.libpod Cases.finalizers s
              (Example.volume "cache" true) (Cases.backed "cache" "")
              "cache" "{}"
              eq_refl eq_refl eq_refl eq_refl eq_refl eq_refl eq_refl eq_refl
              eq_refl eq_refl) as (_ & Hupdate & Hvolume).
  cbv beta iota zeta in Hupdate. destruct Hupdate as [Hr Hh].
  split; [split; [exact Hr | exact (f_equal vol_state Hh)] |].
  exact Hvolume.
Defined.

Lemma AddVolume_then_RemoveVolume_of_cache :
  let s := Example.open Example.volumes in
  let volume := Example.volume "cache" true in
  let s1 := fst (snd (AddVolume (s, volume))) in
  List.length (VolumeConfig_rows (store (conn s1))) = 3%nat
  /\ fst (RemoveVolume (s1, volume)) = inr tt
  /\ store (conn (fst (snd (RemoveVolume (s1, volume))))) = Example.volumes.
Proof.
  intros s volume s1.
  destruct (@AddVolume_then_RemoveVolume Example.libpod s volume "cache" "{}"
              eq_refl eq_refl eq_refl eq_refl eq_refl eq_refl eq_refl eq_refl)
    as (_ & _ & Hr & Hs).
  split; [vm_compute; reflexivity |]. split; [exact Hr | exact Hs].
Defined.

Lemma UpdateVolume_reads_the_state_of_logs :
  let s := Example.open Example.volumes in
  (let r := UpdateVolume (s, Cases.backed "logs" "") in
   fst r = inr tt /\ vol_state (snd (snd r)) = Some "{}")
  /\ (let r := UpdateVolume (s, Cases.backed "nope" "") in
      fst r = inl (Sentinel define.ErrNoSuchVolume)
      /\ vol_valid (snd (snd r)) = false).
Proof.
  intro s. split.
  - destruct (@UpdateVolume_reads_the_state Example.libpod s
                (Cases.backed "logs" "") eq_refl eq_refl eq_refl)
      as (_ & _ & Hrow).
    destruct (Hrow [[VText "data"; VText "{}"]] (VText "{}") [] []
                eq_refl eq_refl) as (_ & Hok & _).
    destruct (Hok "{}" ltac:(discriminate) eq_refl) as [Hr Hh].
    split; [exact Hr | exact (f_equal vol_state Hh)].
  - destruct (@UpdateVolume_reads_the_state Example.libpod s
                (Cases.backed "nope" "") eq_refl eq_refl eq_refl)
      as (_ & Hnone & _).
    destruct (Hnone eq_refl) as [Hr Hh].
    split; [exact Hr | exact (f_equal vol_valid Hh)].
Defined.

Lemma LookupVolume_needs_the_whole_name_of_data :
  let s := Example.open Example.volumes in
  fst (LookupVolume (F := Cases.finalizers) "dat" s)
  = inl (Sentinel define.ErrNoSuchVolume)
  /\ fst (LookupVolume (F := Cases.finalizers) "DATA" s)
     = inr (mkVolume (L := Example.libpod) (mkVolumeConfig "data" "") (Some "")
              true (Some Example.rt)).
Proof.
  intro s. split.
  - apply (@LookupVolume_needs_the_whole_name Example.libpod Cases.finalizers
             s "dat" eq_refl eq_refl eq_refl eq_refl eq_refl eq_refl eq_refl
             eq_refl).
    intros r [Hr | [Hr | []]]; subst r; discriminate.
  - exact (proj1 (@LookupVolume_needs_the_whole_name Example.libpod
                    Cases.finalizers s "DATA"
                    eq_refl eq_refl eq_refl eq_refl eq_refl eq_refl eq_refl
                    eq_refl)).
Defined.

Lemma Volume_by_name_of_logs :
  let s := Example.open Example.volumes in
  fst (SQLiteState_Volume (F := Cases.finalizers) "logs" s)
  = inr (mkVolume (L := Example.libpod) (mkVolumeConfig "logs" "") (Some "")
           true (Some Example.rt))
  /\ fst (SQLiteState_Volume (F := Cases.finalizers) "log" s)
     = inl (Sentinel define.ErrNoSuchVolume).
Proof.
  intro s.
  destruct (@Volume_by_name Example.libpod Cases.finalizers s "logs"
              eq_refl eq_refl eq_refl) as [_ Hrow].
  destruct (@Volume_by_name Example.libpod Cases.finalizers s "log"
              eq_refl eq_refl eq_refl) as [Hnone _].
  split; [| exact (Hnone eq_refl)].
  destruct (Hrow [[VText "data"; VNull; VText "data"]] VNull (VText "logs") [] []
              eq_refl eq_refl) as [Hok _].
  exact (Hok (mkVolumeConfig "logs" "") eq_refl).
Defined.

Lemma AllVolumes_loads_every_row_of_volumes :
  let s := Example.open Example.volumes in
  fst (AllVolumes (F := Cases.finalizers) s)
  = inr [mkVolume (L := Example.libpod) (mkVolumeConfig "data" "") (Some "")
           true (Some Example.rt);
         mkVolume (L := Example.libpod) (mkVolumeConfig "logs" "") (Some "")
           true (Some Example.rt)]
  /\ (exists e,
        fst (AllVolumes (F := Cases.finalizers)
               (Example.open
                  (set_rows T_VolumeConfig
                     [[VText "data"; VNull; VNull];
                      [VText "logs"; VNull; VText "logs"]] empty_DB)))
        = inl e).
Proof.
  intro s. split.
  - destruct (@AllVolumes_loads_every_row Example.libpod Cases.finalizers s
                eq_refl eq_refl) as (Hall & _).
    apply Hall. repeat constructor.
  - destruct (@AllVolumes_loads_every_row Example.libpod Cases.finalizers
                (Example.open
                   (set_rows T_VolumeConfig
                      [[VText "data"; VNull; VNull];
                       [VText "logs"; VNull; VText "logs"]] empty_DB))
                eq_refl eq_refl) as (_ & Hbad & _).
    eexists.
    apply (Hbad [] [VText "data"; VNull; VNull]
             [[VText "logs"; VNull; VText "logs"]] _ eq_refl).
    + intros b [].
    + reflexivity.
Defined.

Lemma LookupPod_counts_the_rows_of_pods :
  let s := Example.open Cases.pods in
  fst (LookupPod (F := Cases.finalizers) "p1" s)
  = inl (Sentinel define.ErrNoSuchPod)
  /\ fst (LookupPod (F := Cases.finalizers) "web" s)
     = inr (mkPod (L := Example.libpod) (mkPodConfig "p100") "" true
              (Some Example.rt))
  /\ (exists e, fst (LookupPod (F := Cases.finalizers) "p%" s) = inl e
                /\ errors_Is e define.ErrCtrExists = true
                /\ errors_Is e define.ErrPodExists = false).
Proof.
  intro s.
  destruct (@LookupPod_counts_the_rows Example.libpod Cases.finalizers s "p1"
              eq_refl eq_refl eq_refl eq_refl) as (Hnone & _).
  destruct (@LookupPod_counts_the_rows Example.libpod Cases.finalizers s "web"
              eq_refl eq_refl eq_refl eq_refl) as (_ & Hone & _).
  destruct (@LookupPod_counts_the_rows Example.libpod Cases.finalizers s "p%"
              eq_refl eq_refl eq_refl eq_refl) as (_ & _ & Hmany).
  split; [exact (Hnone eq_refl) |].
  split; [exact (Hone [VText "p100"; VText "web"; VText "p100"] eq_refl) |].
  apply Hmany. vm_compute. lia.
Defined.


Lemma pods_are_not_implemented_on_p100 :
  let s := Example.open Cases.pods in
  SQLiteState_Pod (L := Example.libpod) "p100" s
  = (inl (Sentinel define.ErrNotImplemented), s)
  /\ AddPod (L := Example.libpod) (s, Example.pod "p100" true)
     = (inl (Sentinel define.ErrNotImplemented), (s, Example.pod "p100" true))
  /\ fst (GetPodName "p100" s) = inr "web".
Proof.
  intro s.
  destruct (@pods_are_not_implemented Example.libpod s eq_refl)
    as (Hid & _ & Hpod & _).
  split; [exact (proj1 (Hid "p100" eq_refl)) |].
  destruct (Hpod (Example.pod "p100" true) eq_refl) as (_ & _ & _ & _ & Hadd & _).
  split; [exact Hadd | vm_compute; reflexivity].
Defined.

Lemma Refresh_succeeds_only_without_state_rows_on_only_ephemeral :
  fst (Refresh (Hst := Example.host) (L := Example.libpod)
         (Example.open Example.only_ephemeral)) = inr tt
  /\ store (conn (snd (Refresh (Hst := Example.host) (L := Example.libpod)
                         (Example.open Example.only_ephemeral)))) = empty_DB
  /\ store (conn (snd (Refresh (Hst := Example.host) (L := Example.libpod)
                         (Example.open Example.after_reboot))))
     = Example.after_reboot.
Proof.
  destruct (@Refresh_succeeds_only_without_state_rows Example.host Example.libpod
              (Example.open Example.only_ephemeral) eq_refl eq_refl)
    as (Hiff & Hclear & _).
  destruct (@Refresh_succeeds_only_without_state_rows Example.host Example.libpod
              (Example.open Example.after_reboot) eq_refl eq_refl)
    as (_ & _ & Hkept).
  split; [exact (proj2 Hiff eq_refl) |].
  split; [exact (proj1 (Hclear eq_refl)) |].
  apply Hkept. discriminate.
Defined.

Lemma LookupContainerID_by_plain_term_on_abc :
  let s := Example.open Example.two_containers in
  fst (LookupContainerID "abc" s) = inl (Sentinel define.ErrNoSuchCtr)
  /\ fst (LookupContainerID "ABC456" s) = inr "abc456".
Proof.
  intro s. split.
  - apply (@LookupContainerID_by_plain_term s "abc"
             eq_refl eq_refl eq_refl eq_refl eq_refl eq_refl eq_refl eq_refl).
    intros r [Hr | [Hr | []]]; subst r; split; (reflexivity || discriminate).
  - exact (proj1 (@LookupContainerID_by_plain_term s "ABC456"
                    eq_refl eq_refl eq_refl eq_refl eq_refl eq_refl eq_refl
                    eq_refl)).
Defined.
